(** * Tab manager of the Spacedrive interface: a shallow embedding

    Source: packages/interface/src/components/TabManager/useTabManager.ts
    (the [TabManagerProvider] component, the [ExplorerStateStore] class,
    [loadPersistedState], [deriveTitleFromPath] and [useTabExplorerState]).

    Conventions of the embedding.
    - A JavaScript string is a Rocq [string] holding its UTF-8 bytes (a
      surrogate that stands alone is written as the three bytes generalized
      UTF-8 gives it).  [split] and [startsWith] are only used with ASCII
      separators and prefixes, which match byte by byte; [slice] counts
      UTF-16 code units, as JavaScript does.
    - A JavaScript number is carried as an exact decimal [number]; the
      module stores and copies numbers and never computes with them.
    - The built-ins the module calls ([JSON.parse], [JSON.stringify],
      [encodeURIComponent], [decodeURIComponent], [URLSearchParams]) are
      functions on such strings, written after their standards.
    - React state is passed explicitly: every context operation is a
      function from the rendered [TabManager] state to the next one, run
      to completion before the next operation starts, and an operation
      that throws returns [Thrown].
    - The listeners of the store are known by identity; the calls made to
      them are recorded, in order, in [delivered].
    - [crypto.randomUUID()] and [Date.now()] are arguments of the
      operations that call them.
    - The effect that writes the snapshot back is [savePersistedState]
      applied to the [snapshot] of a state; no operation reads what it
      stores.  The router is left out. *)

From Stdlib Require Import String Ascii List ZArith Lia Bool.
From stdpp Require Import base option list gmap strings pretty.

Local Open Scope Z_scope.

(* ====================================================================== *)
(** * Platform built-ins used by the module *)
(* ====================================================================== *)

(** ** Strings *)

Module JsString.

Definition chars (s : string) : list ascii := list_ascii_of_string s.
Definition of_chars (l : list ascii) : string := string_of_list_ascii l.

  (** [s.split(sep)] for a one-character separator; never returns []. *)
Fixpoint split (sep : ascii) (s : string) : list string :=
    match s with
    | EmptyString => [EmptyString]
    | String c s' =>
        if Ascii.eqb c sep then EmptyString :: split sep s'
        else match split sep s' with
             | [] => [String c EmptyString]
             | w :: ws => String c w :: ws
             end
    end.

  (** [s.startsWith(p)] *)
Definition startsWith (p s : string) : bool := String.prefix p s.

  (** Whether a byte starts a character of four bytes, which UTF-16 writes
      as a surrogate pair: two code units. *)
Definition is_pair (c : ascii) : bool := N.leb 0xF0 (N_of_ascii c).

  (** The bytes that follow a first byte in its character. *)
Definition utf8_tail (c : ascii) : nat :=
    let b := N_of_ascii c in
    if N.ltb b 0xC0 then 0%nat
    else if N.ltb b 0xE0 then 1%nat
    else if N.ltb b 0xF0 then 2%nat
    else 3%nat.

Definition byte_at (i : nat) (s : string) : N :=
    match String.get i s with
    | Some c => N_of_ascii c
    | None => 0%N
    end.

  (** The first code unit of the surrogate pair of the four-byte character
      [c :: rest], standing alone. *)
Definition high_surrogate (c : ascii) (rest : string) : string :=
    let codePoint := (N.shiftl (N.land (N_of_ascii c) 7) 18
                      + N.shiftl (N.land (byte_at 0 rest) 63) 12
                      + N.shiftl (N.land (byte_at 1 rest) 63) 6
                      + N.land (byte_at 2 rest) 63)%N in
    let unit := (0xD800 + N.shiftr (codePoint - 0x10000) 10)%N in
    String (ascii_of_N 0xED)
      (String (ascii_of_N (0x80 + N.land (N.shiftr unit 6) 63))
         (String (ascii_of_N (0x80 + N.land unit 63)) EmptyString)).

  (** The first [n] code units of [s], once the [pending] bytes that end
      the character before are copied. *)
Fixpoint slice_units (n pending : nat) (s : string) : string :=
    match s with
    | EmptyString => EmptyString
    | String c rest =>
        match pending with
        | S p => String c (slice_units n p rest)
        | O =>
            match n with
            | O => EmptyString
            | S n' =>
                if is_pair c then
                  match n' with
                  | O => high_surrogate c rest
                  | S n'' => String c (slice_units n'' 3 rest)
                  end
                else String c (slice_units n' (utf8_tail c) rest)
            end
        end
    end.

  (** [s.slice(0, n)]: the first [n] UTF-16 code units of [s].  A cut
      inside a surrogate pair keeps its first unit. *)
Definition slice0 (n : nat) (s : string) : string := slice_units n 0 s.

  (** Truthiness of a string: [Boolean(s)]. *)
Definition truthy (s : string) : bool := negb (String.eqb s EmptyString).

  (** [s === t] *)
Definition eq (s t : string) : bool := String.eqb s t.

  (** The code units of [s] after the [pending] bytes that end the
      character before. *)
Fixpoint length_from (pending : nat) (s : string) : nat :=
    match s with
    | EmptyString => O
    | String c rest =>
        match pending with
        | S p => length_from p rest
        | O =>
            if is_pair c then S (S (length_from 3 rest))
            else S (length_from (utf8_tail c) rest)
        end
    end.

  (** [s.length]: the number of UTF-16 code units of [s]. *)
Definition length (s : string) : nat := length_from 0 s.

End JsString.

(** ** Numbers *)

(** The decimal [mantissa * 10 ^ exponent]. *)
Record number := Num { mantissa : Z; exponent : Z }.

Definition int (z : Z) : number := Num z 0.

Fixpoint strip_zeros (fuel : nat) (m e : Z) : number :=
  match fuel with
  | O => Num m e
  | S fuel' =>
      if (e <? 0) && Z.eqb (Z.rem m 10) 0
      then strip_zeros fuel' (Z.quot m 10) (e + 1)
      else Num m e
  end.

(** One spelling per value: an integer has exponent 0, a fraction has no
    trailing zero digit. *)
Definition decimal (m e : Z) : number :=
  if 0 <=? e then Num (m * 10 ^ e) 0 else strip_zeros (Z.to_nat (- e)) m e.

(** ** Bytes, hexadecimal digits and UTF-8 *)

Module Bytes.

Definition code (c : ascii) : N := N_of_ascii c.
Definition chr (n : N) : ascii := ascii_of_N n.

Definition between (lo hi n : N) : bool := (N.leb lo n) && (N.leb n hi).

Definition hex_value (c : ascii) : option N :=
    let n := code c in
    if between 48 57 n then Some (n - 48)%N
    else if between 65 70 n then Some (n - 55)%N
    else if between 97 102 n then Some (n - 87)%N
    else None.

Definition hex_digit (n : N) : ascii :=
    if N.ltb n 10 then chr (48 + n) else chr (55 + n).

Definition is_digit (c : ascii) : bool := between 48 57 (code c).

  (** The double quote character. *)
Definition dquote : ascii := chr 34.

  (** What a byte can start in well-formed UTF-8: a one-byte character, a
      sequence of [needed] further bytes whose first lies in [lo..hi], or
      nothing. *)
Inductive utf8_lead :=
  | LeadAscii
  | LeadMulti (needed : nat) (lo hi : N)
  | LeadInvalid.

Definition utf8_classify (b : N) : utf8_lead :=
    if N.leb b 0x7F then LeadAscii
    else if between 0xC2 0xDF b then LeadMulti 1 0x80 0xBF
    else if between 0xE0 0xEF b then
      LeadMulti 2 (if N.eqb b 0xE0 then 0xA0 else 0x80)
                  (if N.eqb b 0xED then 0x9F else 0xBF)
    else if between 0xF0 0xF4 b then
      LeadMulti 3 (if N.eqb b 0xF0 then 0x90 else 0x80)
                  (if N.eqb b 0xF4 then 0x8F else 0xBF)
    else LeadInvalid.

  (** U+FFFD *)
Definition replacement : list ascii := map chr [0xEF; 0xBF; 0xBD]%N.

  (** "UTF-8 decode without BOM" of the Encoding standard, on bytes, with
      the result again in UTF-8: ill-formed input becomes U+FFFD. *)
Fixpoint utf8_decode_lossy (needed : nat) (lo hi : N) (pend bs : list ascii)
    : list ascii :=
    match bs with
    | [] => match needed with O => [] | S _ => replacement end
    | b :: rest =>
        let fresh (_ : unit) :=
          match utf8_classify (code b) with
          | LeadAscii => b :: utf8_decode_lossy 0 0 0 [] rest
          | LeadMulti n l h => utf8_decode_lossy n l h [b] rest
          | LeadInvalid => replacement ++ utf8_decode_lossy 0 0 0 [] rest
          end in
        match needed with
        | O => fresh tt
        | S n' =>
            if between lo hi (code b) then
              match n' with
              | O => pend ++ b :: utf8_decode_lossy 0 0 0 [] rest
              | S _ => utf8_decode_lossy n' 0x80 0xBF (pend ++ [b]) rest
              end
            else replacement ++ fresh tt
        end
    end.

  (** UTF-8 encoding of a code point (surrogates included, as three bytes). *)
Definition utf8_encode (cp : N) : list ascii :=
    if N.ltb cp 0x80 then [chr cp]
    else if N.ltb cp 0x800 then
      [chr (0xC0 + N.shiftr cp 6); chr (0x80 + N.land cp 0x3F)]
    else if N.ltb cp 0x10000 then
      [chr (0xE0 + N.shiftr cp 12); chr (0x80 + N.land (N.shiftr cp 6) 0x3F);
       chr (0x80 + N.land cp 0x3F)]
    else
      [chr (0xF0 + N.shiftr cp 18); chr (0x80 + N.land (N.shiftr cp 12) 0x3F);
       chr (0x80 + N.land (N.shiftr cp 6) 0x3F); chr (0x80 + N.land cp 0x3F)].

End Bytes.

(** ** encodeURIComponent, decodeURIComponent, URLSearchParams *)

Module Uri.
Import Bytes.

Definition unreserved (c : ascii) : bool :=
    let n := code c in
    between 48 57 n || between 65 90 n || between 97 122 n
    || existsb (Ascii.eqb c) (JsString.chars "-_.!~*'()").

  (** [encodeURIComponent(s)] *)
Definition encodeURIComponent (s : string) : string :=
    JsString.of_chars
      (flat_map (fun c =>
         if unreserved c then [c]
         else ["%"%char; hex_digit (N.shiftr (code c) 4);
               hex_digit (N.land (code c) 15)])
        (JsString.chars s)).

Inductive token := Raw (c : ascii) | Escaped (b : N).

  (** The escapes of a string; [None] where a [%] is not followed by two
      hexadecimal digits. *)
Fixpoint tokens (s : list ascii) : option (list token) :=
    match s with
    | [] => Some []
    | c :: rest =>
        if Ascii.eqb c "%" then
          match rest with
          | h1 :: h2 :: rest' =>
              match hex_value h1, hex_value h2 with
              | Some a, Some b =>
                  option_map (cons (Escaped (16 * a + b)%N)) (tokens rest')
              | _, _ => None
              end
          | _ => None
          end
        else option_map (cons (Raw c)) (tokens rest)
    end.

  (** The escaped bytes must spell well-formed UTF-8, each multi-byte
      character wholly in escapes. *)
Fixpoint assemble (needed : nat) (lo hi : N) (ts : list token)
    : option (list ascii) :=
    match ts with
    | [] => match needed with O => Some [] | S _ => None end
    | Raw c :: rest =>
        match needed with
        | O => option_map (cons c) (assemble 0 0 0 rest)
        | S _ => None
        end
    | Escaped b :: rest =>
        match needed with
        | O =>
            match utf8_classify b with
            | LeadAscii => option_map (cons (chr b)) (assemble 0 0 0 rest)
            | LeadMulti n l h => option_map (cons (chr b)) (assemble n l h rest)
            | LeadInvalid => None
            end
        | S n' =>
            if between lo hi b
            then option_map (cons (chr b)) (assemble n' 0x80 0xBF rest)
            else None
        end
    end.

  (** [decodeURIComponent(s)]; [None] when it throws URIError. *)
Definition decodeURIComponent (s : string) : option string :=
    match tokens (JsString.chars s) with
    | None => None
    | Some ts => option_map JsString.of_chars (assemble 0 0 0 ts)
    end.

  (** Percent-decoding of the URL standard: a [%] that starts no escape
      stands for itself. *)
Fixpoint percent_decode (s : list ascii) : list ascii :=
    match s with
    | [] => []
    | c :: rest =>
        if Ascii.eqb c "%" then
          match rest with
          | h1 :: h2 :: rest' =>
              match hex_value h1, hex_value h2 with
              | Some a, Some b => chr (16 * a + b) :: percent_decode rest'
              | _, _ => c :: percent_decode rest
              end
          | _ => c :: percent_decode rest
          end
        else c :: percent_decode rest
    end.

Definition plus_to_space (c : ascii) : ascii :=
    if Ascii.eqb c "+" then " "%char else c.

Definition form_decode (s : string) : string :=
    JsString.of_chars
      (utf8_decode_lossy 0 0 0 []
         (percent_decode (map plus_to_space (JsString.chars s)))).

  (** Name and value of one [name=value] piece: split at the first [=]. *)
Fixpoint cut_at (sep : ascii) (s : string) : string * string :=
    match s with
    | EmptyString => (EmptyString, EmptyString)
    | String c s' =>
        if Ascii.eqb c sep then (EmptyString, s')
        else let '(a, b) := cut_at sep s' in (String c a, b)
    end.

  (** [new URLSearchParams(init)]: the list of pairs. *)
Definition URLSearchParams (init : string) : list (string * string) :=
    let body := match init with
                | String c s' => if Ascii.eqb c "?" then s' else init
                | EmptyString => init
                end in
    map (fun piece => let '(n, v) := cut_at "=" piece in
                      (form_decode n, form_decode v))
        (filter (fun piece => JsString.truthy piece = true)
                (JsString.split "&" body)).

  (** [params.get(name)]: the first value of that name, or null. *)
Fixpoint get (name : string) (params : list (string * string)) : option string :=
    match params with
    | [] => None
    | (n, v) :: rest => if String.eqb n name then Some v else get name rest
    end.

End Uri.

(** ** JSON *)

#[warnings="-register-all"]
Inductive json :=
| JNull
| JBool (b : bool)
| JNumber (n : number)
| JString (s : string)
| JArray (items : list json)
| JObject (members : list (string * json)).

Module Json.
Import Bytes.

  (** [o[key]] on a parsed object: the last member of that name wins, as
      [JSON.parse] builds the object by successive definition.  [None] is
      [undefined]. *)
Fixpoint member (key : string) (members : list (string * json)) : option json :=
    match members with
    | [] => None
    | (k, v) :: rest =>
        match member key rest with
        | Some v' => Some v'
        | None => if String.eqb k key then Some v else None
        end
    end.

Definition is_ws (c : ascii) : bool :=
    existsb (N.eqb (code c)) [32; 9; 10; 13]%N.

Fixpoint skip_ws (s : list ascii) : list ascii :=
    match s with
    | c :: rest => if is_ws c then skip_ws rest else s
    | [] => []
    end.

Fixpoint strip_prefix (p s : list ascii) : option (list ascii) :=
    match p, s with
    | [], _ => Some s
    | a :: p', b :: s' => if Ascii.eqb a b then strip_prefix p' s' else None
    | _ :: _, [] => None
    end.

Definition hex4 (a b c d : ascii) : option N :=
    match hex_value a, hex_value b, hex_value c, hex_value d with
    | Some w, Some x, Some y, Some z => Some (4096 * w + 256 * x + 16 * y + z)%N
    | _, _, _, _ => None
    end.

  (** The characters of a string literal after its opening quote, and the
      input after its closing quote. *)
Fixpoint string_body (s : list ascii) : option (list ascii * list ascii) :=
    let emit (bs : list ascii) (r : option (list ascii * list ascii)) :=
      match r with
      | Some (body, rest) => Some (bs ++ body, rest)
      | None => None
      end in
    match s with
    | [] => None
    | c :: rest =>
        if Ascii.eqb c dquote then Some ([], rest)
        else if Ascii.eqb c "\" then
          match rest with
          | e :: rest1 =>
              if Ascii.eqb e "u" then
                match rest1 with
                | h1 :: h2 :: h3 :: h4 :: rest2 =>
                    match hex4 h1 h2 h3 h4 with
                    | None => None
                    | Some hi =>
                        let single (_ : unit) :=
                          emit (utf8_encode hi) (string_body rest2) in
                        if between 0xD800 0xDBFF hi then
                          match rest2 with
                          | b1 :: b2 :: l1 :: l2 :: l3 :: l4 :: rest3 =>
                              match hex4 l1 l2 l3 l4 with
                              | Some lo =>
                                  if Ascii.eqb b1 "\" && Ascii.eqb b2 "u"
                                     && between 0xDC00 0xDFFF lo
                                  then emit (utf8_encode
                                               (0x10000 + 1024 * (hi - 0xD800)
                                                + (lo - 0xDC00))%N)
                                            (string_body rest3)
                                  else single tt
                              | None => single tt
                              end
                          | _ => single tt
                          end
                        else single tt
                    end
                | _ => None
                end
              else
                let simple (b : N) := emit [chr b] (string_body rest1) in
                if Ascii.eqb e dquote then simple 34%N
                else if Ascii.eqb e "\" then simple 92%N
                else if Ascii.eqb e "/" then simple 47%N
                else if Ascii.eqb e "b" then simple 8%N
                else if Ascii.eqb e "f" then simple 12%N
                else if Ascii.eqb e "n" then simple 10%N
                else if Ascii.eqb e "r" then simple 13%N
                else if Ascii.eqb e "t" then simple 9%N
                else None
          | [] => None
          end
        else if N.ltb (code c) 32 then None
        else emit [c] (string_body rest)
    end.

Fixpoint digits (s : list ascii) : list ascii * list ascii :=
    match s with
    | c :: rest =>
        if is_digit c then let '(ds, r) := digits rest in (c :: ds, r)
        else ([], s)
    | [] => ([], [])
    end.

Definition digits_value (ds : list ascii) : Z :=
    fold_left (fun acc c => 10 * acc + Z.of_N (code c - 48)) ds 0.

  (** A number literal: [-]? int frac? exp? *)
Definition number_literal (s : list ascii) : option (number * list ascii) :=
    let '(neg, s1) := match s with
                      | c :: r => if Ascii.eqb c "-" then (true, r) else (false, s)
                      | [] => (false, s)
                      end in
    let '(ip, s2) := digits s1 in
    let int_ok := match ip with
                  | [] => false
                  | [_] => true
                  | c :: _ => negb (Ascii.eqb c "0")
                  end in
    if negb int_ok then None else
    let frac := match s2 with
                | c :: r =>
                    if Ascii.eqb c "." then
                      let '(fp, s3) := digits r in
                      match fp with [] => None | _ => Some (fp, s3) end
                    else Some ([], s2)
                | [] => Some ([], s2)
                end in
    match frac with
    | None => None
    | Some (fp, s3) =>
        let exp := match s3 with
                   | c :: r =>
                       if Ascii.eqb c "e" || Ascii.eqb c "E" then
                         let '(sgn, r1) :=
                           match r with
                           | d :: r' => if Ascii.eqb d "-" then (-1, r')
                                        else if Ascii.eqb d "+" then (1, r')
                                        else (1, r)
                           | [] => (1, r)
                           end in
                         let '(ep, s4) := digits r1 in
                         match ep with
                         | [] => None
                         | _ => Some (sgn * digits_value ep, s4)
                         end
                       else Some (0, s3)
                   | [] => Some (0, s3)
                   end in
        match exp with
        | None => None
        | Some (e, s4) =>
            let m := digits_value (ip ++ fp) in
            Some (decimal (if neg then - m else m) (e - Z.of_nat (length fp)), s4)
        end
    end.

  (** One value, and what follows it. [array_rest] and [object_rest] read
      what follows an opening bracket or a comma. *)
Fixpoint value (fuel : nat) (s : list ascii) : option (json * list ascii) :=
    match fuel with
    | O => None
    | S fuel' =>
        let array_rest :=
          fix array_rest (n : nat) (acc : list json) (s : list ascii) :=
            match n with
            | O => None
            | S n' =>
                match value fuel' s with
                | None => None
                | Some (v, r) =>
                    match skip_ws r with
                    | c :: r' =>
                        if Ascii.eqb c "," then array_rest n' (acc ++ [v]) r'
                        else if Ascii.eqb c "]" then Some (JArray (acc ++ [v]), r')
                        else None
                    | [] => None
                    end
                end
            end in
        let object_rest :=
          fix object_rest (n : nat) (acc : list (string * json)) (s : list ascii) :=
            match n with
            | O => None
            | S n' =>
                match skip_ws s with
                | q :: r0 =>
                    if negb (Ascii.eqb q dquote) then None else
                    match string_body r0 with
                    | None => None
                    | Some (k, r1) =>
                        match skip_ws r1 with
                        | c :: r2 =>
                            if negb (Ascii.eqb c ":") then None else
                            match value fuel' r2 with
                            | None => None
                            | Some (v, r3) =>
                                let acc' := acc ++ [(JsString.of_chars k, v)] in
                                match skip_ws r3 with
                                | d :: r4 =>
                                    if Ascii.eqb d "," then object_rest n' acc' r4
                                    else if Ascii.eqb d "}" then Some (JObject acc', r4)
                                    else None
                                | [] => None
                                end
                            end
                        | [] => None
                        end
                    end
                | [] => None
                end
            end in
        match skip_ws s with
        | [] => None
        | c :: r =>
            if Ascii.eqb c "[" then
              match skip_ws r with
              | d :: r' => if Ascii.eqb d "]" then Some (JArray [], r')
                           else array_rest (length r) [] r
              | [] => None
              end
            else if Ascii.eqb c "{" then
              match skip_ws r with
              | d :: r' => if Ascii.eqb d "}" then Some (JObject [], r')
                           else object_rest (length r) [] r
              | [] => None
              end
            else if Ascii.eqb c dquote then
              match string_body r with
              | Some (body, r') => Some (JString (JsString.of_chars body), r')
              | None => None
              end
            else
              match strip_prefix (JsString.chars "true") (c :: r),
                    strip_prefix (JsString.chars "false") (c :: r),
                    strip_prefix (JsString.chars "null") (c :: r) with
              | Some r', _, _ => Some (JBool true, r')
              | _, Some r', _ => Some (JBool false, r')
              | _, _, Some r' => Some (JNull, r')
              | None, None, None =>
                  match number_literal (c :: r) with
                  | Some (n, r') => Some (JNumber n, r')
                  | None => None
                  end
              end
        end
    end.

  (** [JSON.parse(text)]; [None] when it throws SyntaxError.  A value nests
      no deeper than it has characters, which bounds the recursion. *)
Definition parse (text : string) : option json :=
    let s := JsString.chars text in
    match value (S (length s)) s with
    | Some (v, rest) => match skip_ws rest with [] => Some v | _ :: _ => None end
    | None => None
    end.

Definition quote (s : string) : string :=
    JsString.of_chars
      ((dquote :: flat_map (fun c =>
          if Ascii.eqb c dquote then ["\"%char; dquote]
          else if Ascii.eqb c "\" then ["\"; "\"]%char
          else if N.ltb (code c) 32 then
            ["\"; "u"; "0"; "0"; hex_digit (N.shiftr (code c) 4);
             hex_digit (N.land (code c) 15)]%char
          else [c]) (JsString.chars s)) ++ [dquote]).

Definition number_text (n : number) : string :=
    if Z.eqb (exponent n) 0 then pretty (mantissa n)
    else pretty (mantissa n) +:+ "e" +:+ pretty (exponent n).

Definition join (sep : string) (l : list string) : string :=
    match l with
    | [] => EmptyString
    | x :: xs => fold_left (fun acc y => acc +:+ sep +:+ y) xs x
    end.

  (** [JSON.stringify(v)], up to the spelling of numbers and of control
      characters (a text that parses to the same value). *)
Fixpoint stringify (v : json) : string :=
    match v with
    | JNull => "null"
    | JBool true => "true"
    | JBool false => "false"
    | JNumber n => number_text n
    | JString s => quote s
    | JArray items => "[" +:+ join "," (map stringify items) +:+ "]"
    | JObject members =>
        "{" +:+ join "," (map (fun kv => quote (fst kv) +:+ ":" +:+ stringify (snd kv))
                              members) +:+ "}"
    end.

End Json.

(** ** Results of code that may throw *)

Inductive outcome (A : Type) :=
| Returned (a : A)
| Thrown.
Arguments Returned {A} a.
Arguments Thrown {A}.

#[global] Instance outcome_ret : MRet outcome := fun A a => Returned a.
#[global] Instance outcome_bind : MBind outcome := fun A B k m =>
  match m with
  | Returned a => k a
  | Thrown => Thrown
  end.

(** ** Property reads on parsed JSON *)

Module JsValue.

  (** [v?.key] for a key that no built-in prototype defines (every key this
      module reads is one): the member on an object, [undefined] (that is
      [None]) on anything else, [undefined] and [null] included. *)
Definition get_opt (key : string) (v : option json) : option json :=
    match v with
    | Some (JObject members) => Json.member key members
    | _ => None
    end.

  (** [v.key]: as [v?.key], but throws TypeError on [null]. *)
Definition get (key : string) (v : json) : outcome (option json) :=
    match v with
    | JNull => Thrown
    | _ => Returned (get_opt key (Some v))
    end.

  (** [Boolean(v)] *)
Definition truthy (v : option json) : bool :=
    match v with
    | None | Some JNull | Some (JBool false) => false
    | Some (JNumber n) => negb (Z.eqb (mantissa n) 0)
    | Some (JString s) => JsString.truthy s
    | Some (JBool true) | Some (JArray _) | Some (JObject _) => true
    end.

  (** [typeof v] *)
Definition typeof (v : option json) : string :=
    match v with
    | None => "undefined"
    | Some JNull | Some (JArray _) | Some (JObject _) => "object"
    | Some (JBool _) => "boolean"
    | Some (JNumber _) => "number"
    | Some (JString _) => "string"
    end.

  (** [Array.isArray(v)] *)
Definition isArray (v : option json) : bool :=
    match v with Some (JArray _) => true | _ => false end.

End JsValue.

(* ====================================================================== *)
(** * Title of a tab *)
(* ====================================================================== *)

Definition routeTitles : list (string * string) :=
  [("/", "Overview"); ("/favorites", "Favorites"); ("/recents", "Recents");
   ("/file-kinds", "File Kinds"); ("/search", "Search"); ("/jobs", "Jobs");
   ("/daemon", "Daemon")]%string.

(** [routeTitles[pathname]], read on the table's own keys.  The pathnames
    of the router start with a slash, and no inherited member name does;
    at the name of a member the object literal inherits ("constructor",
    "toString", ...) the code reads that member, which is no string, and
    such a pathname is outside this embedding. *)
Fixpoint routeTitles_get (table : list (string * string)) (pathname : string)
  : option string :=
  match table with
  | [] => None
  | (k, v) :: rest =>
      if String.eqb k pathname then Some v else routeTitles_get rest pathname
  end.

(** [xs[xs.length - 1]] *)
Definition last_item (xs : list string) : option string := last xs.

(** The [try] block of the explorer branch.  [Returned (Some t)] is
    [return t]; [Returned None] leaves the block without returning. *)
Definition explorer_path_title (pathParam : string) : outcome (option string) :=
  match Uri.decodeURIComponent pathParam with
  | None => Thrown
  | Some text =>
      match Json.parse text with
      | None => Thrown
      | Some sdPath =>
          let path := JsValue.get_opt "path" (JsValue.get_opt "Physical" (Some sdPath)) in
          if JsValue.truthy path then
            match path with
            | Some (JString fullPath) =>
                let parts := List.filter JsString.truthy (JsString.split "/" fullPath) in
                match last_item parts with
                | Some p => if JsString.truthy p then Returned (Some p)
                            else Returned (Some "Explorer"%string)
                | None => Returned (Some "Explorer"%string)
                end
            | _ => Thrown (* fullPath.split is not a function *)
            end
          else Returned None
      end
  end.

(** [if (routeTitles[pathname])]: the entry, when there is one and it is
    truthy. *)
Definition routeTitles_hit (pathname : string) : option string :=
  match routeTitles_get routeTitles pathname with
  | Some title => if JsString.truthy title then Some title else None
  | None => None
  end.

Definition deriveTitleFromPath (pathname search : string) : string :=
  match routeTitles_hit pathname with
  | Some title => title
  | None =>
      if JsString.startsWith "/tag/" pathname then
        match nth_error (JsString.split "/" pathname) 2 with
        | Some tagId =>
            if JsString.truthy tagId
            then "Tag: " +:+ JsString.slice0 8 tagId +:+ "..."
            else "Tag"
        | None => "Tag"
        end
      else if JsString.eq pathname "/explorer" && JsString.truthy search then
        let params := Uri.URLSearchParams search in
        match Uri.get "view" params with
        | Some "device"%string => "This Device"
        | _ =>
            match Uri.get "path" params with
            | Some pathParam =>
                if JsString.truthy pathParam then
                  match explorer_path_title pathParam with
                  | Returned (Some title) => title
                  | Returned None | Thrown => "Explorer"
                  end
                else "Explorer"
            | None => "Explorer"
            end
        end
      else "Spacedrive"
  end%string.

(* ====================================================================== *)
(** * Types *)
(* ====================================================================== *)

Inductive ViewMode := ViewGrid | ViewList | ViewColumn | ViewMedia | ViewSize.

Inductive SortBy :=
| SortName | SortSize | SortDateModified | SortDateCreated | SortKind.

Record Tab := {
  id : string;
  title : string;
  icon : option string;
  isPinned : bool;
  lastActive : number;
  savedPath : string
}.

Module Transform.
Record t := { k : number; x : number; y : number }.
End Transform.

(** All explorer-related state for a single tab. *)
Record TabExplorerState := {
  viewMode : ViewMode;
  sortBy : SortBy;
  gridSize : number;
  gapSize : number;
  foldersFirst : bool;
  columnStack : list string;
  scrollTop : number;
  scrollLeft : number;
  sizeViewTransform : Transform.t
}.

(** [Partial<TabExplorerState>]: [None] is a key the object does not have. *)
Module Partial.
Record t := {
    viewMode : option ViewMode;
    sortBy : option SortBy;
    gridSize : option number;
    gapSize : option number;
    foldersFirst : option bool;
    columnStack : option (list string);
    scrollTop : option number;
    scrollLeft : option number;
    sizeViewTransform : option Transform.t
  }.

Definition empty : t :=
    {| viewMode := None; sortBy := None; gridSize := None; gapSize := None;
       foldersFirst := None; columnStack := None; scrollTop := None;
       scrollLeft := None; sizeViewTransform := None |}.
End Partial.

(** Default explorer state for new tabs *)
Definition DEFAULT_EXPLORER_STATE : TabExplorerState :=
  {| viewMode := ViewGrid;
     sortBy := SortName;
     gridSize := int 120;
     gapSize := int 16;
     foldersFirst := true;
     columnStack := [];
     scrollTop := int 0;
     scrollLeft := int 0;
     sizeViewTransform := {| Transform.k := int 1; Transform.x := int 0;
                             Transform.y := int 0 |} |}.

(** [{...current, ...updates}] *)
Definition spread (current : TabExplorerState) (updates : Partial.t)
  : TabExplorerState :=
  {| viewMode := default (viewMode current) (Partial.viewMode updates);
     sortBy := default (sortBy current) (Partial.sortBy updates);
     gridSize := default (gridSize current) (Partial.gridSize updates);
     gapSize := default (gapSize current) (Partial.gapSize updates);
     foldersFirst := default (foldersFirst current) (Partial.foldersFirst updates);
     columnStack := default (columnStack current) (Partial.columnStack updates);
     scrollTop := default (scrollTop current) (Partial.scrollTop updates);
     scrollLeft := default (scrollLeft current) (Partial.scrollLeft updates);
     sizeViewTransform :=
       default (sizeViewTransform current) (Partial.sizeViewTransform updates) |}.

(* ====================================================================== *)
(** * External explorer state store *)
(* ====================================================================== *)

(** A listener is a function object; the store sees its identity only.
    [states] is the [Map], [listeners] the [Set] in insertion order. *)
Definition ExplorerStateListener := nat.

Record ExplorerStateStore := {
  states : gmap string TabExplorerState;
  listeners : list ExplorerStateListener
}.

(** One invocation [l(tabId)] of a listener. *)
Definition call : Type := ExplorerStateListener * string.

Module Store.

  (** [new ExplorerStateStore()] *)
Definition new : ExplorerStateStore := {| states := ∅; listeners := [] |}.

Definition getState (tabId : string) (s : ExplorerStateStore) : TabExplorerState :=
    default DEFAULT_EXPLORER_STATE (states s !! tabId).

  (** [this.listeners.forEach((l) => l(tabId))]; the listeners of this
      module call back into React and leave the set alone. *)
Definition notifyListeners (tabId : string) (s : ExplorerStateStore) : list call :=
    map (fun l => (l, tabId)) (listeners s).

Definition setState (tabId : string) (state : TabExplorerState)
      (s : ExplorerStateStore) : ExplorerStateStore * list call :=
    let s' := {| states := <[tabId := state]> (states s); listeners := listeners s |} in
    (s', notifyListeners tabId s').

Definition updateState (tabId : string) (updates : Partial.t)
      (s : ExplorerStateStore) : ExplorerStateStore * list call :=
    let current := default DEFAULT_EXPLORER_STATE (states s !! tabId) in
    let s' := {| states := <[tabId := spread current updates]> (states s);
                 listeners := listeners s |} in
    (s', notifyListeners tabId s').

Definition deleteState (tabId : string) (s : ExplorerStateStore)
    : ExplorerStateStore * list call :=
    let s' := {| states := delete tabId (states s); listeners := listeners s |} in
    (s', notifyListeners tabId s').

Definition getAllStates (s : ExplorerStateStore) : gmap string TabExplorerState :=
    states s.

Definition loadFromRecord (record : gmap string TabExplorerState)
      (s : ExplorerStateStore) : ExplorerStateStore * list call :=
    let s' := {| states := record; listeners := listeners s |} in
    (s', map (fun l => (l, EmptyString)) (listeners s')).

  (** [this.listeners.add(listener)]: a set holds a member once. *)
Definition subscribe (listener : ExplorerStateListener) (s : ExplorerStateStore)
    : ExplorerStateStore :=
    {| states := states s;
       listeners := if existsb (Nat.eqb listener) (listeners s)
                    then listeners s else listeners s ++ [listener] |}.

  (** The function [subscribe] returns: [this.listeners.delete(listener)]. *)
Definition unsubscribe (listener : ExplorerStateListener) (s : ExplorerStateStore)
    : ExplorerStateStore :=
    {| states := states s;
       listeners := List.filter (fun l => negb (Nat.eqb listener l)) (listeners s) |}.

End Store.

(** The listener that [useTabExplorerState(tabId)] subscribes: how many
    times one invocation with [changedTabId] calls React's [callback]. *)
Definition useTabExplorerState_listener (tabId changedTabId : string) : nat :=
  if JsString.eq changedTabId "" || JsString.eq changedTabId tabId then 1%nat else 0%nat.

(** [callback] invocations that a trace of listener calls causes through
    the listener [l] of a consumer bound to [tabId]. *)
Definition callback_invocations (l : ExplorerStateListener) (tabId : string)
    (trace : list call) : nat :=
  list_sum (map (fun c : call =>
                   if Nat.eqb (fst c) l
                   then useTabExplorerState_listener tabId (snd c) else 0%nat)
                trace).

(** The value [useSyncExternalStore] reads: [explorerStateStore.getState(tabId)]. *)
Definition useTabExplorerState (tabId : string) (s : ExplorerStateStore)
  : TabExplorerState := Store.getState tabId s.

(* ====================================================================== *)
(** * Persistence *)
(* ====================================================================== *)

(** What [localStorage.getItem(STORAGE_KEY)] does: throw (storage
    unavailable), or return the stored string or [null]. *)
Inductive storage_read :=
| ReadThrows
| ReadValue (stored : option string).

(** The body of the [try] block of [loadPersistedState]. *)
Definition loadPersistedState_try (r : storage_read) : outcome (option json) :=
  match r with
  | ReadThrows => Thrown
  | ReadValue None => Returned None
  | ReadValue (Some stored) =>
      if negb (JsString.truthy stored) then Returned None
      else
        match Json.parse stored with
        | None => Thrown
        | Some parsed =>
            tabs ← JsValue.get "tabs" parsed;
            if negb (JsValue.isArray tabs) then Returned None
            else
              activeTabId ← JsValue.get "activeTabId" parsed;
              if negb (String.eqb (JsValue.typeof activeTabId) "string")
              then Returned None
              else
                explorerStates ← JsValue.get "explorerStates" parsed;
                if negb (String.eqb (JsValue.typeof explorerStates) "object")
                then Returned None
                else Returned (Some parsed)
        end
  end.

(** [loadPersistedState()]: [None] is [null]. *)
Definition loadPersistedState (r : storage_read) : option json :=
  match loadPersistedState_try r with
  | Returned v => v
  | Thrown => None
  end.

(** The snapshot as the provider reads it.  [explorerStates] may be [null]
    ([None]) and [defaultNewTabPath] absent ([None]): the provider tests
    both. *)
Module Persisted.
Record t := {
    tabs : list Tab;
    activeTabId : string;
    explorerStates : option (gmap string TabExplorerState);
    defaultNewTabPath : option string
  }.
End Persisted.

(** The cast [as PersistedState] checks nothing.  [as_PersistedState] reads
    a parsed value at the declared types; it is [None] on a value that is
    not of those types, which the typed operations below do not cover. *)
Module Cast.

Definition string_of (v : option json) : option string :=
    match v with Some (JString s) => Some s | _ => None end.

Definition number_of (v : option json) : option number :=
    match v with Some (JNumber n) => Some n | _ => None end.

Definition bool_of (v : option json) : option bool :=
    match v with Some (JBool b) => Some b | _ => None end.

Definition nullable_string_of (v : option json) : option (option string) :=
    match v with
    | Some JNull => Some None
    | Some (JString s) => Some (Some s)
    | _ => None
    end.

Definition strings_of (v : option json) : option (list string) :=
    match v with
    | Some (JArray items) => mapM (fun i => string_of (Some i)) items
    | _ => None
    end.

Definition tab_of (v : json) : option Tab :=
    let f key := JsValue.get_opt key (Some v) in
    i ← string_of (f "id");
    t ← string_of (f "title");
    ic ← nullable_string_of (f "icon");
    p ← bool_of (f "isPinned");
    la ← number_of (f "lastActive");
    sp ← string_of (f "savedPath");
    Some {| id := i; title := t; icon := ic; isPinned := p; lastActive := la;
            savedPath := sp |}.

Definition viewMode_of (v : option json) : option ViewMode :=
    s ← string_of v;
    if String.eqb s "grid" then Some ViewGrid
    else if String.eqb s "list" then Some ViewList
    else if String.eqb s "column" then Some ViewColumn
    else if String.eqb s "media" then Some ViewMedia
    else if String.eqb s "size" then Some ViewSize
    else None.

Definition sortBy_of (v : option json) : option SortBy :=
    s ← string_of v;
    if String.eqb s "name" then Some SortName
    else if String.eqb s "size" then Some SortSize
    else if String.eqb s "date_modified" then Some SortDateModified
    else if String.eqb s "date_created" then Some SortDateCreated
    else if String.eqb s "kind" then Some SortKind
    else None.

Definition transform_of (v : option json) : option Transform.t :=
    let f key := JsValue.get_opt key v in
    a ← number_of (f "k");
    b ← number_of (f "x");
    c ← number_of (f "y");
    Some {| Transform.k := a; Transform.x := b; Transform.y := c |}.

Definition explorerState_of (v : json) : option TabExplorerState :=
    let f key := JsValue.get_opt key (Some v) in
    vm ← viewMode_of (f "viewMode");
    sb ← sortBy_of (f "sortBy");
    gs ← number_of (f "gridSize");
    gp ← number_of (f "gapSize");
    ff ← bool_of (f "foldersFirst");
    cs ← strings_of (f "columnStack");
    st ← number_of (f "scrollTop");
    sl ← number_of (f "scrollLeft");
    tr ← transform_of (f "sizeViewTransform");
    Some {| viewMode := vm; sortBy := sb; gridSize := gs; gapSize := gp;
            foldersFirst := ff; columnStack := cs; scrollTop := st;
            scrollLeft := sl; sizeViewTransform := tr |}.

Definition explorerStates_of (v : option json)
    : option (option (gmap string TabExplorerState)) :=
    match v with
    | Some JNull => Some None
    | Some (JObject members) =>
        entries ← mapM (fun kv : string * json =>
                          st ← explorerState_of (snd kv); Some (fst kv, st))
                       members;
        Some (Some (list_to_map (reverse entries)))
    | _ => None
    end.

Definition defaultNewTabPath_of (v : option json) : option (option string) :=
    match v with
    | None | Some JNull => Some None
    | Some (JString s) => Some (Some s)
    | _ => None
    end.

Definition as_PersistedState (parsed : json) : option Persisted.t :=
    let f key := JsValue.get_opt key (Some parsed) in
    ts ← match f "tabs" with
         | Some (JArray items) => mapM tab_of items
         | _ => None
         end;
    a ← string_of (f "activeTabId");
    es ← explorerStates_of (f "explorerStates");
    d ← defaultNewTabPath_of (f "defaultNewTabPath");
    Some {| Persisted.tabs := ts; Persisted.activeTabId := a;
            Persisted.explorerStates := es; Persisted.defaultNewTabPath := d |}.

End Cast.

(* ====================================================================== *)
(** * Provider *)
(* ====================================================================== *)

(** The state of [TabManagerProvider]: its four [useState] cells, the
    module-level [explorerStateStore], and the listener calls made so far. *)
Record TabManager := {
  tabs : list Tab;
  activeTabId : string;
  selectionStates : gmap string (list string);
  defaultNewTabPath : string;
  explorerStateStore : ExplorerStateStore;
  delivered : list call
}.

(** ** Arrays *)

(** [xs[i]] for an integer [i]; [None] is [undefined]. *)
Definition item {A : Type} (xs : list A) (i : Z) : option A :=
  if i <? 0 then None else nth_error xs (Z.to_nat i).

(** [xs.findIndex(p)]: -1 when no element satisfies [p]. *)
Fixpoint findIndex {A : Type} (p : A -> bool) (xs : list A) : Z :=
  match xs with
  | [] => -1
  | a :: rest =>
      if p a then 0
      else let i := findIndex p rest in if i <? 0 then -1 else i + 1
  end.

(** What [xs.splice(i, 1)] leaves in [xs], and what it returns, for
    [0 <= i]. *)
Definition splice_out {A : Type} (i : Z) (xs : list A) : list A * list A :=
  (take (Z.to_nat i) xs ++ drop (S (Z.to_nat i)) xs,
   take 1 (drop (Z.to_nat i) xs)).

(** What [xs.splice(i, 0, a)] leaves in [xs], for [0 <= i]. *)
Definition splice_in {A : Type} (i : Z) (a : A) (xs : list A) : list A :=
  take (Z.to_nat i) xs ++ a :: drop (Z.to_nat i) xs.

Definition has_id (tabId : string) (t : Tab) : bool := JsString.eq (id t) tabId.

(** ** Initial state *)

Definition initial_tab (initialTabId : string) (now : number) : Tab :=
  {| id := initialTabId; title := "Overview"; icon := None; isPinned := false;
     lastActive := now; savedPath := "/" |}.

(** The initializer of the [tabs] cell. *)
Definition initial_tabs (persisted : option Persisted.t)
    (initialTabId : string) (now : number) : list Tab :=
  match persisted with
  | Some p =>
      if (0 <? Z.of_nat (length (Persisted.tabs p)))
      then Persisted.tabs p
      else [initial_tab initialTabId now]
  | None => [initial_tab initialTabId now]
  end.

(** [tabs[0].id] *)
Definition first_id (ts : list Tab) : outcome string :=
  match item ts 0 with
  | Some t => Returned (id t)
  | None => Thrown
  end.

(** The initializer of the [activeTabId] cell. *)
Definition initial_activeTabId (persisted : option Persisted.t) (ts : list Tab)
  : outcome string :=
  match persisted with
  | Some p =>
      if JsString.truthy (Persisted.activeTabId p)
         && existsb (has_id (Persisted.activeTabId p)) (Persisted.tabs p)
      then Returned (Persisted.activeTabId p)
      else first_id ts
  | None => first_id ts
  end.

(** The mount effect that fills the explorer state store. *)
Definition initial_store (persisted : option Persisted.t) (ts : list Tab)
    (store : ExplorerStateStore) : outcome (ExplorerStateStore * list call) :=
  match persisted with
  | Some {| Persisted.explorerStates := Some record |} =>
      Returned (Store.loadFromRecord record store)
  | _ => i ← first_id ts; Returned (Store.setState i DEFAULT_EXPLORER_STATE store)
  end.

Definition initial_defaultNewTabPath (persisted : option Persisted.t) : string :=
  match persisted with
  | Some {| Persisted.defaultNewTabPath := Some path |} => path
  | _ => "/"
  end.

(** The first render and mount of the provider, over the store as the
    module and the components mounted below left it. *)
Definition TabManagerProvider (persisted : option Persisted.t)
    (initialTabId : string) (now : number) (store : ExplorerStateStore)
  : outcome TabManager :=
  let ts := initial_tabs persisted initialTabId now in
  active ← initial_activeTabId persisted ts;
  first ← first_id ts;
  '(store', calls) ← initial_store persisted ts store;
  Returned {| tabs := ts;
              activeTabId := active;
              selectionStates := {[ first := [] ]};
              defaultNewTabPath := initial_defaultNewTabPath persisted;
              explorerStateStore := store';
              delivered := calls |}.

(** The provider over what the storage holds.  [None] where the accepted
    snapshot is not of the declared types (see [Cast]). *)
Definition startup (r : storage_read) (initialTabId : string) (now : number)
    (store : ExplorerStateStore) : option (outcome TabManager) :=
  match loadPersistedState r with
  | None => Some (TabManagerProvider None initialTabId now store)
  | Some parsed =>
      match Cast.as_PersistedState parsed with
      | Some p => Some (TabManagerProvider (Some p) initialTabId now store)
      | None => None
      end
  end.

(** ** Tab management *)

Definition setDefaultNewTabPath (path : string) (st : TabManager) : TabManager :=
  {| tabs := tabs st; activeTabId := activeTabId st;
     selectionStates := selectionStates st; defaultNewTabPath := path;
     explorerStateStore := explorerStateStore st; delivered := delivered st |}.

(** [title || deriveTitleFromPath(pathname, search ? `?${search}` : '')] *)
Definition derivedTitle (title : option string) (tabPath : string) : string :=
  let pieces := JsString.split "?" tabPath in
  let pathname := default EmptyString (nth_error pieces 0) in
  let search := default EmptyString (nth_error pieces 1) in
  match title with
  | Some t =>
      if JsString.truthy t then t
      else deriveTitleFromPath pathname
             (if JsString.truthy search then "?" +:+ search else "")
  | None => deriveTitleFromPath pathname
              (if JsString.truthy search then "?" +:+ search else "")
  end.

Definition createTab (title path : option string) (uuid : string) (now : number)
    (st : TabManager) : TabManager :=
  let tabPath := default (defaultNewTabPath st) path in
  let newTab := {| id := uuid; title := derivedTitle title tabPath; icon := None;
                   isPinned := false; lastActive := now; savedPath := tabPath |} in
  let '(store', calls) :=
    Store.setState (id newTab) DEFAULT_EXPLORER_STATE (explorerStateStore st) in
  {| tabs := tabs st ++ [newTab];
     activeTabId := id newTab;
     selectionStates := <[id newTab := []]> (selectionStates st);
     defaultNewTabPath := defaultNewTabPath st;
     explorerStateStore := store';
     delivered := delivered st ++ calls |}.

(** The updater that [closeTab] hands to [setTabs]: the next tab list and
    the next active tab id. *)
Definition closeTab_tabs (tabId activeId : string) (prev : list Tab)
  : list Tab * string :=
  let filtered := List.filter (fun t => negb (has_id tabId t)) prev in
  if Z.eqb (Z.of_nat (length filtered)) 0 then (prev, activeId)
  else if JsString.eq tabId activeId then
    let currentIndex := findIndex (has_id tabId) prev in
    let newIndex := Z.max 0 (currentIndex - 1) in
    let newActiveTab := match item filtered newIndex with
                        | Some t => Some t
                        | None => item filtered 0
                        end in
    match newActiveTab with
    | Some t => (filtered, id t)
    | None => (filtered, activeId)
    end
  else (filtered, activeId).

Definition closeTab (tabId : string) (st : TabManager) : TabManager :=
  let '(tabs', active') := closeTab_tabs tabId (activeTabId st) (tabs st) in
  let '(store', calls) := Store.deleteState tabId (explorerStateStore st) in
  {| tabs := tabs';
     activeTabId := active';
     selectionStates := delete tabId (selectionStates st);
     defaultNewTabPath := defaultNewTabPath st;
     explorerStateStore := store';
     delivered := delivered st ++ calls |}.

Definition set_tabs (ts : list Tab) (st : TabManager) : TabManager :=
  {| tabs := ts; activeTabId := activeTabId st;
     selectionStates := selectionStates st;
     defaultNewTabPath := defaultNewTabPath st;
     explorerStateStore := explorerStateStore st; delivered := delivered st |}.

Definition switchTab (newTabId : string) (now : number) (st : TabManager)
  : TabManager :=
  if JsString.eq newTabId (activeTabId st) then st
  else
    {| tabs := map (fun tab =>
                      if has_id newTabId tab
                      then {| id := id tab; title := title tab; icon := icon tab;
                              isPinned := isPinned tab; lastActive := now;
                              savedPath := savedPath tab |}
                      else tab) (tabs st);
       activeTabId := newTabId;
       selectionStates := selectionStates st;
       defaultNewTabPath := defaultNewTabPath st;
       explorerStateStore := explorerStateStore st;
       delivered := delivered st |}.

Definition updateTabTitle (tabId newTitle : string) (st : TabManager) : TabManager :=
  set_tabs (map (fun tab =>
                   if has_id tabId tab
                   then {| id := id tab; title := newTitle; icon := icon tab;
                           isPinned := isPinned tab; lastActive := lastActive tab;
                           savedPath := savedPath tab |}
                   else tab) (tabs st)) st.

Definition updateTabPath (tabId path : string) (st : TabManager) : TabManager :=
  set_tabs (map (fun tab =>
                   if has_id tabId tab
                   then {| id := id tab; title := title tab; icon := icon tab;
                           isPinned := isPinned tab; lastActive := lastActive tab;
                           savedPath := path |}
                   else tab) (tabs st)) st.

(** The updater that [reorderTabs] hands to [setTabs]. *)
Definition reorderTabs_tabs (activeId overId : string) (prev : list Tab) : list Tab :=
  let oldIndex := findIndex (has_id activeId) prev in
  let newIndex := findIndex (has_id overId) prev in
  if Z.eqb oldIndex (-1) || Z.eqb newIndex (-1) || Z.eqb oldIndex newIndex then prev
  else
    let '(newTabs, removed) := splice_out oldIndex prev in
    match removed with
    | movedTab :: _ => splice_in newIndex movedTab newTabs
    | [] => newTabs (* not reached: [oldIndex] is an index of [prev] *)
    end.

Definition reorderTabs (activeId overId : string) (st : TabManager) : TabManager :=
  set_tabs (reorderTabs_tabs activeId overId (tabs st)) st.

(** [a % b] of JavaScript on integers, for [b <> 0]. *)
Definition js_rem (a b : Z) : Z := Z.rem a b.

(** [switchTab(tabs[i].id)], with [i] as computed by the caller; division
    by an empty list's length gives NaN, which indexes nothing. *)
Definition switch_to_index (i : option Z) (now : number) (st : TabManager)
  : outcome TabManager :=
  match i with
  | None => Thrown
  | Some i =>
      match item (tabs st) i with
      | Some t => Returned (switchTab (id t) now st)
      | None => Thrown
      end
  end.

Definition tab_count (st : TabManager) : Z := Z.of_nat (length (tabs st)).

Definition nextTab (now : number) (st : TabManager) : outcome TabManager :=
  let currentIndex := findIndex (has_id (activeTabId st)) (tabs st) in
  let nextIndex := if Z.eqb (tab_count st) 0 then None
                   else Some (js_rem (currentIndex + 1) (tab_count st)) in
  switch_to_index nextIndex now st.

Definition previousTab (now : number) (st : TabManager) : outcome TabManager :=
  let currentIndex := findIndex (has_id (activeTabId st)) (tabs st) in
  let prevIndex := if Z.eqb (tab_count st) 0 then None
                   else Some (js_rem (currentIndex - 1 + tab_count st) (tab_count st)) in
  switch_to_index prevIndex now st.

(** [index] is an integer, as every caller passes. *)
Definition selectTabAtIndex (index : Z) (now : number) (st : TabManager)
  : outcome TabManager :=
  if (0 <=? index) && (index <? tab_count st)
  then switch_to_index (Some index) now st
  else Returned st.

(** ** Explorer state (per tab) *)

Definition getExplorerState (tabId : string) (st : TabManager) : TabExplorerState :=
  Store.getState tabId (explorerStateStore st).

Definition updateExplorerState (tabId : string) (updates : Partial.t)
    (st : TabManager) : TabManager :=
  let '(store', calls) := Store.updateState tabId updates (explorerStateStore st) in
  {| tabs := tabs st; activeTabId := activeTabId st;
     selectionStates := selectionStates st;
     defaultNewTabPath := defaultNewTabPath st;
     explorerStateStore := store';
     delivered := delivered st ++ calls |}.

(** ** Selection state (per tab) *)

Definition getSelectionIds (tabId : string) (st : TabManager) : list string :=
  default [] (selectionStates st !! tabId).

Definition updateSelectionIds (tabId : string) (fileIds : list string)
    (st : TabManager) : TabManager :=
  {| tabs := tabs st; activeTabId := activeTabId st;
     selectionStates := <[tabId := fileIds]> (selectionStates st);
     defaultNewTabPath := defaultNewTabPath st;
     explorerStateStore := explorerStateStore st; delivered := delivered st |}.

(** ** Sequences of operations *)

Inductive operation :=
| CreateTab (title path : option string) (uuid : string) (now : number)
| CloseTab (tabId : string)
| SwitchTab (tabId : string) (now : number)
| UpdateTabTitle (tabId newTitle : string)
| UpdateTabPath (tabId path : string)
| ReorderTabs (activeId overId : string)
| NextTab (now : number)
| PreviousTab (now : number)
| SelectTabAtIndex (index : Z) (now : number)
| SetDefaultNewTabPath (path : string)
| UpdateExplorerState (tabId : string) (updates : Partial.t)
| UpdateSelectionIds (tabId : string) (fileIds : list string).

Definition step (o : operation) (st : TabManager) : outcome TabManager :=
  match o with
  | CreateTab t p u n => Returned (createTab t p u n st)
  | CloseTab i => Returned (closeTab i st)
  | SwitchTab i n => Returned (switchTab i n st)
  | UpdateTabTitle i t => Returned (updateTabTitle i t st)
  | UpdateTabPath i p => Returned (updateTabPath i p st)
  | ReorderTabs a b => Returned (reorderTabs a b st)
  | NextTab n => nextTab n st
  | PreviousTab n => previousTab n st
  | SelectTabAtIndex i n => selectTabAtIndex i n st
  | SetDefaultNewTabPath p => Returned (setDefaultNewTabPath p st)
  | UpdateExplorerState i u => Returned (updateExplorerState i u st)
  | UpdateSelectionIds i f => Returned (updateSelectionIds i f st)
  end.

Fixpoint run (ops : list operation) (st : TabManager) : outcome TabManager :=
  match ops with
  | [] => Returned st
  | o :: rest => st' ← step o st; run rest st'
  end.

(* ====================================================================== *)
(** * Histories and sample states *)
(* ====================================================================== *)

(** ** Histories of the explorer state store *)

(** Histories of the store: any calls of its public methods, starting from
    [new ExplorerStateStore()]. *)
Inductive store_call :=
| SetState (tabId : string) (state : TabExplorerState)
| UpdateState (tabId : string) (updates : Partial.t)
| DeleteState (tabId : string)
| LoadFromRecord (record : gmap string TabExplorerState)
| Subscribe (listener : ExplorerStateListener)
| Unsubscribe (listener : ExplorerStateListener).

Definition store_step (c : store_call) (s : ExplorerStateStore)
  : ExplorerStateStore * list call :=
  match c with
  | SetState i v => Store.setState i v s
  | UpdateState i u => Store.updateState i u s
  | DeleteState i => Store.deleteState i s
  | LoadFromRecord r => Store.loadFromRecord r s
  | Subscribe l => (Store.subscribe l s, [])
  | Unsubscribe l => (Store.unsubscribe l s, [])
  end.

Definition store_after (history : list store_call) : ExplorerStateStore :=
  fold_left (fun s c => fst (store_step c s)) history Store.new.

(** The three methods that change one tab's entry. *)
Inductive mutation :=
| ByValue (state : TabExplorerState)
| ByUpdates (updates : Partial.t)
| ByDelete.

Definition mutate (m : mutation) (tabId : string) : store_call :=
  match m with
  | ByValue v => SetState tabId v
  | ByUpdates u => UpdateState tabId u
  | ByDelete => DeleteState tabId
  end.

Definition call_eq_dec (a b : call) : {a = b} + {a <> b} := decide (a = b).

(** The five operations that take a tab id, as [step] runs them. *)
Definition on_tab_id (tabId other text : string) (now : number) : list operation :=
  [SwitchTab tabId now; CloseTab tabId; UpdateTabTitle tabId text;
   UpdateTabPath tabId text; ReorderTabs tabId other; ReorderTabs other tabId].

(** ** Sample inputs and states *)

(** The object literal [{Physical: {path: '/Users/me/Documents'}}]. *)
Definition documents_sdPath : json :=
  JObject [("Physical"%string,
            JObject [("path"%string, JString "/Users/me/Documents")])].

Definition sortBy_size : Partial.t :=
  {| Partial.viewMode := None; Partial.sortBy := Some SortSize;
     Partial.gridSize := None; Partial.gapSize := None;
     Partial.foldersFirst := None; Partial.columnStack := None;
     Partial.scrollTop := None; Partial.scrollLeft := None;
     Partial.sizeViewTransform := None |}.

Definition tab_named (i : string) : Tab :=
  {| id := i; title := "Overview"; icon := None; isPinned := false;
     lastActive := int 0; savedPath := "/" |}.

Definition three_tabs : TabManager :=
  {| tabs := [tab_named "a"; tab_named "b"; tab_named "c"];
     activeTabId := "b";
     selectionStates := ∅;
     defaultNewTabPath := "/";
     explorerStateStore := Store.new;
     delivered := [] |}.

(** The state after [TabManagerProvider] mounts with nothing persisted. *)
Definition one_tab : TabManager :=
  {| tabs := [tab_named "t1"];
     activeTabId := "t1";
     selectionStates := {[ "t1"%string := [] ]};
     defaultNewTabPath := "/";
     explorerStateStore := {| states := {[ "t1"%string := DEFAULT_EXPLORER_STATE ]};
                              listeners := [] |};
     delivered := [] |}.

(** A component holding the stale id "ghost" has written view state and a
    selection under it. *)
Definition with_ghost_entries : TabManager :=
  updateSelectionIds "ghost" ["f1"%string]
    (updateExplorerState "ghost" sortBy_size one_tab).

(** The only tab, with a sort key and a selection set by the user. *)
Definition one_tab_in_use : TabManager :=
  updateSelectionIds "t1" ["f1"%string]
    (updateExplorerState "t1" sortBy_size one_tab).

Definition json_of_tab (t : Tab) : json :=
  JObject [("id"%string, JString (id t));
           ("title"%string, JString (title t));
           ("icon"%string, match icon t with Some i => JString i | None => JNull end);
           ("isPinned"%string, JBool (isPinned t));
           ("lastActive"%string, JNumber (lastActive t));
           ("savedPath"%string, JString (savedPath t))].

Definition documents_tab : Tab :=
  {| id := "a"; title := "Documents"; icon := None; isPinned := false;
     lastActive := int 1700000000000; savedPath := "/explorer?view=device" |}.

(** A stored snapshot whose [explorerStates] is [null]. *)
Definition null_table_snapshot : json :=
  JObject [("tabs"%string, JArray [json_of_tab documents_tab]);
           ("activeTabId"%string, JString "a");
           ("explorerStates"%string, JNull);
           ("defaultNewTabPath"%string, JString "/")].

Definition null_table_blob : string := Json.stringify null_table_snapshot.

(* ====================================================================== *)
(** * Guarded runs *)
(* ====================================================================== *)

(** [names_tab tabId st]: some tab of the list has this id. *)
Definition names_tab (tabId : string) (st : TabManager) : bool :=
  existsb (has_id tabId) (tabs st).

(** A run in which every operation passes the test [guard] in the state
    it is applied to. *)
Fixpoint guarded (guard : operation -> TabManager -> bool)
    (ops : list operation) (st : TabManager) : bool :=
  match ops with
  | [] => true
  | o :: rest =>
      guard o st
      && match step o st with
         | Returned st' => guarded guard rest st'
         | Thrown => true
         end
  end.

(** [switchTab] is only called with the id of a tab. *)
Definition switches_to_tabs (o : operation) (st : TabManager) : bool :=
  match o with
  | SwitchTab tabId _ => names_tab tabId st
  | _ => true
  end.

(** [crypto.randomUUID()] never returns the id of a tab. *)
Definition creates_fresh_ids (o : operation) (st : TabManager) : bool :=
  match o with
  | CreateTab _ _ uuid _ => negb (names_tab uuid st)
  | _ => true
  end.

(** [tab] with another [lastActive], [title] or [savedPath]:
    [{...tab, lastActive}], [{...tab, title}], [{...tab, savedPath}]. *)
Definition with_lastActive (now : number) (tab : Tab) : Tab :=
  {| id := id tab; title := title tab; icon := icon tab; isPinned := isPinned tab;
     lastActive := now; savedPath := savedPath tab |}.

Definition with_title (newTitle : string) (tab : Tab) : Tab :=
  {| id := id tab; title := newTitle; icon := icon tab; isPinned := isPinned tab;
     lastActive := lastActive tab; savedPath := savedPath tab |}.

Definition with_savedPath (path : string) (tab : Tab) : Tab :=
  {| id := id tab; title := title tab; icon := icon tab; isPinned := isPinned tab;
     lastActive := lastActive tab; savedPath := path |}.

(* ====================================================================== *)
(** * Writing the snapshot *)
(* ====================================================================== *)

(** The values that [JSON.stringify] sees in the snapshot. *)
Module Encode.

Definition viewMode_text (v : ViewMode) : string :=
  match v with
  | ViewGrid => "grid" | ViewList => "list" | ViewColumn => "column"
  | ViewMedia => "media" | ViewSize => "size"
  end.

Definition sortBy_text (v : SortBy) : string :=
  match v with
  | SortName => "name" | SortSize => "size" | SortDateModified => "date_modified"
  | SortDateCreated => "date_created" | SortKind => "kind"
  end.

Definition of_transform (t : Transform.t) : json :=
  JObject [("k"%string, JNumber (Transform.k t));
           ("x"%string, JNumber (Transform.x t));
           ("y"%string, JNumber (Transform.y t))].

Definition of_explorerState (e : TabExplorerState) : json :=
  JObject [("viewMode"%string, JString (viewMode_text (viewMode e)));
           ("sortBy"%string, JString (sortBy_text (sortBy e)));
           ("gridSize"%string, JNumber (gridSize e));
           ("gapSize"%string, JNumber (gapSize e));
           ("foldersFirst"%string, JBool (foldersFirst e));
           ("columnStack"%string, JArray (map JString (columnStack e)));
           ("scrollTop"%string, JNumber (scrollTop e));
           ("scrollLeft"%string, JNumber (scrollLeft e));
           ("sizeViewTransform"%string, of_transform (sizeViewTransform e))].

(** [Object.fromEntries(this.states)], in the order the map lists its
    entries. *)
Definition of_explorerStates (m : gmap string TabExplorerState) : json :=
  JObject (map (fun kv : string * TabExplorerState => (fst kv, of_explorerState (snd kv)))
               (map_to_list m)).

(** A key whose value is [undefined] is left out. *)
Definition of_persisted (p : Persisted.t) : json :=
  JObject ([("tabs"%string, JArray (map json_of_tab (Persisted.tabs p)));
            ("activeTabId"%string, JString (Persisted.activeTabId p));
            ("explorerStates"%string,
             match Persisted.explorerStates p with
             | Some m => of_explorerStates m
             | None => JNull
             end)]
           ++ match Persisted.defaultNewTabPath p with
              | Some d => [("defaultNewTabPath"%string, JString d)]
              | None => []
              end).

End Encode.

(** The object the persistence effect hands to [savePersistedState]. *)
Definition snapshot (st : TabManager) : Persisted.t :=
  {| Persisted.tabs := tabs st;
     Persisted.activeTabId := activeTabId st;
     Persisted.explorerStates := Some (Store.getAllStates (explorerStateStore st));
     Persisted.defaultNewTabPath := Some (defaultNewTabPath st) |}.

(** What [localStorage.setItem] does: throw (storage full or unavailable)
    or store the value. *)
Inductive storage_write :=
| WriteThrows
| WriteDone.

(** [savePersistedState(state)]: the stored string afterwards.  It never
    throws. *)
Definition savePersistedState (state : Persisted.t) (w : storage_write)
    (stored : option string) : option string :=
  match w with
  | WriteThrows => stored
  | WriteDone => Some (Json.stringify (Encode.of_persisted state))
  end.

(* ====================================================================== *)
(** * Quick preview *)
(* ====================================================================== *)

(** Source: components/QuickPreview/Controller.tsx and the quick preview
    window ([QuickPreview]).  A [File] is the record of the client
    library, with the fields these components read or set. *)
Module File.
Record t := {
  id : string;
  name : string;
  extension : option string;
  kind : string;
  size : number;
  sd_path : json;
  content_identity : option json;
  sidecars : list json;
  tags : list json;
  created_at : option string;
  modified_at : option string
}.
End File.

Module QuickPreviewController.

Definition is_file (quickPreviewFileId : string) (f : File.t) : bool :=
  JsString.eq (File.id f) quickPreviewFileId.

(** The [useMemo] of [previewFile]: the selection first, then the current
    files; [None] is [null]. *)
Definition previewFile (selectedFiles currentFiles : list File.t)
    (quickPreviewFileId : string) : option File.t :=
  match List.find (is_file quickPreviewFileId) selectedFiles with
  | Some fromSelection => Some fromSelection
  | None => List.find (is_file quickPreviewFileId) currentFiles
  end.

Definition currentIndex (filesForNavigation : list File.t)
    (quickPreviewFileId : string) : Z :=
  findIndex (is_file quickPreviewFileId) filesForNavigation.

Definition hasPrevious (filesForNavigation : list File.t)
    (quickPreviewFileId : string) : bool :=
  0 <? currentIndex filesForNavigation quickPreviewFileId.

Definition hasNext (filesForNavigation : list File.t)
    (quickPreviewFileId : string) : bool :=
  currentIndex filesForNavigation quickPreviewFileId
  <? Z.of_nat (length filesForNavigation) - 1.

(** [handleNext]: the file it hands to [selectFile] (with the files for
    navigation and two [false] flags), or [None] when it does nothing. *)
Definition handleNext (filesForNavigation : list File.t)
    (quickPreviewFileId : string) : option File.t :=
  if hasNext filesForNavigation quickPreviewFileId
  then item filesForNavigation (currentIndex filesForNavigation quickPreviewFileId + 1)
  else None.

Definition handlePrevious (filesForNavigation : list File.t)
    (quickPreviewFileId : string) : option File.t :=
  if hasPrevious filesForNavigation quickPreviewFileId
  then item filesForNavigation (currentIndex filesForNavigation quickPreviewFileId - 1)
  else None.

(** The props handed to [QuickPreviewFullscreen]. *)
Record props := {
  fileId : string;
  file : option File.t;
  isOpen : bool;
  onNext : option File.t;
  onPrevious : option File.t;
  previous_enabled : bool;
  next_enabled : bool
}.

(** The component: [None] is the early [return null]. *)
Definition render (quickPreviewFileId : option string)
    (selectedFiles currentFiles : list File.t) : option props :=
  match quickPreviewFileId with
  | None => None
  | Some fid =>
      if negb (JsString.truthy fid) then None
      else Some {| fileId := fid;
                   file := previewFile selectedFiles currentFiles fid;
                   isOpen := JsString.truthy fid;
                   onNext := handleNext currentFiles fid;
                   onPrevious := handlePrevious currentFiles fid;
                   previous_enabled := hasPrevious currentFiles fid;
                   next_enabled := hasNext currentFiles fid |}
  end.

End QuickPreviewController.

Module QuickPreviewWindow.

(** Where a line terminator starts: the regular expression's [.] matches
    anything but U+000A, U+000D, U+2028 and U+2029. *)
Definition line_terminator_at (s : list ascii) : bool :=
  match map Bytes.code s with
  | 10 :: _ | 13 :: _ | 226 :: 128 :: 168 :: _ | 226 :: 128 :: 169 :: _ => true
  | _ => false
  end%N.

Fixpoint has_line_terminator (s : list ascii) : bool :=
  match s with
  | [] => false
  | _ :: rest => line_terminator_at s || has_line_terminator rest
  end.

(** [s] without the prefix [p], when it has it. *)
Fixpoint strip (p s : string) : option string :=
  match p, s with
  | EmptyString, _ => Some s
  | String a p', String b s' => if Ascii.eqb a b then strip p' s' else None
  | String _ _, EmptyString => None
  end.

(** [label.match(/^<prefix>(.+)$/)]: the captured text, or [None]. *)
Definition match_rest (prefix label : string) : option string :=
  match strip prefix label with
  | Some rest =>
      if JsString.truthy rest && negb (has_line_terminator (JsString.chars rest))
      then Some rest else None
  | None => None
  end.

(** What the mount effect does with the window label. *)
Inductive label_effect :=
| SetEphemeralPath (decoded : json)
| ParseFailed
| SetFileId (fileId : string)
| Nothing.

Definition read_label (label : string) : label_effect :=
  match match_rest "quick-preview-path-" label with
  | Some encoded =>
      match Uri.decodeURIComponent encoded with
      | None => ParseFailed
      | Some text =>
          match Json.parse text with
          | Some decoded => SetEphemeralPath decoded
          | None => ParseFailed
          end
      end
  | None =>
      match match_rest "quick-preview-" label with
      | Some fileId => SetFileId fileId
      | None => Nothing
      end
  end.

(** Whether the effect sets the file id. *)
Definition sets_file_id (e : label_effect) : bool :=
  match e with SetFileId _ => true | _ => false end.

(** [s] holds none of the characters [seps]. *)
Definition free_of (seps : list ascii) (s : string) : Prop :=
  Forall (fun c => existsb (Ascii.eqb c) seps = false) (JsString.chars s).

(** [s.split(/[/\\]/)] and [s.split('.')] : split at any of the
    separators. *)
Fixpoint split_any (seps : list ascii) (s : string) : list string :=
  match s with
  | EmptyString => [EmptyString]
  | String c s' =>
      if existsb (Ascii.eqb c) seps then EmptyString :: split_any seps s'
      else match split_any seps s' with
           | [] => [String c EmptyString]
           | w :: ws => String c w :: ws
           end
  end.

Definition path_separators : list ascii := ["/"; "\"]%char.

(** [name.includes('.')] *)
Definition includes_dot (s : string) : bool :=
  existsb (Ascii.eqb ".") (JsString.chars s).

Section EphemeralFile.

(** [String.prototype.toLowerCase] is the platform's. *)
Variable toLowerCase : string -> string.

(** The [useMemo] of [file], when the query returned none: [Returned None]
    is [null], [Thrown] the TypeError of [physicalPath.split] on a value
    that is no string. *)
Definition ephemeral_file (ephemeralPath : option json) : outcome (option File.t) :=
  if negb (JsValue.truthy ephemeralPath) then Returned None
  else
    let physicalPath := JsValue.get_opt "path" (JsValue.get_opt "Physical" ephemeralPath) in
    if negb (JsValue.truthy physicalPath) then Returned None
    else
      match physicalPath, ephemeralPath with
      | Some (JString path), Some sd =>
          let name := match last (split_any path_separators path) with
                      | Some n => if JsString.truthy n then n else path
                      | None => path
                      end in
          let ext := if includes_dot name
                     then option_map toLowerCase (last (split_any ["."%char] name))
                     else None in
          Returned (Some {| File.id := "ephemeral-" +:+ path;
                            File.name := name;
                            File.extension := ext;
                            File.kind := "File";
                            File.size := int 0;
                            File.sd_path := sd;
                            File.content_identity := None;
                            File.sidecars := [];
                            File.tags := [];
                            File.created_at := None;
                            File.modified_at := None |})
      | _, _ => Thrown
      end.

(** [file]: the file of the query when there is one. *)
Definition file (fileFromQuery : option File.t) (ephemeralPath : option json)
  : outcome (option File.t) :=
  match fileFromQuery with
  | Some f => Returned (Some f)
  | None => ephemeral_file ephemeralPath
  end.

End EphemeralFile.

End QuickPreviewWindow.

(* ====================================================================== *)
(** * Settings window *)
(* ====================================================================== *)

Module Settings.

Definition sections : list (string * string) :=
  [("general", "General"); ("appearance", "Appearance"); ("library", "Library");
   ("indexer", "Indexer"); ("services", "Services"); ("privacy", "Privacy");
   ("advanced", "Advanced"); ("about", "About")]%string.

(** The page components. *)
Inductive page :=
| GeneralSettings | AppearanceSettings | LibrarySettings | IndexerSettings
| ServicesSettings | PrivacySettings | AdvancedSettings | AboutSettings.

(** The [switch] of [SettingsContent]. *)
Definition SettingsContent (name : string) : page :=
  if String.eqb name "general" then GeneralSettings
  else if String.eqb name "appearance" then AppearanceSettings
  else if String.eqb name "library" then LibrarySettings
  else if String.eqb name "indexer" then IndexerSettings
  else if String.eqb name "services" then ServicesSettings
  else if String.eqb name "privacy" then PrivacySettings
  else if String.eqb name "advanced" then AdvancedSettings
  else if String.eqb name "about" then AboutSettings
  else GeneralSettings.

(** [pathname.split("/").filter(Boolean)[1] || "general"] *)
Definition initialPage (pathname : string) : string :=
  match nth_error (List.filter JsString.truthy (JsString.split "/" pathname)) 1 with
  | Some p => if JsString.truthy p then p else "general"
  | None => "general"
  end.

(** The classes [SettingsSidebar] gives the button of a section. *)
Definition button_class (currentPage sectionId : string) : string :=
  let isAboutPage := String.eqb currentPage "about" in
  if String.eqb currentPage sectionId then
    if isAboutPage then "bg-white/20 text-white"
    else "bg-sidebar-selected text-sidebar-ink"
  else if isAboutPage then "text-white/60 hover:text-white hover:bg-white/10"
  else "text-sidebar-inkDull hover:text-sidebar-ink hover:bg-sidebar-box".

End Settings.

(** ** Sample files *)

Definition file_named (i : string) : File.t :=
  {| File.id := i; File.name := i; File.extension := None; File.kind := "File";
     File.size := int 0; File.sd_path := JNull; File.content_identity := None;
     File.sidecars := []; File.tags := []; File.created_at := None;
     File.modified_at := None |}.

(* ====================================================================== *)
(** * Window controls *)
(* ====================================================================== *)

(** Source: TopBar/WindowControls.tsx.  The platform's window is a flag
    (maximized or not); each optional method of the platform is absent
    ([None]) or a function of the window that resolves or rejects
    ([Thrown]).  A handler is one invocation, run to its end. *)
Module WindowControls.

Record Platform := {
  minimizeWindow : option (bool -> outcome bool);
  toggleMaximizeWindow : option (bool -> outcome bool);
  isWindowMaximized : option (bool -> outcome (option bool));
  closeCurrentWindow : option (bool -> outcome bool)
}.

(** The state after the handler: the window, and [isMaximized]. *)
Definition handleMaximize (platform : Platform) (window isMaximized : bool)
  : bool * bool :=
  let toggled := match toggleMaximizeWindow platform with
                 | Some toggle => toggle window
                 | None => Returned window
                 end in
  match toggled with
  | Thrown => (window, isMaximized)
  | Returned window' =>
      match isWindowMaximized platform with
      | None => (window', false)
      | Some query =>
          match query window' with
          | Returned maximized => (window', default false maximized)
          | Thrown => (window', isMaximized)
          end
      end
  end.

(** [aria-label] of the middle button. *)
Definition maximize_label (isMaximized : bool) : string :=
  if isMaximized then "Restore" else "Maximize".

(** A platform whose two methods do what their names say. *)
Definition honest (platform : Platform) : Prop :=
  toggleMaximizeWindow platform = Some (fun w => Returned (negb w))
  /\ isWindowMaximized platform = Some (fun w => Returned (Some w)).

End WindowControls.

(* ====================================================================== *)
(** * Properties *)
(* ====================================================================== *)

(** ** Arrays *)

Section Arrays.
Context {A : Type}.

Lemma item_in_range (xs : list A) (i : Z) :
  0 <= i < Z.of_nat (length xs) -> exists a, item xs i = Some a.
Proof.
  intros [Hlo Hhi]. unfold item.
  destruct (Z.ltb_spec i 0) as [?|_]; [lia|].
  destruct (nth_error xs (Z.to_nat i)) as [a|] eqn:E; [by exists a|].
  apply nth_error_None in E. lia.
Qed.

Lemma findIndex_bounds (p : A -> bool) (xs : list A) :
  -1 <= findIndex p xs < Z.of_nat (length xs).
Proof.
  induction xs as [|a xs IH]; cbn [findIndex length]; [lia|].
  destruct (p a); [lia|].
  destruct (Z.ltb_spec (findIndex p xs) 0); lia.
Qed.

Lemma findIndex_absent (p : A -> bool) (xs : list A) :
  Forall (fun a => p a = false) xs -> findIndex p xs = -1.
Proof.
  induction 1 as [|a xs Ha _ IH]; cbn; [reflexivity|].
  rewrite Ha, IH. reflexivity.
Qed.

Lemma findIndex_found (p : A -> bool) (pre : list A) (a : A) (post : list A) :
  Forall (fun a => p a = false) pre -> p a = true ->
  findIndex p (pre ++ a :: post) = Z.of_nat (length pre).
Proof.
  intros Hpre Ha. induction Hpre as [|b pre Hb _ IH]; cbn [app findIndex length].
  - rewrite Ha. reflexivity.
  - rewrite Hb, IH. destruct (Z.ltb_spec (Z.of_nat (length pre)) 0); lia.
Qed.

(** [findIndex] either finds nothing, or splits the list at the first
    element that satisfies the test. *)
Lemma findIndex_spec (p : A -> bool) (xs : list A) :
  (findIndex p xs = -1 /\ Forall (fun a => p a = false) xs)
  \/ (exists pre a post,
        xs = pre ++ a :: post
        /\ findIndex p xs = Z.of_nat (length pre)
        /\ p a = true
        /\ Forall (fun a => p a = false) pre).
Proof.
  induction xs as [|a xs IH].
  - left. split; [reflexivity|constructor].
  - destruct (p a) eqn:Ha.
    + right. exists [], a, xs. cbn. rewrite Ha. repeat split. constructor.
    + destruct IH as [[E Hall]|(pre & b & post & -> & E & Hb & Hpre)].
      * left. split; [|by constructor]. cbn. rewrite Ha, E. reflexivity.
      * right. exists (a :: pre), b, post. repeat split; [|assumption|by constructor].
        apply (findIndex_found p (a :: pre) b post); [by constructor|assumption].
Qed.

Lemma filter_keeps_all (p : A -> bool) (xs : list A) :
  Forall (fun a => p a = false) xs -> List.filter (fun a => negb (p a)) xs = xs.
Proof.
  induction 1 as [|a xs Ha _ IH]; cbn; [reflexivity|].
  rewrite Ha. cbn. by rewrite IH.
Qed.

Lemma splice_out_at (pre : list A) (a : A) (post : list A) :
  splice_out (Z.of_nat (length pre)) (pre ++ a :: post) = (pre ++ post, [a]).
Proof.
  unfold splice_out. rewrite Nat2Z.id.
  rewrite take_app_length.
  replace (S (length pre)) with (length (pre ++ [a])) by (rewrite length_app; cbn; lia).
  replace (pre ++ a :: post) with ((pre ++ [a]) ++ post) at 1 by (by rewrite <- app_assoc).
  rewrite drop_app_length.
  rewrite drop_app_length. reflexivity.
Qed.

Lemma splice_in_at (pre : list A) (a : A) (post : list A) :
  splice_in (Z.of_nat (length pre)) a (pre ++ post) = pre ++ a :: post.
Proof.
  unfold splice_in. rewrite Nat2Z.id, take_app_length, drop_app_length. reflexivity.
Qed.

Lemma last_cases (xs : list A) :
  (exists xs' a, xs = xs' ++ [a]) \/ xs = [].
Proof.
  induction xs as [|a xs _] using rev_ind; [by right|left; by exists xs, a].
Qed.

Lemma item_head (a : A) (xs : list A) : item (a :: xs) 0 = Some a.
Proof. reflexivity. Qed.

Lemma item_app_last (pre : list A) (a : A) (post : list A) :
  item ((pre ++ [a]) ++ post) (Z.of_nat (length pre)) = Some a.
Proof.
  unfold item. destruct (Z.ltb_spec (Z.of_nat (length pre)) 0); [lia|].
  rewrite Nat2Z.id, <- app_assoc. cbn.
  rewrite nth_error_app2 by lia. by rewrite Nat.sub_diag.
Qed.

Lemma findIndex_found_next (p : A -> bool) (pre : list A) (a b : A)
    (post : list A) :
  Forall (fun a => p a = false) pre -> p a = false -> p b = true ->
  findIndex p (pre ++ a :: b :: post) = Z.of_nat (length pre) + 1.
Proof.
  intros Hpre Ha Hb.
  replace (pre ++ a :: b :: post) with ((pre ++ [a]) ++ b :: post)
    by (by rewrite <- app_assoc).
  rewrite findIndex_found; [rewrite length_app; cbn; lia| |exact Hb].
  apply Forall_app. split; [exact Hpre|by repeat constructor].
Qed.

Lemma splice_out_next (pre : list A) (a b : A) (post : list A) :
  splice_out (Z.of_nat (length pre) + 1) (pre ++ a :: b :: post)
  = (pre ++ a :: post, [b]).
Proof.
  replace (Z.of_nat (length pre) + 1) with (Z.of_nat (length (pre ++ [a])))
    by (rewrite length_app; cbn; lia).
  replace (pre ++ a :: b :: post) with ((pre ++ [a]) ++ b :: post)
    by (by rewrite <- app_assoc).
  rewrite splice_out_at. by rewrite <- app_assoc.
Qed.

Lemma splice_in_next (pre : list A) (a b : A) (post : list A) :
  splice_in (Z.of_nat (length pre) + 1) b (pre ++ a :: post)
  = pre ++ a :: b :: post.
Proof.
  replace (Z.of_nat (length pre) + 1) with (Z.of_nat (length (pre ++ [a])))
    by (rewrite length_app; cbn; lia).
  replace (pre ++ a :: post) with ((pre ++ [a]) ++ post)
    by (by rewrite <- app_assoc).
  rewrite splice_in_at. by rewrite <- app_assoc.
Qed.

End Arrays.

(** ** Title deriver *)

(** C9: the title deriver is a function of its two arguments, and on the
    documented examples it returns "Favorites", "Tag: abcdef12...",
    "Documents" and "Spacedrive". *)
Theorem deriveTitleFromPath_examples :
  deriveTitleFromPath "/favorites" "" = "Favorites"%string
  /\ deriveTitleFromPath "/tag/abcdef1234" "" = "Tag: abcdef12..."%string
  /\ deriveTitleFromPath "/explorer"
       ("?path=" +:+ Uri.encodeURIComponent (Json.stringify documents_sdPath))
     = "Documents"%string
  /\ deriveTitleFromPath "/unknown-route" "" = "Spacedrive"%string.
Proof. repeat split; vm_compute; reflexivity. Qed.

(** The search string of the third example, spelled out. *)
Lemma documents_search_text :
  Uri.encodeURIComponent (Json.stringify documents_sdPath)
  = "%7B%22Physical%22%3A%7B%22path%22%3A%22%2FUsers%2Fme%2FDocuments%22%7D%7D"%string.
Proof. vm_compute. reflexivity. Qed.

(** ** createTab *)

Lemma derivedTitle_empty_is_absent (tabPath : string) :
  derivedTitle (Some EmptyString) tabPath = derivedTitle None tabPath.
Proof. unfold derivedTitle. reflexivity. Qed.

(** C10: [createTab] with the empty string as title appends a tab whose
    title is the one derived from the resolved path, exactly as when the
    title is absent. *)
Theorem createTab_empty_title_is_derived
    (path : option string) (uuid : string) (now : number) (st : TabManager) :
  let tabPath := default (defaultNewTabPath st) path in
  let pieces := JsString.split "?" tabPath in
  let pathname := default EmptyString (nth_error pieces 0) in
  let search := default EmptyString (nth_error pieces 1) in
  exists newTab,
    tabs (createTab (Some EmptyString) path uuid now st) = tabs st ++ [newTab]
    /\ id newTab = uuid
    /\ title newTab
       = deriveTitleFromPath pathname
           (if JsString.truthy search then "?" +:+ search else "")
    /\ createTab (Some EmptyString) path uuid now st = createTab None path uuid now st.
Proof.
  cbv zeta. eexists. unfold createTab. cbn.
  split; [reflexivity|]. cbn. repeat split.
Qed.

(** ** Explorer state store *)

Lemma getExplorerState_updateExplorerState
    (tabId : string) (updates : Partial.t) (st : TabManager) :
  getExplorerState tabId (updateExplorerState tabId updates st)
  = spread (getExplorerState tabId st) updates.
Proof.
  unfold getExplorerState, updateExplorerState, Store.getState. cbn.
  rewrite lookup_insert_eq. reflexivity.
Qed.

(** C5: after [updateExplorerState(id, updates)], [getExplorerState(id)]
    is the prior state (the stored one, or the default when the store had
    no entry) with the fields of [updates] written over it; for
    [{sortBy: 'size'}] the sort key is 'size' and the other eight fields
    keep their prior values. *)
Theorem updateExplorerState_merges_sortBy
    (tabId : string) (updates : Partial.t) (st : TabManager) :
  let prior := getExplorerState tabId st in
  let after := getExplorerState tabId (updateExplorerState tabId sortBy_size st) in
  prior = default DEFAULT_EXPLORER_STATE (states (explorerStateStore st) !! tabId)
  /\ getExplorerState tabId (updateExplorerState tabId updates st)
     = spread prior updates
  /\ sortBy after = SortSize
  /\ viewMode after = viewMode prior
  /\ gridSize after = gridSize prior
  /\ gapSize after = gapSize prior
  /\ foldersFirst after = foldersFirst prior
  /\ columnStack after = columnStack prior
  /\ scrollTop after = scrollTop prior
  /\ scrollLeft after = scrollLeft prior
  /\ sizeViewTransform after = sizeViewTransform prior.
Proof.
  cbv zeta. rewrite !getExplorerState_updateExplorerState.
  repeat split.
Qed.

Lemma subscribe_NoDup (l : ExplorerStateListener) (s : ExplorerStateStore) :
  NoDup (listeners s) -> NoDup (listeners (Store.subscribe l s)).
Proof.
  intros Hs. unfold Store.subscribe. cbn.
  destruct (existsb (Nat.eqb l) (listeners s)) eqn:E; [exact Hs|].
  apply NoDup_app. split; [exact Hs|]. split; [|apply NoDup_singleton].
  intros x Hx Hx'. apply list_elem_of_singleton in Hx'. subst x.
  assert (existsb (Nat.eqb l) (listeners s) = true); [|congruence].
  apply existsb_exists. exists l. split; [by apply list_elem_of_In|].
  apply Nat.eqb_refl.
Qed.

Lemma unsubscribe_NoDup (l : ExplorerStateListener) (s : ExplorerStateStore) :
  NoDup (listeners s) -> NoDup (listeners (Store.unsubscribe l s)).
Proof.
  intros Hs. unfold Store.unsubscribe. cbn.
  induction Hs as [|x xs Hx Hxs IH]; cbn; [constructor|].
  destruct (negb (l =? x)%nat); [|exact IH].
  constructor; [|exact IH].
  intros Hin. apply Hx. apply list_elem_of_In in Hin.
  apply filter_In in Hin. apply list_elem_of_In. tauto.
Qed.

Lemma store_step_NoDup (c : store_call) (s : ExplorerStateStore) :
  NoDup (listeners s) -> NoDup (listeners (fst (store_step c s))).
Proof.
  intros Hs. destruct c; try exact Hs.
  - by apply subscribe_NoDup.
  - by apply unsubscribe_NoDup.
Qed.

Lemma store_after_NoDup (history : list store_call) :
  NoDup (listeners (store_after history)).
Proof.
  unfold store_after.
  assert (H : NoDup (listeners Store.new)) by constructor.
  revert H. generalize Store.new as s.
  induction history as [|c cs IH]; intros s Hs; cbn; [exact Hs|].
  apply IH. by apply store_step_NoDup.
Qed.

Lemma mutate_calls (m : mutation) (tabId : string) (s : ExplorerStateStore) :
  snd (store_step (mutate m tabId) s) = map (fun l => (l, tabId)) (listeners s)
  /\ listeners (fst (store_step (mutate m tabId) s)) = listeners s.
Proof. destruct m; cbn; split; reflexivity. Qed.

Lemma callback_invocations_absent
    (l : ExplorerStateListener) (bound changed : string)
    (ls : list ExplorerStateListener) :
  ~ In l ls ->
  callback_invocations l bound (map (fun l' => (l', changed)) ls) = 0%nat.
Proof.
  unfold callback_invocations.
  induction ls as [|b ls IH]; cbn; [reflexivity|]. intros Hl.
  destruct (Nat.eqb_spec b l) as [->|_]; [tauto|].
  cbn. apply IH. tauto.
Qed.

Lemma callback_invocations_cons
    (l : ExplorerStateListener) (bound : string) (c : call) (trace : list call) :
  callback_invocations l bound (c :: trace)
  = ((if Nat.eqb (fst c) l then useTabExplorerState_listener bound (snd c)
      else 0) + callback_invocations l bound trace)%nat.
Proof. reflexivity. Qed.

Lemma callback_invocations_broadcast
    (l : ExplorerStateListener) (bound changed : string)
    (ls : list ExplorerStateListener) :
  NoDup ls -> In l ls ->
  callback_invocations l bound (map (fun l' => (l', changed)) ls)
  = useTabExplorerState_listener bound changed.
Proof.
  induction 1 as [|a ls Ha Hls IH]; [cbn; tauto|].
  rewrite map_cons, callback_invocations_cons. cbn [fst snd].
  intros [->|Hin].
  - rewrite Nat.eqb_refl, callback_invocations_absent; [lia|].
    intros Hl. apply Ha. by apply list_elem_of_In.
  - destruct (Nat.eqb_spec a l) as [->|_].
    + exfalso. apply Ha. by apply list_elem_of_In.
    + rewrite IH; [lia|exact Hin].
Qed.

Lemma count_occ_broadcast
    (eq_dec : forall a b : call, {a = b} + {a <> b})
    (l : ExplorerStateListener) (changed : string)
    (ls : list ExplorerStateListener) :
  NoDup ls -> In l ls ->
  count_occ eq_dec (map (fun l' => (l', changed)) ls) (l, changed) = 1%nat.
Proof.
  induction 1 as [|a ls Ha Hls IH]; cbn; [tauto|].
  intros [->|Hin].
  - destruct (eq_dec (l, changed) (l, changed)); [|congruence].
    f_equal. apply count_occ_not_In. intros Hin.
    apply in_map_iff in Hin as (l' & E & Hl'). inversion E; subst.
    apply Ha. by apply list_elem_of_In.
  - destruct (eq_dec (a, changed) (l, changed)) as [E|_].
    + inversion E; subst. exfalso. apply Ha. by apply list_elem_of_In.
    + by apply IH.
Qed.

Lemma filter_broadcast
    (l : ExplorerStateListener) (changed : string)
    (ls : list ExplorerStateListener) :
  NoDup ls -> In l ls ->
  length (List.filter (fun c : call => Nat.eqb (fst c) l)
                      (map (fun l' => (l', changed)) ls)) = 1%nat.
Proof.
  assert (Habsent : forall ls', ~ In l ls' ->
            List.filter (fun c : call => Nat.eqb (fst c) l)
                        (map (fun l' => (l', changed)) ls') = []).
  { induction ls' as [|b ls' IH]; cbn; [reflexivity|]. intros Hl.
    destruct (Nat.eqb_spec b l) as [->|_]; [tauto|]. apply IH. tauto. }
  induction 1 as [|a ls Ha Hls IH]; cbn; [tauto|].
  intros [->|Hin].
  - rewrite Nat.eqb_refl, Habsent; [reflexivity|].
    intros Hl. apply Ha. by apply list_elem_of_In.
  - destruct (Nat.eqb_spec a l) as [->|_].
    + exfalso. apply Ha. by apply list_elem_of_In.
    + by apply IH.
Qed.

(** C6: on a store with any history, [setState], [updateState] and
    [deleteState] of tab [changed] call every registered listener, each
    exactly once, with [changed] as argument and no filtering; through the
    listener of a consumer bound to tab [bound] React's callback then runs
    once when [changed] is [bound] or the broadcast sentinel (the empty
    string), and not at all for any other tab id. *)
Theorem store_notifies_each_listener_once
    (history : list store_call) (m : mutation) (changed bound : string)
    (l : ExplorerStateListener) :
  let s := store_after history in
  let calls := snd (store_step (mutate m changed) s) in
  In l (listeners s) ->
  calls = map (fun l' => (l', changed)) (listeners s)
  /\ count_occ call_eq_dec calls (l, changed) = 1%nat
  /\ length (List.filter (fun c : call => Nat.eqb (fst c) l) calls) = 1%nat
  /\ callback_invocations l bound calls
     = (if decide (changed = bound \/ changed = EmptyString) then 1%nat else 0%nat)
  /\ (changed <> bound -> changed <> EmptyString ->
      callback_invocations l bound calls = 0%nat)
  /\ (changed = bound -> callback_invocations l bound calls = 1%nat).
Proof.
  cbv zeta. intros Hl.
  pose proof (store_after_NoDup history) as Hnd.
  destruct (mutate_calls m changed (store_after history)) as [-> _].
  assert (Hinv : callback_invocations l bound
                   (map (fun l' => (l', changed)) (listeners (store_after history)))
                 = useTabExplorerState_listener bound changed)
    by (by apply callback_invocations_broadcast).
  assert (Hcnt : count_occ call_eq_dec
                   (map (fun l' => (l', changed)) (listeners (store_after history)))
                   (l, changed) = 1%nat)
    by (by apply count_occ_broadcast).
  repeat split.
  - exact Hcnt.
  - by apply filter_broadcast.
  - rewrite Hinv. unfold useTabExplorerState_listener, JsString.eq.
    destruct (String.eqb_spec changed ""), (String.eqb_spec changed bound);
      cbn; case_decide; try reflexivity; tauto.
  - intros H1 H2. rewrite Hinv. unfold useTabExplorerState_listener, JsString.eq.
    destruct (String.eqb_spec changed ""), (String.eqb_spec changed bound);
      cbn; congruence.
  - intros ->. rewrite Hinv. unfold useTabExplorerState_listener, JsString.eq.
    rewrite String.eqb_refl, orb_true_r. reflexivity.
Qed.

Lemma store_notifies_each_listener_once_witness :
  let history := [Subscribe 7; Subscribe 8; Subscribe 7; Unsubscribe 9]%nat in
  In 8%nat (listeners (store_after history))
  /\ callback_invocations 8%nat "tab-x"
       (snd (store_step (mutate ByDelete "tab-y") (store_after history))) = 0%nat
  /\ callback_invocations 8%nat "tab-x"
       (snd (store_step (mutate (ByUpdates sortBy_size) "tab-x")
                        (store_after history))) = 1%nat.
Proof.
  cbv zeta.
  assert (H : In 8%nat (listeners (store_after
               [Subscribe 7; Subscribe 8; Subscribe 7; Unsubscribe 9]%nat)))
    by (vm_compute; tauto).
  split; [exact H|]. split.
  - apply (store_notifies_each_listener_once _ ByDelete "tab-y" "tab-x" 8%nat H);
      discriminate.
  - apply (store_notifies_each_listener_once _ (ByUpdates sortBy_size)
             "tab-x" "tab-x" 8%nat H). reflexivity.
Defined.

Lemma has_id_true (tabId : string) (t : Tab) : has_id tabId t = true <-> id t = tabId.
Proof. unfold has_id, JsString.eq. apply String.eqb_eq. Qed.

Lemma has_id_false (tabId : string) (t : Tab) : has_id tabId t = false <-> id t <> tabId.
Proof. unfold has_id, JsString.eq. apply String.eqb_neq. Qed.

(** ** The tab list is never empty *)

Lemma initial_tabs_nonempty (persisted : option Persisted.t) (uuid : string) (now : number) :
  initial_tabs persisted uuid now <> [].
Proof.
  unfold initial_tabs. destruct persisted as [p|]; [|discriminate].
  destruct (Persisted.tabs p) as [|t ts]; cbn; discriminate.
Qed.

Lemma TabManagerProvider_returns
    (persisted : option Persisted.t) (uuid : string) (now : number)
    (store : ExplorerStateStore) :
  exists st, TabManagerProvider persisted uuid now store = Returned st
             /\ tabs st = initial_tabs persisted uuid now.
Proof.
  unfold TabManagerProvider.
  pose proof (initial_tabs_nonempty persisted uuid now) as Hne.
  destruct (initial_tabs persisted uuid now) as [|t ts] eqn:E; [congruence|].
  assert (Hfirst : first_id (t :: ts) = Returned (id t)) by reflexivity.
  assert (Hactive : exists a, initial_activeTabId persisted (t :: ts) = Returned a).
  { unfold initial_activeTabId. destruct persisted as [p|]; [|by eexists].
    destruct (_ && _); by eexists. }
  destruct Hactive as [a Ha]. rewrite Ha, Hfirst. cbn.
  assert (Hstore : exists r, initial_store persisted (t :: ts) store = Returned r).
  { unfold initial_store. rewrite Hfirst.
    destruct persisted as [[? ? [?|] ?]|]; by eexists. }
  destruct Hstore as [[store' calls] Hs]. rewrite Hs. cbn.
  eexists. split; reflexivity.
Qed.

Lemma closeTab_tabs_nonempty (tabId activeId : string) (prev : list Tab) :
  prev <> [] -> fst (closeTab_tabs tabId activeId prev) <> [].
Proof.
  intros Hprev. unfold closeTab_tabs.
  destruct (List.filter _ prev) as [|f fs] eqn:E; cbn; [exact Hprev|].
  destruct (JsString.eq tabId activeId); [|discriminate].
  destruct (match item (f :: fs) _ with Some _ => _ | None => _ end); discriminate.
Qed.

Lemma reorderTabs_tabs_length (activeId overId : string) (prev : list Tab) :
  length (reorderTabs_tabs activeId overId prev) = length prev.
Proof.
  unfold reorderTabs_tabs.
  destruct (findIndex_spec (has_id activeId) prev)
    as [[-> _]|(pre & a & post & -> & -> & _ & _)]; [reflexivity|].
  destruct (_ || _); [reflexivity|].
  rewrite splice_out_at. unfold splice_in.
  rewrite length_app. cbn [length]. rewrite length_take, length_drop.
  rewrite !length_app. cbn [length]. lia.
Qed.

Lemma step_keeps_tabs (o : operation) (st : TabManager) :
  tabs st <> [] -> exists st', step o st = Returned st' /\ tabs st' <> [].
Proof.
  intros Hne.
  assert (Hcount : 0 < tab_count st).
  { unfold tab_count. destruct (tabs st); [congruence|cbn; lia]. }
  assert (Hswitch : forall i n st0, tabs (switchTab i n st0) = [] -> tabs st0 = []).
  { intros i n st0. unfold switchTab. destruct (JsString.eq _ _); [auto|].
    cbn. apply map_eq_nil. }
  assert (Hindex : forall i n, 0 <= i < tab_count st ->
            exists st', switch_to_index (Some i) n st = Returned st' /\ tabs st' <> []).
  { intros i n Hi. unfold switch_to_index.
    destruct (item_in_range (tabs st) i Hi) as [t ->].
    eexists. split; [reflexivity|]. intros E. by apply Hswitch in E. }
  pose proof (findIndex_bounds (has_id (activeTabId st)) (tabs st)) as Hfi.
  fold (tab_count st) in Hfi.
  destruct o; cbn [step]; try (eexists; split; [reflexivity|]).
  - unfold createTab. cbn. intros E. by apply app_eq_nil in E as [_ ?].
  - unfold closeTab.
    pose proof (closeTab_tabs_nonempty tabId (activeTabId st) (tabs st) Hne) as H.
    destruct (closeTab_tabs _ _ _) as [ts a]. exact H.
  - intros E. by apply Hswitch in E.
  - cbn. intros E. by apply map_eq_nil in E.
  - cbn. intros E. by apply map_eq_nil in E.
  - cbn. intros E. apply (f_equal length) in E.
    rewrite reorderTabs_tabs_length in E. destruct (tabs st); [congruence|discriminate].
  - unfold nextTab. destruct (Z.eqb_spec (tab_count st) 0) as [?|_]; [lia|].
    apply Hindex. unfold js_rem.
    pose proof (Z.rem_bound_pos (findIndex (has_id (activeTabId st)) (tabs st) + 1)
                  (tab_count st)). lia.
  - unfold previousTab. destruct (Z.eqb_spec (tab_count st) 0) as [?|_]; [lia|].
    apply Hindex. unfold js_rem.
    destruct (Z.eq_dec (tab_count st) 1) as [E1|Hn1].
    + rewrite E1, Z.rem_1_r. lia.
    + pose proof (Z.rem_bound_pos
        (findIndex (has_id (activeTabId st)) (tabs st) - 1 + tab_count st)
        (tab_count st)). lia.
  - unfold selectTabAtIndex.
    destruct (Z.leb_spec 0 index), (Z.ltb_spec index (tab_count st)); cbn;
      try (eexists; split; [reflexivity|exact Hne]).
    apply Hindex. lia.
  - exact Hne.
  - unfold updateExplorerState. cbn. exact Hne.
  - exact Hne.
Qed.

Lemma run_keeps_tabs (ops : list operation) (st : TabManager) :
  tabs st <> [] -> exists st', run ops st = Returned st' /\ tabs st' <> [].
Proof.
  revert st. induction ops as [|o ops IH]; intros st Hne; cbn.
  - by exists st.
  - destruct (step_keeps_tabs o st Hne) as (st1 & -> & Hne1). cbn.
    by apply IH.
Qed.

(** C1: whatever the persisted snapshot, the provider starts with at least
    one tab, and after any sequence of context operations (none of which
    throws) the tab list is still non-empty; [closeTab] in particular keeps
    a list of one tab as it is. *)
Theorem tab_list_never_empty
    (persisted : option Persisted.t) (uuid : string) (now : number)
    (store : ExplorerStateStore) (ops : list operation) :
  exists st0 st,
    TabManagerProvider persisted uuid now store = Returned st0
    /\ tabs st0 <> []
    /\ run ops st0 = Returned st
    /\ tabs st <> []
    /\ (forall tabId, tabs (closeTab tabId st) <> [])
    /\ (forall t, tabs st = [t] -> tabs (closeTab (id t) st) = [t]).
Proof.
  destruct (TabManagerProvider_returns persisted uuid now store) as (st0 & E0 & Ht0).
  assert (Hne0 : tabs st0 <> []) by (rewrite Ht0; apply initial_tabs_nonempty).
  destruct (run_keeps_tabs ops st0 Hne0) as (st & E & Hne).
  exists st0, st. repeat split; try assumption.
  - intros tabId. unfold closeTab.
    pose proof (closeTab_tabs_nonempty tabId (activeTabId st) (tabs st) Hne) as H.
    destruct (closeTab_tabs _ _ _) as [ts a]. exact H.
  - intros t Ht. unfold closeTab, closeTab_tabs. rewrite Ht. cbn.
    assert (Hid : has_id (id t) t = true) by (by apply has_id_true).
    rewrite Hid. reflexivity.
Qed.

(** ** closeTab *)

Lemma filter_app_found (tabId : string) (pre : list Tab) (a : Tab) (post : list Tab) :
  Forall (fun t => has_id tabId t = false) pre -> has_id tabId a = true ->
  List.filter (fun t => negb (has_id tabId t)) (pre ++ a :: post)
  = pre ++ List.filter (fun t => negb (has_id tabId t)) post.
Proof.
  intros Hpre Ha. rewrite List.filter_app. cbn. rewrite Ha. cbn.
  by rewrite filter_keeps_all.
Qed.

(** Two tabs with different ids are not both removed by one [closeTab]. *)
Lemma filter_NoDup_nonempty (tabId : string) (ts : list Tab) :
  NoDup (map id ts) -> (2 <= length ts)%nat ->
  List.filter (fun t => negb (has_id tabId t)) ts <> [].
Proof.
  destruct ts as [|t1 [|t2 ts]]; cbn [length]; try lia.
  intros Hnd _. cbn [map] in Hnd.
  assert (Hne : id t1 <> id t2).
  { intros E. apply NoDup_cons in Hnd as [Hnd _]. apply Hnd. rewrite E. left. }
  cbn. destruct (has_id tabId t1) eqn:E1; cbn; [|discriminate].
  destruct (has_id tabId t2) eqn:E2; cbn; [|discriminate].
  apply has_id_true in E1, E2. congruence.
Qed.

Lemma closeTab_tabs_absent (act : string) (t : Tab) (ts : list Tab) :
  Forall (fun t => has_id act t = false) (t :: ts) ->
  closeTab_tabs act act (t :: ts) = (t :: ts, id t).
Proof.
  intros Hall. unfold closeTab_tabs.
  rewrite (filter_keeps_all _ _ Hall), (findIndex_absent _ _ Hall).
  unfold JsString.eq. rewrite String.eqb_refl. reflexivity.
Qed.

Lemma closeTab_tabs_after (act : string) (pre : list Tab) (p a : Tab) (post : list Tab) :
  Forall (fun t => has_id act t = false) (pre ++ [p]) -> has_id act a = true ->
  closeTab_tabs act act ((pre ++ [p]) ++ a :: post)
  = ((pre ++ [p]) ++ List.filter (fun t => negb (has_id act t)) post, id p).
Proof.
  intros Hpre Ha. unfold closeTab_tabs.
  rewrite (filter_app_found _ _ _ _ Hpre Ha), (findIndex_found _ _ _ _ Hpre Ha).
  unfold JsString.eq. rewrite String.eqb_refl.
  match goal with |- context [Z.eqb ?n 0] => destruct (Z.eqb_spec n 0) as [E0|_] end.
  { rewrite !length_app in E0. cbn in E0. lia. }
  replace (Z.max 0 (Z.of_nat (length (pre ++ [p])) - 1)) with (Z.of_nat (length pre))
    by (rewrite length_app; cbn; lia).
  by rewrite item_app_last.
Qed.

Lemma closeTab_tabs_first (act : string) (a : Tab) (post : list Tab) :
  has_id act a = true ->
  closeTab_tabs act act (a :: post)
  = match List.filter (fun t => negb (has_id act t)) post with
    | [] => (a :: post, act)
    | f :: fs => (f :: fs, id f)
    end.
Proof.
  intros Ha. unfold closeTab_tabs. cbn [List.filter findIndex]. rewrite Ha.
  unfold JsString.eq. rewrite String.eqb_refl. cbn [negb].
  by destruct (List.filter _ post).
Qed.

(** C4: with at least two tabs, closing the active tab leaves an active
    tab id that is the id of a tab of the resulting list: the id of the tab
    just before the closed one in the prior order, or, when the closed tab
    had none before it, the id of the first tab of the resulting list.
    With distinct ids the resulting list is the prior one without the
    closed tab. *)
Theorem closeTab_active_selects_predecessor (st : TabManager) :
  (2 <= length (tabs st))%nat ->
  let st' := closeTab (activeTabId st) st in
  let i := findIndex (has_id (activeTabId st)) (tabs st) in
  (exists t, In t (tabs st') /\ id t = activeTabId st')
  /\ (1 <= i -> exists t, item (tabs st) (i - 1) = Some t /\ activeTabId st' = id t)
  /\ (i <= 0 -> exists t, item (tabs st') 0 = Some t /\ activeTabId st' = id t)
  /\ (NoDup (map id (tabs st)) ->
      tabs st' = List.filter (fun t => negb (has_id (activeTabId st) t)) (tabs st)).
Proof.
  destruct st as [ts act sel dflt store log]. cbn [tabs activeTabId].
  intros Hlen. cbv zeta. unfold closeTab. cbn [tabs activeTabId].
  destruct (findIndex_spec (has_id act) ts)
    as [[Ei Hall]|(pre & a & post & -> & Ei & Ha & Hpre)].
  - (* the active id names no tab: nothing is removed, the first tab is chosen *)
    destruct ts as [|t ts]; [cbn in Hlen; lia|].
    rewrite (closeTab_tabs_absent _ _ _ Hall), Ei. cbn [tabs activeTabId].
    rewrite (filter_keeps_all _ _ Hall). repeat split.
    + exists t. split; [by left|reflexivity].
    + lia.
    + intros _. by exists t.
  - rewrite Ei.
    destruct (last_cases pre) as [(pre' & p & ->)| ->].
    + (* some tab precedes the closed one *)
      rewrite (closeTab_tabs_after _ _ _ _ _ Hpre Ha). cbn [tabs activeTabId].
      repeat split.
      * exists p. split; [|reflexivity].
        apply in_or_app. left. apply in_or_app. right. by left.
      * intros _. exists p. split; [|reflexivity].
        replace (Z.of_nat (length (pre' ++ [p])) - 1) with (Z.of_nat (length pre'))
          by (rewrite length_app; cbn; lia).
        apply item_app_last.
      * intros Hi. rewrite length_app in Hi. cbn in Hi. lia.
      * intros _. by rewrite (filter_app_found _ _ _ _ Hpre Ha).
    + (* the closed tab is the first one *)
      cbn [app length]. rewrite (closeTab_tabs_first _ _ _ Ha).
      cbn [List.filter]. rewrite Ha. cbn [negb].
      destruct (List.filter _ post) as [|f fs] eqn:Ef; cbn [tabs activeTabId].
      * repeat split.
        -- exists a. split; [by left|]. by apply has_id_true.
        -- cbn. lia.
        -- intros _. exists a. split; [reflexivity|].
           symmetry. by apply has_id_true.
        -- intros Hnd. exfalso.
           apply (filter_NoDup_nonempty act (a :: post) Hnd Hlen).
           cbn. rewrite Ha. cbn. exact Ef.
      * repeat split.
        -- exists f. split; [by left|reflexivity].
        -- cbn. lia.
        -- intros _. by exists f.
Qed.

Example closeTab_middle_tab :
  activeTabId (closeTab "b" three_tabs) = "a"%string
  /\ tabs (closeTab "b" three_tabs) = [tab_named "a"; tab_named "c"].
Proof. split; reflexivity. Qed.

Lemma closeTab_active_selects_predecessor_witness :
  (2 <= length (tabs three_tabs))%nat
  /\ exists t, In t (tabs (closeTab (activeTabId three_tabs) three_tabs))
               /\ id t = activeTabId (closeTab (activeTabId three_tabs) three_tabs).
Proof.
  assert (Hlen : (2 <= length (tabs three_tabs))%nat) by (cbn; lia).
  split; [exact Hlen|].
  exact (proj1 (closeTab_active_selects_predecessor three_tabs Hlen)).
Defined.

(** ** reorderTabs *)

Lemma set_tabs_same (st : TabManager) : set_tabs (tabs st) st = st.
Proof. by destruct st. Qed.

Lemma reorderTabs_tabs_noop (activeId overId : string) (prev : list Tab) :
  findIndex (has_id activeId) prev = -1
  \/ findIndex (has_id overId) prev = -1
  \/ activeId = overId ->
  reorderTabs_tabs activeId overId prev = prev.
Proof.
  unfold reorderTabs_tabs. intros [E|[E|E]]; rewrite E.
  - reflexivity.
  - by rewrite orb_true_r.
  - by rewrite Z.eqb_refl, orb_true_r.
Qed.

(** Moving a tab onto its right neighbour swaps the two. *)
Lemma reorderTabs_tabs_right (a b : string) (pre : list Tab) (A B : Tab) (post : list Tab) :
  Forall (fun t => has_id a t = false) pre ->
  Forall (fun t => has_id b t = false) pre ->
  has_id a A = true -> has_id b A = false -> has_id b B = true ->
  reorderTabs_tabs a b (pre ++ A :: B :: post) = pre ++ B :: A :: post.
Proof.
  intros Hpa Hpb HaA HbA HbB. unfold reorderTabs_tabs.
  rewrite (findIndex_found _ _ _ _ Hpa HaA).
  rewrite (findIndex_found_next _ _ _ _ _ Hpb HbA HbB).
  destruct (Z.eqb_spec (Z.of_nat (length pre)) (-1)); [lia|].
  destruct (Z.eqb_spec (Z.of_nat (length pre) + 1) (-1)); [lia|].
  destruct (Z.eqb_spec (Z.of_nat (length pre)) (Z.of_nat (length pre) + 1)); [lia|].
  cbn [orb]. rewrite splice_out_at. apply splice_in_next.
Qed.

(** Moving a tab onto its left neighbour swaps the two. *)
Lemma reorderTabs_tabs_left (a b : string) (pre : list Tab) (B A : Tab) (post : list Tab) :
  Forall (fun t => has_id a t = false) pre ->
  Forall (fun t => has_id b t = false) pre ->
  has_id b B = true -> has_id a B = false -> has_id a A = true ->
  reorderTabs_tabs a b (pre ++ B :: A :: post) = pre ++ A :: B :: post.
Proof.
  intros Hpa Hpb HbB HaB HaA. unfold reorderTabs_tabs.
  rewrite (findIndex_found _ _ _ _ Hpb HbB).
  rewrite (findIndex_found_next _ _ _ _ _ Hpa HaB HaA).
  destruct (Z.eqb_spec (Z.of_nat (length pre) + 1) (-1)); [lia|].
  destruct (Z.eqb_spec (Z.of_nat (length pre)) (-1)); [lia|].
  destruct (Z.eqb_spec (Z.of_nat (length pre) + 1) (Z.of_nat (length pre))); [lia|].
  cbn [orb]. rewrite splice_out_next. apply splice_in_at.
Qed.

(** The shape of a list in which [b]'s first tab follows [a]'s first tab
    directly. *)
Lemma adjacent_shape (a b : string) (prev : list Tab) :
  findIndex (has_id a) prev <> -1 ->
  findIndex (has_id b) prev = findIndex (has_id a) prev + 1 ->
  exists pre A B post,
    prev = pre ++ A :: B :: post
    /\ Forall (fun t => has_id a t = false) pre
    /\ Forall (fun t => has_id b t = false) pre
    /\ has_id a A = true /\ has_id b A = false
    /\ has_id b B = true /\ has_id a B = false.
Proof.
  intros Ha Hb.
  destruct (findIndex_spec (has_id a) prev)
    as [[E _]|(pre & A & post & -> & Ea & HA & Hpre)]; [congruence|].
  rewrite Ea in Hb.
  destruct (findIndex_spec (has_id b) (pre ++ A :: post))
    as [[E _]|(pre2 & B & post2 & Esplit & Eb & HB & Hpre2)]; [lia|].
  rewrite Eb in Hb.
  assert (Hlen : length pre2 = length (pre ++ [A])) by (rewrite length_app; cbn; lia).
  replace (pre ++ A :: post) with ((pre ++ [A]) ++ post) in Esplit
    by (by rewrite <- app_assoc).
  symmetry in Esplit. apply app_inj_1 in Esplit as [-> Epost]; [|exact Hlen].
  subst post. apply Forall_app in Hpre2 as [Hpb HbA].
  apply Forall_inv in HbA.
  exists pre, A, B, post2. repeat split; try assumption.
  destruct (has_id a B) eqn:HaB; [|reflexivity].
  apply has_id_true in HA, HB, HaB. apply has_id_false in HbA. congruence.
Qed.

(** C8, as the code has it: when the first tabs of [a] and [b] are
    neighbours in the list, [reorderTabs(a, b)] followed by
    [reorderTabs(b, a)] restores the state; and [reorderTabs] changes
    nothing when either id is missing or the two ids are equal. *)
Theorem reorderTabs_adjacent_round_trip (a b : string) (st : TabManager) :
  let i := findIndex (has_id a) (tabs st) in
  let j := findIndex (has_id b) (tabs st) in
  (i <> -1 -> j <> -1 -> j = i + 1 \/ i = j + 1 ->
   reorderTabs b a (reorderTabs a b st) = st)
  /\ (i = -1 \/ j = -1 \/ a = b -> reorderTabs a b st = st).
Proof.
  cbv zeta. split.
  - intros Hi Hj Hadj.
    assert (Hlists : reorderTabs_tabs b a (reorderTabs_tabs a b (tabs st)) = tabs st).
    { destruct Hadj as [E|E].
      - destruct (adjacent_shape a b (tabs st) Hi E)
          as (pre & A & B & post & -> & Hpa & Hpb & HaA & HbA & HbB & HaB).
        rewrite (reorderTabs_tabs_right a b pre A B post) by assumption.
        by rewrite (reorderTabs_tabs_right b a pre B A post).
      - destruct (adjacent_shape b a (tabs st) Hj E)
          as (pre & B & A & post & -> & Hpb & Hpa & HbB & HaB & HaA & HbA).
        rewrite (reorderTabs_tabs_left a b pre B A post) by assumption.
        by rewrite (reorderTabs_tabs_left b a pre A B post). }
    unfold reorderTabs. destruct st. cbn in *. by rewrite Hlists.
  - intros H. unfold reorderTabs.
    rewrite reorderTabs_tabs_noop by exact H. apply set_tabs_same.
Qed.

Lemma reorderTabs_adjacent_round_trip_witness :
  reorderTabs "b" "a" (reorderTabs "a" "b" three_tabs) = three_tabs
  /\ reorderTabs "a" "zz" three_tabs = three_tabs.
Proof.
  split.
  - apply (proj1 (reorderTabs_adjacent_round_trip "a" "b" three_tabs)).
    + vm_compute. discriminate.
    + vm_compute. discriminate.
    + left. vm_compute. reflexivity.
  - apply (proj2 (reorderTabs_adjacent_round_trip "a" "zz" three_tabs)).
    right. left. vm_compute. reflexivity.
Defined.

(** C8 as stated fails when a tab stands between the two: from a, b, c the
    two calls on a and c give b, a, c. *)
Lemma reorderTabs_round_trip_counterexample :
  findIndex (has_id "a") (tabs three_tabs) = 0
  /\ findIndex (has_id "c") (tabs three_tabs) = 2
  /\ tabs (reorderTabs "a" "c" three_tabs) = [tab_named "b"; tab_named "c"; tab_named "a"]
  /\ tabs (reorderTabs "c" "a" (reorderTabs "a" "c" three_tabs))
     = [tab_named "b"; tab_named "a"; tab_named "c"]
  /\ reorderTabs "c" "a" (reorderTabs "a" "c" three_tabs) <> three_tabs.
Proof.
  repeat split. intros E. apply (f_equal tabs) in E. vm_compute in E. discriminate.
Qed.

(** ** Operations on a tab id that names no tab *)

Lemma not_in_ids (tabId : string) (ts : list Tab) :
  ~ In tabId (map id ts) -> Forall (fun t => has_id tabId t = false) ts.
Proof.
  intros Hnot. apply List.Forall_forall. intros t Ht.
  apply has_id_false. intros E. apply Hnot. rewrite <- E. by apply in_map.
Qed.

Lemma map_unknown_id (tabId : string) (f : Tab -> Tab) (ts : list Tab) :
  Forall (fun t => has_id tabId t = false) ts ->
  map (fun tab => if has_id tabId tab then f tab else tab) ts = ts.
Proof.
  induction 1 as [|t ts Ht _ IH]; cbn; [reflexivity|]. by rewrite Ht, IH.
Qed.

Lemma closeTab_tabs_unknown (tabId activeId : string) (prev : list Tab) :
  Forall (fun t => has_id tabId t = false) prev -> tabId <> activeId ->
  closeTab_tabs tabId activeId prev = (prev, activeId).
Proof.
  intros Hall Hne. unfold closeTab_tabs. rewrite (filter_keeps_all _ _ Hall).
  destruct (Z.eqb _ 0); [reflexivity|].
  unfold JsString.eq. apply String.eqb_neq in Hne. by rewrite Hne.
Qed.

(** C2, as the code has it: for a tab id that names no tab, none of the
    operations taking a tab id throws; [updateTabTitle], [updateTabPath]
    and [reorderTabs] leave the state as it is; [closeTab] leaves the tab
    list as it is, and the active tab id too unless the id is the active
    tab id itself (the first tab is then made active); it deletes that
    id's entries from the explorer state store and the selection state and
    calls every listener of the store once with the id, so that stores
    holding no entry for the id keep their contents; [switchTab] leaves the
    tab list and both stores as they are and calls no listener. *)
Theorem unknown_tab_id_operations
    (tabId other text : string) (now : number) (st : TabManager) :
  ~ In tabId (map id (tabs st)) ->
  (forall o, In o (on_tab_id tabId other text now) -> exists st', step o st = Returned st')
  /\ updateTabTitle tabId text st = st
  /\ updateTabPath tabId text st = st
  /\ reorderTabs tabId other st = st
  /\ reorderTabs other tabId st = st
  /\ tabs (closeTab tabId st) = tabs st
  /\ (tabId <> activeTabId st -> activeTabId (closeTab tabId st) = activeTabId st)
  /\ (tabId = activeTabId st ->
      activeTabId (closeTab tabId st) = default tabId (id <$> head (tabs st)))
  /\ defaultNewTabPath (closeTab tabId st) = defaultNewTabPath st
  /\ states (explorerStateStore (closeTab tabId st))
     = delete tabId (states (explorerStateStore st))
  /\ listeners (explorerStateStore (closeTab tabId st))
     = listeners (explorerStateStore st)
  /\ delivered (closeTab tabId st)
     = delivered st ++ map (fun l => (l, tabId)) (listeners (explorerStateStore st))
  /\ selectionStates (closeTab tabId st) = delete tabId (selectionStates st)
  /\ (states (explorerStateStore st) !! tabId = None ->
      explorerStateStore (closeTab tabId st) = explorerStateStore st)
  /\ (selectionStates st !! tabId = None ->
      selectionStates (closeTab tabId st) = selectionStates st)
  /\ tabs (switchTab tabId now st) = tabs st
  /\ explorerStateStore (switchTab tabId now st) = explorerStateStore st
  /\ selectionStates (switchTab tabId now st) = selectionStates st
  /\ delivered (switchTab tabId now st) = delivered st
  /\ defaultNewTabPath (switchTab tabId now st) = defaultNewTabPath st.
Proof.
  intros Hnot.
  pose proof (not_in_ids _ _ Hnot) as Hall.
  assert (Hfi : findIndex (has_id tabId) (tabs st) = -1) by (by apply findIndex_absent).
  assert (Htabs : fst (closeTab_tabs tabId (activeTabId st) (tabs st)) = tabs st).
  { unfold closeTab_tabs. rewrite (filter_keeps_all _ _ Hall).
    destruct (Z.eqb _ 0); [reflexivity|].
    destruct (JsString.eq _ _); [|reflexivity].
    by destruct (match item (tabs st) _ with
                 | Some t => Some t
                 | None => item (tabs st) 0
                 end). }
  assert (Hother : tabId <> activeTabId st ->
                   snd (closeTab_tabs tabId (activeTabId st) (tabs st)) = activeTabId st).
  { intros Hne. by rewrite closeTab_tabs_unknown. }
  assert (Hself : tabId = activeTabId st ->
                  snd (closeTab_tabs tabId (activeTabId st) (tabs st))
                  = default tabId (id <$> head (tabs st))).
  { intros <-. unfold closeTab_tabs. rewrite (filter_keeps_all _ _ Hall), Hfi.
    destruct (tabs st) as [|t ts]; [reflexivity|].
    cbn [length head fmap option_fmap option_map default].
    destruct (Z.eqb_spec (Z.of_nat (S (length ts))) 0); [lia|].
    unfold JsString.eq. by rewrite String.eqb_refl. }
  split; [|split; [|split; [|split; [|split]]]].
  - intros o Ho. cbn in Ho.
    destruct Ho as [<-|[<-|[<-|[<-|[<-|[<-|[]]]]]]]; cbn; by eexists.
  - unfold updateTabTitle. rewrite map_unknown_id by exact Hall. apply set_tabs_same.
  - unfold updateTabPath. rewrite map_unknown_id by exact Hall. apply set_tabs_same.
  - unfold reorderTabs. rewrite reorderTabs_tabs_noop by (by left). apply set_tabs_same.
  - unfold reorderTabs. rewrite reorderTabs_tabs_noop by (right; by left).
    apply set_tabs_same.
  - unfold closeTab.
    destruct (closeTab_tabs tabId (activeTabId st) (tabs st)) as [ts active].
    cbn in Htabs, Hother, Hself |- *.
    split; [exact Htabs|]. split; [exact Hother|]. split; [exact Hself|].
    repeat split.
    + intros Hnone. destruct (explorerStateStore st) as [m ls]. cbn in *.
      by rewrite delete_id.
    + intros Hnone. by apply delete_id.
    + unfold switchTab. destruct (JsString.eq _ _); [reflexivity|]. cbn.
      by apply map_unknown_id.
    + unfold switchTab. by destruct (JsString.eq _ _).
    + unfold switchTab. by destruct (JsString.eq _ _).
    + unfold switchTab. by destruct (JsString.eq _ _).
    + unfold switchTab. by destruct (JsString.eq _ _).
Qed.

Example one_tab_is_initial :
  TabManagerProvider None "t1" (int 0) Store.new = Returned one_tab.
Proof. reflexivity. Qed.

Lemma unknown_tab_id_operations_witness :
  updateTabTitle "ghost" "x" with_ghost_entries = with_ghost_entries
  /\ tabs (closeTab "ghost" with_ghost_entries) = tabs with_ghost_entries
  /\ activeTabId (closeTab "ghost" with_ghost_entries) = activeTabId with_ghost_entries.
Proof.
  assert (H1 : ~ In "ghost"%string (map id (tabs with_ghost_entries))).
  { cbn. intros [E|[]]. discriminate E. }
  destruct (unknown_tab_id_operations "ghost" "t1" "x" (int 0) with_ghost_entries H1)
    as (_ & Ht & _ & _ & _ & Hc & Ha & _).
  split; [exact Ht|]. split; [exact Hc|]. apply Ha. discriminate.
Defined.

(** C2 as stated fails: [switchTab] with an id that names no tab moves
    the active tab id to it; [closeTab] with such an id deletes the
    entries the two stores hold for it; and once that id is the active
    one, [closeTab] with it moves the active tab id to the first tab. *)
Lemma unknown_tab_id_counterexample :
  map id (tabs with_ghost_entries) = ["t1"%string]
  /\ activeTabId with_ghost_entries = "t1"%string
  /\ activeTabId (switchTab "ghost" (int 5) with_ghost_entries) = "ghost"%string
  /\ sortBy (getExplorerState "ghost" with_ghost_entries) = SortSize
  /\ sortBy (getExplorerState "ghost" (closeTab "ghost" with_ghost_entries)) = SortName
  /\ getSelectionIds "ghost" with_ghost_entries = ["f1"%string]
  /\ getSelectionIds "ghost" (closeTab "ghost" with_ghost_entries) = []
  /\ map id (tabs (switchTab "ghost" (int 5) with_ghost_entries)) = ["t1"%string]
  /\ activeTabId (closeTab "ghost" (switchTab "ghost" (int 5) with_ghost_entries))
     = "t1"%string.
Proof. repeat split; vm_compute; reflexivity. Qed.

(** ** closeTab on the only tab *)

Lemma closeTab_only_tab (t : Tab) (st : TabManager) :
  tabs st = [t] ->
  tabs (closeTab (id t) st) = [t]
  /\ activeTabId (closeTab (id t) st) = activeTabId st
  /\ states (explorerStateStore (closeTab (id t) st))
     = delete (id t) (states (explorerStateStore st))
  /\ selectionStates (closeTab (id t) st) = delete (id t) (selectionStates st).
Proof.
  intros Ht. unfold closeTab, closeTab_tabs. rewrite Ht. cbn.
  assert (Hid : has_id (id t) t = true) by (by apply has_id_true).
  rewrite Hid. cbn. repeat split.
Qed.

(** C3, at the failing input: closing the only tab keeps the tab list and
    the active tab id, and yet deletes the tab's entry from the explorer
    state store (its sort key falls back from 'size' to the default
    'name') and its selection. *)
Theorem closeTab_only_tab_clears_its_state :
  tabs one_tab_in_use = [tab_named "t1"]
  /\ tabs (closeTab "t1" one_tab_in_use) = tabs one_tab_in_use
  /\ activeTabId (closeTab "t1" one_tab_in_use) = activeTabId one_tab_in_use
  /\ sortBy (getExplorerState "t1" one_tab_in_use) = SortSize
  /\ states (explorerStateStore (closeTab "t1" one_tab_in_use)) !! "t1"%string = None
  /\ sortBy (getExplorerState "t1" (closeTab "t1" one_tab_in_use)) = SortName
  /\ getSelectionIds "t1" one_tab_in_use = ["f1"%string]
  /\ getSelectionIds "t1" (closeTab "t1" one_tab_in_use) = [].
Proof. repeat split; vm_compute; reflexivity. Qed.

(** ** Loading the persisted snapshot *)

(** What [loadPersistedState] accepts: a non-empty stored string that
    parses, whose [tabs] is an array, whose [activeTabId] is a string and
    whose [explorerStates] has type 'object'. *)
Lemma loadPersistedState_accepts (r : storage_read) (parsed : json) :
  loadPersistedState r = Some parsed <->
  exists stored,
    r = ReadValue (Some stored)
    /\ stored <> EmptyString
    /\ Json.parse stored = Some parsed
    /\ JsValue.isArray (JsValue.get_opt "tabs" (Some parsed)) = true
    /\ JsValue.typeof (JsValue.get_opt "activeTabId" (Some parsed)) = "string"%string
    /\ JsValue.typeof (JsValue.get_opt "explorerStates" (Some parsed)) = "object"%string.
Proof.
  unfold loadPersistedState, loadPersistedState_try. split.
  - destruct r as [|[stored|]]; try discriminate.
    destruct (String.eqb_spec stored EmptyString) as [->|Hne]; [discriminate|].
    unfold JsString.truthy. apply String.eqb_neq in Hne as Hb. rewrite Hb. cbn [negb].
    destruct (Json.parse stored) as [p|] eqn:Ep; [|discriminate].
    destruct p; cbn; try discriminate.
    destruct (JsValue.isArray _) eqn:Ea; cbn; [|discriminate].
    destruct (String.eqb_spec (JsValue.typeof (Json.member "activeTabId" members)) "string")
      as [Es|_]; cbn; [|discriminate].
    destruct (String.eqb_spec (JsValue.typeof (Json.member "explorerStates" members)) "object")
      as [Eo|_]; cbn; [|discriminate].
    intros [= <-]. exists stored. repeat split; assumption.
  - intros (stored & -> & Hne & Ep & Ea & Es & Eo).
    unfold JsString.truthy. apply String.eqb_neq in Hne. rewrite Hne, Ep. cbn [negb].
    destruct parsed; try discriminate Ea. cbn in *.
    rewrite Ea, Es, Eo. reflexivity.
Qed.

(** Unreadable storage, no stored value, an empty one, text that does not
    parse, a [tabs] that is no array and an [activeTabId] that is no string
    all make [loadPersistedState] return null. *)
Lemma loadPersistedState_rejects (r : storage_read) :
  r = ReadThrows
  \/ r = ReadValue None
  \/ (exists stored, r = ReadValue (Some stored)
        /\ (stored = EmptyString
            \/ Json.parse stored = None
            \/ exists parsed, Json.parse stored = Some parsed
                 /\ (JsValue.isArray (JsValue.get_opt "tabs" (Some parsed)) = false
                     \/ JsValue.typeof (JsValue.get_opt "activeTabId" (Some parsed))
                        <> "string"%string
                     \/ JsValue.typeof (JsValue.get_opt "explorerStates" (Some parsed))
                        <> "object"%string))) ->
  loadPersistedState r = None.
Proof.
  intros H. destruct (loadPersistedState r) as [parsed|] eqn:E; [|reflexivity].
  exfalso. apply loadPersistedState_accepts in E
    as (stored & -> & Hne & Ep & Ea & Es & Eo).
  destruct H as [H|[H|(stored' & [= <-] & H)]]; try discriminate.
  destruct H as [H|[H|(parsed' & Ep' & H)]]; try congruence.
  assert (parsed' = parsed) as -> by congruence.
  destruct H as [H|[H|H]]; congruence.
Qed.

(** With no snapshot the provider starts from one fresh tab at "/". *)
Lemma TabManagerProvider_fallback (uuid : string) (now : number) (store : ExplorerStateStore) :
  exists st,
    TabManagerProvider None uuid now store = Returned st
    /\ tabs st = [{| id := uuid; title := "Overview"; icon := None; isPinned := false;
                     lastActive := now; savedPath := "/" |}]
    /\ activeTabId st = uuid
    /\ defaultNewTabPath st = "/"%string
    /\ getExplorerState uuid st = DEFAULT_EXPLORER_STATE.
Proof.
  eexists. split; [reflexivity|]. cbn. repeat split.
  unfold getExplorerState, Store.getState. cbn. by rewrite lookup_insert_eq.
Qed.

(** Whatever [loadPersistedState] rejects, the provider starts from one
    fresh tab at "/" and does not throw. *)
Lemma startup_fallback (r : storage_read) (uuid : string) (now : number)
    (store : ExplorerStateStore) :
  loadPersistedState r = None ->
  exists st,
    startup r uuid now store = Some (Returned st)
    /\ tabs st = [initial_tab uuid now]
    /\ savedPath (initial_tab uuid now) = "/"%string
    /\ activeTabId st = uuid.
Proof.
  intros Hnone. unfold startup. rewrite Hnone.
  destruct (TabManagerProvider_fallback uuid now store) as (st & -> & Ht & Ha & _).
  exists st. repeat split; assumption.
Qed.

(** C7, at the failing input: a stored snapshot whose [explorerStates] is
    [null], which is no keyed mapping, passes the validation
    ([typeof null] is 'object'); the provider adopts its tab list and
    active tab id instead of starting from the fresh default tab. *)
Theorem loadPersistedState_keeps_null_explorerStates :
  Json.parse null_table_blob = Some null_table_snapshot
  /\ JsValue.get_opt "explorerStates" (Some null_table_snapshot) = Some JNull
  /\ loadPersistedState (ReadValue (Some null_table_blob)) = Some null_table_snapshot
  /\ exists st,
       startup (ReadValue (Some null_table_blob)) "fresh" (int 1700000000999) Store.new
       = Some (Returned st)
       /\ tabs st = [documents_tab]
       /\ activeTabId st = "a"%string
       /\ tabs st <> [initial_tab "fresh" (int 1700000000999)]
       /\ getExplorerState "a" st = DEFAULT_EXPLORER_STATE.
Proof.
  assert (Hparse : Json.parse null_table_blob = Some null_table_snapshot)
    by (vm_compute; reflexivity).
  assert (Hload : loadPersistedState (ReadValue (Some null_table_blob))
                  = Some null_table_snapshot).
  { apply loadPersistedState_accepts. exists null_table_blob.
    repeat split; try (vm_compute; reflexivity); try exact Hparse.
    vm_compute. discriminate. }
  split; [exact Hparse|]. split; [reflexivity|]. split; [exact Hload|].
  unfold startup. rewrite Hload.
  eexists. split; [vm_compute; reflexivity|].
  repeat split. discriminate.
Qed.

(* ====================================================================== *)
(** * Further properties of the provider *)
(* ====================================================================== *)

(** ** What the operations do to the list of ids *)

Lemma names_tab_In (tabId : string) (st : TabManager) :
  names_tab tabId st = true <-> In tabId (map id (tabs st)).
Proof.
  unfold names_tab. rewrite existsb_exists, in_map_iff. split.
  - intros (t & Ht & Hid). exists t. split; [by apply has_id_true|exact Ht].
  - intros (t & Hid & Ht). exists t. split; [exact Ht|by apply has_id_true].
Qed.

Lemma item_In {A : Type} (xs : list A) (i : Z) (a : A) :
  item xs i = Some a -> In a xs.
Proof.
  unfold item. destruct (i <? 0); [discriminate|]. apply nth_error_In.
Qed.

Lemma map_if_ids (test : Tab -> bool) (f : Tab -> Tab) (ts : list Tab) :
  (forall t, id (f t) = id t) ->
  map id (map (fun tab => if test tab then f tab else tab) ts) = map id ts.
Proof.
  intros Hf. induction ts as [|t ts IH]; cbn; [reflexivity|].
  rewrite IH. by destruct (test t); [rewrite Hf|].
Qed.

Lemma switchTab_ids (tabId : string) (now : number) (st : TabManager) :
  map id (tabs (switchTab tabId now st)) = map id (tabs st).
Proof.
  unfold switchTab. destruct (JsString.eq _ _); [reflexivity|]. cbn.
  by apply map_if_ids.
Qed.

Lemma switchTab_active (tabId : string) (now : number) (st : TabManager) :
  activeTabId (switchTab tabId now st) = tabId.
Proof.
  unfold switchTab. destruct (JsString.eq tabId (activeTabId st)) eqn:E; [|reflexivity].
  symmetry. by apply String.eqb_eq.
Qed.

Lemma updateTabTitle_ids (tabId newTitle : string) (st : TabManager) :
  map id (tabs (updateTabTitle tabId newTitle st)) = map id (tabs st).
Proof. cbn. by apply map_if_ids. Qed.

Lemma updateTabPath_ids (tabId path : string) (st : TabManager) :
  map id (tabs (updateTabPath tabId path st)) = map id (tabs st).
Proof. cbn. by apply map_if_ids. Qed.

(** [reorderTabs] rearranges the tabs: none is lost, none is added. *)
Lemma reorderTabs_tabs_Permutation (activeId overId : string) (prev : list Tab) :
  Permutation (reorderTabs_tabs activeId overId prev) prev.
Proof.
  unfold reorderTabs_tabs.
  destruct (findIndex_spec (has_id activeId) prev)
    as [[-> _]|(pre & a & post & -> & -> & _ & _)]; [reflexivity|].
  destruct (_ || _); [reflexivity|].
  rewrite splice_out_at. unfold splice_in.
  rewrite <- Permutation_middle.
  rewrite (take_drop (Z.to_nat (findIndex (has_id overId) (pre ++ a :: post)))).
  by rewrite Permutation_middle.
Qed.

Lemma closeTab_parts (tabId : string) (st : TabManager) :
  tabs (closeTab tabId st) = fst (closeTab_tabs tabId (activeTabId st) (tabs st))
  /\ activeTabId (closeTab tabId st)
     = snd (closeTab_tabs tabId (activeTabId st) (tabs st))
  /\ states (explorerStateStore (closeTab tabId st))
     = delete tabId (states (explorerStateStore st))
  /\ selectionStates (closeTab tabId st) = delete tabId (selectionStates st)
  /\ defaultNewTabPath (closeTab tabId st) = defaultNewTabPath st.
Proof. unfold closeTab. destruct (closeTab_tabs _ _ _). by cbn. Qed.

(** The tab list of [closeTab]: the tabs of other ids, unless none is
    left. *)
Lemma closeTab_tabs_fst (tabId activeId : string) (prev : list Tab) :
  fst (closeTab_tabs tabId activeId prev)
  = match List.filter (fun t => negb (has_id tabId t)) prev with
    | [] => prev
    | f :: fs => f :: fs
    end.
Proof.
  unfold closeTab_tabs. destruct (List.filter _ prev) as [|f fs]; [reflexivity|].
  cbn [length]. destruct (Z.eqb_spec (Z.of_nat (S (length fs))) 0); [lia|].
  destruct (JsString.eq _ _); [|reflexivity].
  by destruct (match item (f :: fs) _ with Some _ => _ | None => _ end).
Qed.

Lemma closeTab_tabs_keeps_active (tabId activeId : string) (prev : list Tab) :
  In activeId (map id prev) ->
  In (snd (closeTab_tabs tabId activeId prev))
     (map id (fst (closeTab_tabs tabId activeId prev))).
Proof.
  intros Hin. unfold closeTab_tabs.
  destruct (List.filter _ prev) as [|f fs] eqn:Ef; [exact Hin|].
  cbn [length]. destruct (Z.eqb_spec (Z.of_nat (S (length fs))) 0); [lia|].
  destruct (JsString.eq tabId activeId) eqn:E.
  - destruct (item (f :: fs) _) as [t|] eqn:Ei; rewrite ?item_head; cbn [fst snd].
    + apply item_In in Ei. by apply in_map.
    + apply in_map. by left.
  - cbn [fst snd]. apply in_map_iff in Hin as (t & Hid & Ht).
    apply in_map_iff. exists t. split; [exact Hid|]. rewrite <- Ef.
    apply filter_In. split; [exact Ht|].
    apply String.eqb_neq in E. apply negb_true_iff, has_id_false. congruence.
Qed.

Lemma switch_to_index_spec (i : option Z) (now : number) (st st' : TabManager) :
  switch_to_index i now st = Returned st' ->
  exists k t, i = Some k /\ item (tabs st) k = Some t /\ st' = switchTab (id t) now st.
Proof.
  unfold switch_to_index. destruct i as [k|]; [|discriminate].
  destruct (item (tabs st) k) as [t|] eqn:E; [|discriminate].
  intros [= <-]. by exists k, t.
Qed.

Lemma switch_to_index_known (i : option Z) (now : number) (st st' : TabManager) :
  switch_to_index i now st = Returned st' ->
  In (activeTabId st') (map id (tabs st'))
  /\ map id (tabs st') = map id (tabs st).
Proof.
  intros H. apply switch_to_index_spec in H as (k & t & _ & Ht & ->).
  rewrite switchTab_ids, switchTab_active. split; [|reflexivity].
  apply in_map. by apply item_In in Ht.
Qed.

Lemma step_keeps_active_known (o : operation) (st st' : TabManager) :
  switches_to_tabs o st = true ->
  In (activeTabId st) (map id (tabs st)) ->
  step o st = Returned st' ->
  In (activeTabId st') (map id (tabs st')).
Proof.
  intros Hguard Hin Hstep.
  destruct o; cbn [step switches_to_tabs] in *;
    try (injection Hstep as <-).
  - unfold createTab. cbn. rewrite map_app. apply in_or_app. right. by left.
  - destruct (closeTab_parts tabId st) as (-> & -> & _).
    by apply closeTab_tabs_keeps_active.
  - rewrite switchTab_ids, switchTab_active. by apply names_tab_In.
  - by rewrite updateTabTitle_ids.
  - by rewrite updateTabPath_ids.
  - cbn. eapply Permutation_in; [|exact Hin].
    apply Permutation_map. symmetry. apply reorderTabs_tabs_Permutation.
  - by apply switch_to_index_known in Hstep as [? _].
  - by apply switch_to_index_known in Hstep as [? _].
  - unfold selectTabAtIndex in Hstep. destruct (_ && _).
    + by apply switch_to_index_known in Hstep as [? _].
    + by injection Hstep as <-.
  - exact Hin.
  - unfold updateExplorerState. by cbn.
  - exact Hin.
Qed.

Lemma TabManagerProvider_active_known
    (persisted : option Persisted.t) (uuid : string) (now : number)
    (store : ExplorerStateStore) (st : TabManager) :
  TabManagerProvider persisted uuid now store = Returned st ->
  In (activeTabId st) (map id (tabs st)).
Proof.
  unfold TabManagerProvider.
  pose proof (initial_tabs_nonempty persisted uuid now) as Hne.
  destruct (initial_tabs persisted uuid now) as [|t ts] eqn:Ets; [congruence|].
  assert (Hfirst : first_id (t :: ts) = Returned (id t)) by reflexivity.
  assert (Hactive : exists a, initial_activeTabId persisted (t :: ts) = Returned a
                              /\ In a (map id (t :: ts))).
  { unfold initial_activeTabId. destruct persisted as [p|];
      [|exists (id t); split; [reflexivity|by left]].
    destruct (JsString.truthy _ && existsb _ _) eqn:E;
      [|exists (id t); split; [reflexivity|by left]].
    exists (Persisted.activeTabId p). split; [reflexivity|].
    apply andb_true_iff in E as [_ E]. apply existsb_exists in E as (x & Hx & Hid).
    unfold initial_tabs in Ets. destruct (Persisted.tabs p) as [|p0 ps] eqn:Ep;
      [destruct Hx|].
    cbn in Ets. rewrite <- Ets. apply has_id_true in Hid. rewrite <- Hid.
    by apply in_map. }
  destruct Hactive as (a & -> & Ha). rewrite Hfirst. cbn.
  destruct (initial_store persisted (t :: ts) store) as [[s c]|]; [|discriminate].
  cbn. by intros [= <-].
Qed.

(** X1: the active tab id names a tab of the list when the provider
    mounts, and still does after any run of operations in which [switchTab]
    is only called with the id of a tab. *)
Theorem active_tab_always_exists
    (persisted : option Persisted.t) (uuid : string) (now : number)
    (store : ExplorerStateStore) (ops : list operation) (st0 st : TabManager) :
  TabManagerProvider persisted uuid now store = Returned st0 ->
  guarded switches_to_tabs ops st0 = true ->
  run ops st0 = Returned st ->
  In (activeTabId st0) (map id (tabs st0))
  /\ In (activeTabId st) (map id (tabs st)).
Proof.
  intros Hinit Hguard Hrun.
  pose proof (TabManagerProvider_active_known _ _ _ _ _ Hinit) as H0.
  split; [exact H0|]. clear Hinit.
  revert st0 H0 Hguard Hrun. induction ops as [|o ops IH]; intros st0 H0 Hguard Hrun.
  - cbn in Hrun. by injection Hrun as <-.
  - cbn in Hguard, Hrun. apply andb_true_iff in Hguard as [Ho Hrest].
    destruct (step o st0) as [st1|] eqn:Hstep; [|discriminate].
    cbn in Hrun. apply (IH st1); try assumption.
    by apply (step_keeps_active_known o st0).
Qed.

Lemma active_tab_always_exists_witness :
  In (activeTabId one_tab) (map id (tabs one_tab))
  /\ In (activeTabId (closeTab "t1" (createTab None None "t2" (int 1) one_tab)))
        (map id (tabs (closeTab "t1" (createTab None None "t2" (int 1) one_tab)))).
Proof.
  apply (active_tab_always_exists None "t1" (int 0) Store.new
           [CreateTab None None "t2" (int 1); CloseTab "t1"]);
    vm_compute; reflexivity.
Defined.

(** ** Tab ids stay distinct *)

Lemma NoDup_map_filter {A B : Type} (f : A -> B) (p : A -> bool) (xs : list A) :
  NoDup (map f xs) -> NoDup (map f (List.filter p xs)).
Proof.
  induction xs as [|a xs IH]; cbn; [auto|].
  intros Hnd. apply NoDup_cons in Hnd as [Ha Hxs].
  destruct (p a); cbn; [|by apply IH].
  apply NoDup_cons. split; [|by apply IH].
  intros Hin. apply Ha. apply list_elem_of_In in Hin. apply list_elem_of_In.
  apply in_map_iff in Hin as (x & Hx & Hin). apply in_map_iff. exists x.
  split; [exact Hx|]. apply filter_In in Hin. tauto.
Qed.

Lemma closeTab_tabs_NoDup (tabId activeId : string) (prev : list Tab) :
  NoDup (map id prev) -> NoDup (map id (fst (closeTab_tabs tabId activeId prev))).
Proof.
  intros Hnd. rewrite closeTab_tabs_fst.
  destruct (List.filter _ prev) as [|f fs] eqn:Ef; [exact Hnd|].
  rewrite <- Ef. by apply NoDup_map_filter.
Qed.

Lemma step_keeps_ids_distinct (o : operation) (st st' : TabManager) :
  creates_fresh_ids o st = true ->
  NoDup (map id (tabs st)) ->
  step o st = Returned st' ->
  NoDup (map id (tabs st')).
Proof.
  intros Hguard Hnd Hstep.
  destruct o; cbn [step creates_fresh_ids] in *;
    try (injection Hstep as <-).
  - unfold createTab. cbn. rewrite map_app. cbn.
    apply NoDup_app. split; [exact Hnd|]. split; [|apply NoDup_singleton].
    intros x Hx Hx'. apply list_elem_of_singleton in Hx'. subst x.
    apply negb_true_iff in Hguard.
    assert (names_tab uuid st = true); [|congruence].
    apply names_tab_In. by apply list_elem_of_In.
  - destruct (closeTab_parts tabId st) as (-> & _). by apply closeTab_tabs_NoDup.
  - by rewrite switchTab_ids.
  - by rewrite updateTabTitle_ids.
  - by rewrite updateTabPath_ids.
  - cbn.
    assert (P : Permutation (map id (reorderTabs_tabs activeId overId (tabs st)))
                            (map id (tabs st)))
      by apply Permutation_map, reorderTabs_tabs_Permutation.
    by rewrite P.
  - apply switch_to_index_known in Hstep as [_ E]. by rewrite E.
  - apply switch_to_index_known in Hstep as [_ E]. by rewrite E.
  - unfold selectTabAtIndex in Hstep. destruct (_ && _).
    + apply switch_to_index_known in Hstep as [_ E]. by rewrite E.
    + by injection Hstep as <-.
  - exact Hnd.
  - unfold updateExplorerState. by cbn.
  - exact Hnd.
Qed.

(** X2: tab ids stay pairwise distinct: when the persisted tabs (if any)
    have distinct ids and every [createTab] draws an id that no tab has,
    the ids of the tab list are distinct after mount and after any run of
    operations. *)
Theorem tab_ids_stay_distinct
    (persisted : option Persisted.t) (uuid : string) (now : number)
    (store : ExplorerStateStore) (ops : list operation) (st0 st : TabManager) :
  NoDup (map id (from_option Persisted.tabs [] persisted)) ->
  TabManagerProvider persisted uuid now store = Returned st0 ->
  guarded creates_fresh_ids ops st0 = true ->
  run ops st0 = Returned st ->
  NoDup (map id (tabs st0)) /\ NoDup (map id (tabs st)).
Proof.
  intros Hp Hinit Hguard Hrun.
  assert (H0 : NoDup (map id (tabs st0))).
  { destruct (TabManagerProvider_returns persisted uuid now store) as (st0' & E & Ht).
    rewrite Hinit in E. injection E as <-. rewrite Ht. unfold initial_tabs.
    destruct persisted as [p|]; cbn in *; [|apply NoDup_singleton].
    destruct (Persisted.tabs p); cbn; [apply NoDup_singleton|exact Hp]. }
  split; [exact H0|]. clear Hinit Hp.
  revert st0 H0 Hguard Hrun. induction ops as [|o ops IH]; intros st0 H0 Hguard Hrun.
  - cbn in Hrun. by injection Hrun as <-.
  - cbn in Hguard, Hrun. apply andb_true_iff in Hguard as [Ho Hrest].
    destruct (step o st0) as [st1|] eqn:Hstep; [|discriminate].
    cbn in Hrun. apply (IH st1); try assumption.
    by apply (step_keeps_ids_distinct o st0).
Qed.

Lemma tab_ids_stay_distinct_witness :
  NoDup (map id (tabs one_tab))
  /\ NoDup (map id (tabs (reorderTabs "t2" "t1"
                            (createTab None None "t2" (int 1) one_tab)))).
Proof.
  apply (tab_ids_stay_distinct None "t1" (int 0) Store.new
           [CreateTab None None "t2" (int 1); ReorderTabs "t2" "t1"]);
    [constructor|vm_compute; reflexivity..].
Defined.

(** ** Cyclic navigation *)

Lemma nth_error_lookup {A : Type} (xs : list A) (i : nat) :
  nth_error xs i = xs !! i.
Proof. revert i. induction xs as [|a xs IH]; intros [|i]; cbn; auto. Qed.

Lemma nth_error_bound {A : Type} (xs : list A) (i : nat) (a : A) :
  nth_error xs i = Some a -> (i < length xs)%nat.
Proof. intros E. apply nth_error_Some. congruence. Qed.

Lemma item_nat {A : Type} (xs : list A) (i : nat) :
  item xs (Z.of_nat i) = nth_error xs i.
Proof.
  unfold item. destruct (Z.ltb_spec (Z.of_nat i) 0); [lia|]. by rewrite Nat2Z.id.
Qed.

(** With distinct ids, [findIndex] finds the position of an id. *)
Lemma findIndex_position (tabId : string) (ts : list Tab) (i : nat) :
  NoDup (map id ts) ->
  nth_error (map id ts) i = Some tabId ->
  findIndex (has_id tabId) ts = Z.of_nat i.
Proof.
  intros Hnd Hi.
  destruct (findIndex_spec (has_id tabId) ts)
    as [[_ Hall]|(pre & a & post & -> & -> & Ha & _)].
  - exfalso. apply nth_error_In, in_map_iff in Hi as (t & Hid & Ht).
    rewrite List.Forall_forall in Hall. specialize (Hall t Ht).
    apply has_id_false in Hall. congruence.
  - f_equal. apply has_id_true in Ha.
    apply (NoDup_lookup _ _ _ tabId Hnd); [|by rewrite <- nth_error_lookup].
    rewrite map_app, <- nth_error_lookup, nth_error_app2, length_map by
      (rewrite length_map; lia).
    rewrite Nat.sub_diag. cbn. by rewrite Ha.
Qed.

Lemma nth_error_ids (ts : list Tab) (j : nat) :
  (j < length ts)%nat ->
  exists t, nth_error ts j = Some t /\ nth_error (map id ts) j = Some (id t).
Proof.
  intros Hj. destruct (nth_error ts j) as [t|] eqn:E.
  - exists t. split; [reflexivity|]. by apply map_nth_error.
  - apply nth_error_None in E. lia.
Qed.

(** [switchTab(tabs[j].id)] from the position [i] of the active tab. *)
Lemma switch_to_position (now : number) (st : TabManager) (j : nat) :
  (j < length (tabs st))%nat ->
  exists st',
    switch_to_index (Some (Z.of_nat j)) now st = Returned st'
    /\ map id (tabs st') = map id (tabs st)
    /\ nth_error (map id (tabs st)) j = Some (activeTabId st')
    /\ explorerStateStore st' = explorerStateStore st
    /\ selectionStates st' = selectionStates st
    /\ defaultNewTabPath st' = defaultNewTabPath st.
Proof.
  intros Hj. destruct (nth_error_ids (tabs st) j Hj) as (t & Ht & Hid).
  exists (switchTab (id t) now st). unfold switch_to_index.
  rewrite item_nat, Ht. rewrite switchTab_ids, switchTab_active.
  repeat split; try assumption; unfold switchTab; by destruct (JsString.eq _ _).
Qed.

Lemma nextTab_position (now : number) (st : TabManager) (i : nat) :
  NoDup (map id (tabs st)) ->
  nth_error (map id (tabs st)) i = Some (activeTabId st) ->
  exists st',
    nextTab now st = Returned st'
    /\ map id (tabs st') = map id (tabs st)
    /\ nth_error (map id (tabs st)) ((i + 1) mod length (tabs st))
       = Some (activeTabId st')
    /\ explorerStateStore st' = explorerStateStore st
    /\ selectionStates st' = selectionStates st
    /\ defaultNewTabPath st' = defaultNewTabPath st.
Proof.
  intros Hnd Hi.
  assert (Hlt : (i < length (tabs st))%nat).
  { apply nth_error_bound in Hi. by rewrite length_map in Hi. }
  unfold nextTab, tab_count, js_rem. rewrite (findIndex_position _ _ i Hnd Hi).
  destruct (Z.eqb_spec (Z.of_nat (length (tabs st))) 0); [lia|].
  rewrite Z.rem_mod_nonneg by lia.
  replace (Z.of_nat i + 1) with (Z.of_nat (i + 1)) by lia.
  rewrite <- Nat2Z.inj_mod.
  apply switch_to_position. apply Nat.mod_upper_bound. lia.
Qed.

Lemma previousTab_position (now : number) (st : TabManager) (i : nat) :
  NoDup (map id (tabs st)) ->
  nth_error (map id (tabs st)) i = Some (activeTabId st) ->
  exists st',
    previousTab now st = Returned st'
    /\ map id (tabs st') = map id (tabs st)
    /\ nth_error (map id (tabs st)) ((i + length (tabs st) - 1) mod length (tabs st))
       = Some (activeTabId st')
    /\ explorerStateStore st' = explorerStateStore st
    /\ selectionStates st' = selectionStates st
    /\ defaultNewTabPath st' = defaultNewTabPath st.
Proof.
  intros Hnd Hi.
  assert (Hlt : (i < length (tabs st))%nat).
  { apply nth_error_bound in Hi. by rewrite length_map in Hi. }
  unfold previousTab, tab_count, js_rem. rewrite (findIndex_position _ _ i Hnd Hi).
  destruct (Z.eqb_spec (Z.of_nat (length (tabs st))) 0); [lia|].
  rewrite Z.rem_mod_nonneg by lia.
  replace (Z.of_nat i - 1 + Z.of_nat (length (tabs st)))
    with (Z.of_nat (i + length (tabs st) - 1)) by lia.
  rewrite <- Nat2Z.inj_mod.
  apply switch_to_position. apply Nat.mod_upper_bound. lia.
Qed.

Lemma position_of_active (st : TabManager) :
  In (activeTabId st) (map id (tabs st)) ->
  exists i, nth_error (map id (tabs st)) i = Some (activeTabId st).
Proof. apply In_nth_error. Qed.

Lemma step_back (i n : nat) :
  (i < n)%nat -> (((i + 1) mod n + n - 1) mod n = i)%nat.
Proof.
  intros Hi. destruct (Nat.eq_dec (i + 1)%nat n) as [E|Hne].
  - rewrite E, Nat.Div0.mod_same. cbn. rewrite Nat.mod_small; lia.
  - rewrite (Nat.mod_small (i + 1)%nat) by lia.
    replace (i + 1 + n - 1)%nat with (i + 1 * n)%nat by lia.
    rewrite Nat.Div0.mod_add. apply Nat.mod_small. lia.
Qed.

Lemma step_forth (i n : nat) :
  (i < n)%nat -> (((i + n - 1) mod n + 1) mod n = i)%nat.
Proof.
  intros Hi. destruct (Nat.eq_dec i 0%nat) as [->|Hne].
  - cbn [Nat.add]. rewrite (Nat.mod_small (n - 1)%nat) by lia.
    replace (n - 1 + 1)%nat with n by lia. apply Nat.Div0.mod_same.
  - replace (i + n - 1)%nat with (i - 1 + 1 * n)%nat by lia.
    rewrite Nat.Div0.mod_add, (Nat.mod_small (i - 1)%nat) by lia.
    replace (i - 1 + 1)%nat with i by lia. apply Nat.mod_small. lia.
Qed.

(** X3: with distinct tab ids and an active tab that is in the list,
    [nextTab] and [previousTab] undo each other: neither throws, and after
    the two the active tab id is the one before; the order of the tabs,
    both stores and the default path are as before (only [lastActive] of
    the tabs visited changes). *)
Theorem nextTab_previousTab_cancel (now now' : number) (st : TabManager) :
  NoDup (map id (tabs st)) ->
  In (activeTabId st) (map id (tabs st)) ->
  (exists st1 st2,
     nextTab now st = Returned st1 /\ previousTab now' st1 = Returned st2
     /\ activeTabId st2 = activeTabId st
     /\ map id (tabs st2) = map id (tabs st)
     /\ explorerStateStore st2 = explorerStateStore st
     /\ selectionStates st2 = selectionStates st
     /\ defaultNewTabPath st2 = defaultNewTabPath st)
  /\ (exists st1 st2,
        previousTab now st = Returned st1 /\ nextTab now' st1 = Returned st2
        /\ activeTabId st2 = activeTabId st
        /\ map id (tabs st2) = map id (tabs st)
        /\ explorerStateStore st2 = explorerStateStore st
        /\ selectionStates st2 = selectionStates st
        /\ defaultNewTabPath st2 = defaultNewTabPath st).
Proof.
  intros Hnd Hin. destruct (position_of_active st Hin) as [i Hi].
  assert (Hlt : (i < length (tabs st))%nat).
  { apply nth_error_bound in Hi. by rewrite length_map in Hi. }
  assert (Hlen : forall st', map id (tabs st') = map id (tabs st) ->
                 length (tabs st') = length (tabs st)).
  { intros st' E. apply (f_equal length) in E. by rewrite !length_map in E. }
  split.
  - destruct (nextTab_position now st i Hnd Hi) as (st1 & E1 & Hids1 & Ha1 & Hs1 & Hl1 & Hd1).
    rewrite <- Hids1 in Hnd, Ha1.
    destruct (previousTab_position now' st1 _ Hnd Ha1)
      as (st2 & E2 & Hids2 & Ha2 & Hs2 & Hl2 & Hd2).
    exists st1, st2. rewrite (Hlen st1 Hids1), step_back in Ha2 by exact Hlt.
    rewrite Hids1, Hi in Ha2.
    repeat split; try congruence.
  - destruct (previousTab_position now st i Hnd Hi)
      as (st1 & E1 & Hids1 & Ha1 & Hs1 & Hl1 & Hd1).
    rewrite <- Hids1 in Hnd, Ha1.
    destruct (nextTab_position now' st1 _ Hnd Ha1)
      as (st2 & E2 & Hids2 & Ha2 & Hs2 & Hl2 & Hd2).
    exists st1, st2. rewrite (Hlen st1 Hids1), step_forth in Ha2 by exact Hlt.
    rewrite Hids1, Hi in Ha2.
    repeat split; try congruence.
Qed.

Lemma nextTab_previousTab_cancel_witness :
  exists st1 st2,
    nextTab (int 1) three_tabs = Returned st1
    /\ previousTab (int 2) st1 = Returned st2
    /\ activeTabId st2 = activeTabId three_tabs.
Proof.
  assert (H1 : NoDup (map id (tabs three_tabs))).
  { apply NoDup_ListNoDup. vm_compute. repeat constructor; cbn; intuition discriminate. }
  assert (H2 : In (activeTabId three_tabs) (map id (tabs three_tabs)))
    by (vm_compute; tauto).
  destruct (proj1 (nextTab_previousTab_cancel (int 1) (int 2) three_tabs H1 H2))
    as (st1 & st2 & E1 & E2 & Ha & _).
  by exists st1, st2.
Defined.

Lemma nextTab_run_position (nows : list number) (st : TabManager) (i : nat) :
  NoDup (map id (tabs st)) ->
  nth_error (map id (tabs st)) i = Some (activeTabId st) ->
  exists st',
    run (map NextTab nows) st = Returned st'
    /\ map id (tabs st') = map id (tabs st)
    /\ nth_error (map id (tabs st)) ((i + length nows) mod length (tabs st))
       = Some (activeTabId st').
Proof.
  revert st i. induction nows as [|now nows IH]; intros st i Hnd Hi.
  - exists st. cbn [map run length]. repeat split.
    rewrite Nat.add_0_r, Nat.mod_small; [exact Hi|].
    apply nth_error_bound in Hi. by rewrite length_map in Hi.
  - destruct (nextTab_position now st i Hnd Hi) as (st1 & E1 & Hids1 & Ha1 & _).
    assert (Hlen : length (tabs st1) = length (tabs st)).
    { apply (f_equal length) in Hids1. by rewrite !length_map in Hids1. }
    rewrite <- Hids1 in Hnd, Ha1.
    destruct (IH st1 _ Hnd Ha1) as (st' & E & Hids & Ha).
    exists st'. cbn [map run step length]. rewrite E1. cbn.
    split; [exact E|]. split; [congruence|].
    rewrite <- Hids1, <- Ha, Hlen. f_equal.
    rewrite Nat.Div0.add_mod_idemp_l. f_equal. lia.
Qed.

(** X4: with distinct tab ids and an active tab that is in the list, as
    many [nextTab] calls as there are tabs bring the active tab id back to
    where it started, without throwing and without reordering the tabs. *)
Theorem nextTab_full_cycle (nows : list number) (st : TabManager) :
  NoDup (map id (tabs st)) ->
  In (activeTabId st) (map id (tabs st)) ->
  length nows = length (tabs st) ->
  exists st',
    run (map NextTab nows) st = Returned st'
    /\ activeTabId st' = activeTabId st
    /\ map id (tabs st') = map id (tabs st).
Proof.
  intros Hnd Hin Hlen. destruct (position_of_active st Hin) as [i Hi].
  destruct (nextTab_run_position nows st i Hnd Hi) as (st' & E & Hids & Ha).
  exists st'. split; [exact E|]. split; [|exact Hids].
  rewrite Hlen in Ha.
  replace (i + length (tabs st))%nat with (i + 1 * length (tabs st))%nat in Ha by lia.
  rewrite Nat.Div0.mod_add, Nat.mod_small in Ha; [congruence|].
  apply nth_error_bound in Hi. by rewrite length_map in Hi.
Qed.

Lemma nextTab_full_cycle_witness :
  exists st',
    run (map NextTab [int 1; int 2; int 3]) three_tabs = Returned st'
    /\ activeTabId st' = activeTabId three_tabs
    /\ map id (tabs st') = map id (tabs three_tabs).
Proof.
  apply nextTab_full_cycle.
  - apply NoDup_ListNoDup. vm_compute. repeat constructor; cbn; intuition discriminate.
  - vm_compute. tauto.
  - reflexivity.
Defined.

(** ** selectTabAtIndex *)

(** X5: [selectTabAtIndex(i)] never throws; for [0 <= i < tabs.length] it
    makes the tab at position [i] the active one and keeps the order of the
    tabs, and for any other integer it leaves the state as it is. *)
Theorem selectTabAtIndex_bounds (index : Z) (now : number) (st : TabManager) :
  exists st',
    selectTabAtIndex index now st = Returned st'
    /\ map id (tabs st') = map id (tabs st)
    /\ ((0 <= index < Z.of_nat (length (tabs st))) ->
        exists t, item (tabs st) index = Some t /\ activeTabId st' = id t)
    /\ ((index < 0 \/ Z.of_nat (length (tabs st)) <= index) -> st' = st).
Proof.
  unfold selectTabAtIndex, tab_count.
  destruct ((0 <=? index) && (index <? Z.of_nat (length (tabs st)))) eqn:E.
  - apply andb_true_iff in E as [Hlo Hhi].
    apply Z.leb_le in Hlo. apply Z.ltb_lt in Hhi.
    destruct (item_in_range (tabs st) index (conj Hlo Hhi)) as [t Ht].
    exists (switchTab (id t) now st). unfold switch_to_index. rewrite Ht.
    rewrite switchTab_ids, switchTab_active.
    split; [reflexivity|]. split; [reflexivity|]. split.
    + intros _. by exists t.
    + lia.
  - exists st. split; [reflexivity|]. split; [reflexivity|]. split.
    + intros [Hlo Hhi]. apply Z.leb_le in Hlo. apply Z.ltb_lt in Hhi.
      rewrite Hlo, Hhi in E. discriminate.
    + reflexivity.
Qed.

(** ** reorderTabs moves one tab *)

Lemma splice_in_parts {A : Type} (j : Z) (a : A) (xs : list A) :
  0 <= j <= Z.of_nat (length xs) ->
  exists pre post,
    xs = pre ++ post /\ j = Z.of_nat (length pre)
    /\ splice_in j a xs = pre ++ a :: post.
Proof.
  intros Hj. exists (take (Z.to_nat j) xs), (drop (Z.to_nat j) xs).
  split; [by rewrite take_drop|]. split; [rewrite length_take; lia|reflexivity].
Qed.

Lemma item_splice_in {A : Type} (j : Z) (a : A) (xs : list A) :
  0 <= j <= Z.of_nat (length xs) -> item (splice_in j a xs) j = Some a.
Proof.
  intros Hj. destruct (splice_in_parts j a xs Hj) as (pre & post & -> & -> & ->).
  rewrite item_nat, nth_error_app2 by lia. by rewrite Nat.sub_diag.
Qed.

Lemma splice_out_splice_in {A : Type} (j : Z) (a : A) (xs : list A) :
  0 <= j <= Z.of_nat (length xs) -> splice_out j (splice_in j a xs) = (xs, [a]).
Proof.
  intros Hj. destruct (splice_in_parts j a xs Hj) as (pre & post & -> & -> & ->).
  apply splice_out_at.
Qed.

(** X6: when both ids name tabs at different positions, [reorderTabs]
    puts the moved tab at the position the target had and keeps all other
    tabs in their order: taking the moved tab out of the new list and out
    of the old one leaves the same list.  The new list is a rearrangement
    of the old one, and nothing but the tab list changes. *)
Theorem reorderTabs_moves_one_tab (activeId overId : string) (st : TabManager) :
  let oldIndex := findIndex (has_id activeId) (tabs st) in
  let newIndex := findIndex (has_id overId) (tabs st) in
  oldIndex <> -1 -> newIndex <> -1 -> oldIndex <> newIndex ->
  exists movedTab,
    item (tabs st) oldIndex = Some movedTab
    /\ item (tabs (reorderTabs activeId overId st)) newIndex = Some movedTab
    /\ fst (splice_out newIndex (tabs (reorderTabs activeId overId st)))
       = fst (splice_out oldIndex (tabs st))
    /\ Permutation (tabs (reorderTabs activeId overId st)) (tabs st)
    /\ reorderTabs activeId overId st
       = set_tabs (tabs (reorderTabs activeId overId st)) st.
Proof.
  cbv zeta. intros Hold Hnew Hdiff.
  pose proof (findIndex_bounds (has_id overId) (tabs st)) as Hb.
  pose proof (reorderTabs_tabs_Permutation activeId overId (tabs st)) as Hperm.
  unfold reorderTabs. cbn [tabs set_tabs]. unfold reorderTabs_tabs in *.
  destruct (findIndex_spec (has_id activeId) (tabs st))
    as [[E _]|(pre & a & post & Ets & Ei & _ & _)]; [congruence|].
  rewrite Ets in *. rewrite Ei in *.
  set (j := findIndex (has_id overId) (pre ++ a :: post)) in *.
  destruct (Z.eqb_spec (Z.of_nat (length pre)) (-1)); [lia|].
  destruct (Z.eqb_spec j (-1)); [lia|].
  destruct (Z.eqb_spec (Z.of_nat (length pre)) j); [lia|].
  cbn [orb] in *. rewrite splice_out_at in *. cbn [fst].
  rewrite length_app in Hb. cbn [length] in Hb.
  exists a. split; [|split; [|split; [|split]]].
  - rewrite item_nat. rewrite nth_error_app2 by lia. by rewrite Nat.sub_diag.
  - apply item_splice_in. rewrite length_app. lia.
  - rewrite splice_out_splice_in; [reflexivity|]. rewrite length_app. lia.
  - exact Hperm.
  - reflexivity.
Qed.

Lemma reorderTabs_moves_one_tab_witness :
  exists movedTab,
    item (tabs three_tabs) (findIndex (has_id "a") (tabs three_tabs)) = Some movedTab
    /\ item (tabs (reorderTabs "a" "c" three_tabs))
            (findIndex (has_id "c") (tabs three_tabs)) = Some movedTab.
Proof.
  destruct (reorderTabs_moves_one_tab "a" "c" three_tabs)
    as (t & H1 & H2 & _); try (vm_compute; discriminate).
  by exists t.
Defined.

(** ** closeTab of a tab that is not the active one *)

Lemma filter_removes_one (tabId : string) (ts : list Tab) :
  NoDup (map id ts) -> In tabId (map id ts) ->
  S (length (List.filter (fun t => negb (has_id tabId t)) ts)) = length ts.
Proof.
  induction ts as [|t ts IH]; cbn [map length List.filter]; [intros _ []|].
  intros Hnd Hin. apply NoDup_cons in Hnd as [Ht Hnd].
  destruct (has_id tabId t) eqn:E; cbn [negb length].
  - f_equal. rewrite filter_keeps_all; [reflexivity|].
    apply List.Forall_forall. intros x Hx. apply has_id_false. intros Hid.
    apply has_id_true in E. apply Ht. apply list_elem_of_In.
    rewrite E, <- Hid. by apply in_map.
  - f_equal. apply IH; [exact Hnd|]. destruct Hin as [Hid|Hin]; [|exact Hin].
    apply has_id_false in E. congruence.
Qed.

(** X7: closing a tab that is in the list and is not the active one (the
    active one being in the list too, all ids distinct) removes exactly
    that tab, keeps the others in order and keeps the active tab; the
    closed tab's explorer state and selection read as the defaults
    afterwards, and those of every other id are untouched. *)
Theorem closeTab_inactive_tab (tabId : string) (st : TabManager) :
  NoDup (map id (tabs st)) ->
  In tabId (map id (tabs st)) ->
  In (activeTabId st) (map id (tabs st)) ->
  tabId <> activeTabId st ->
  let st' := closeTab tabId st in
  tabs st' = List.filter (fun t => negb (has_id tabId t)) (tabs st)
  /\ S (length (tabs st')) = length (tabs st)
  /\ activeTabId st' = activeTabId st
  /\ In (activeTabId st') (map id (tabs st'))
  /\ names_tab tabId st' = false
  /\ getExplorerState tabId st' = DEFAULT_EXPLORER_STATE
  /\ getSelectionIds tabId st' = []
  /\ (forall other, other <> tabId ->
        getExplorerState other st' = getExplorerState other st
        /\ getSelectionIds other st' = getSelectionIds other st).
Proof.
  intros Hnd Hin Hact Hne. cbv zeta.
  destruct (closeTab_parts tabId st) as (Ht & Ha & Hs & Hl & _).
  pose proof (closeTab_tabs_keeps_active tabId _ _ Hact) as Hkeep.
  rewrite <- Ht, <- Ha in Hkeep.
  assert (Hfilter : tabs (closeTab tabId st)
                    = List.filter (fun t => negb (has_id tabId t)) (tabs st)).
  { rewrite Ht, closeTab_tabs_fst.
    destruct (List.filter _ (tabs st)) as [|f fs] eqn:Ef; [|reflexivity].
    exfalso. apply in_map_iff in Hact as (t & Hid & Hint).
    assert (Hf : In t (List.filter (fun t => negb (has_id tabId t)) (tabs st))).
    { apply filter_In. split; [exact Hint|].
      apply negb_true_iff, has_id_false. congruence. }
    by rewrite Ef in Hf. }
  assert (Hactive : activeTabId (closeTab tabId st) = activeTabId st).
  { rewrite Ha. unfold closeTab_tabs.
    destruct (Z.eqb _ 0); [reflexivity|].
    unfold JsString.eq. apply String.eqb_neq in Hne. by rewrite Hne. }
  split; [exact Hfilter|]. split; [rewrite Hfilter; by apply filter_removes_one|].
  split; [exact Hactive|]. split; [exact Hkeep|]. split; [|split; [|split]].
  - unfold names_tab. rewrite Hfilter.
    destruct (existsb _ _) eqn:E; [|reflexivity].
    apply existsb_exists in E as (x & Hx & Hid). apply filter_In in Hx as [_ Hx].
    by rewrite Hid in Hx.
  - unfold getExplorerState, Store.getState. by rewrite Hs, lookup_delete_eq.
  - unfold getSelectionIds. by rewrite Hl, lookup_delete_eq.
  - intros other Ho. unfold getExplorerState, Store.getState, getSelectionIds.
    rewrite Hs, Hl. by rewrite !lookup_delete_ne by congruence.
Qed.

Lemma closeTab_inactive_tab_witness :
  tabs (closeTab "c" three_tabs)
  = List.filter (fun t => negb (has_id "c" t)) (tabs three_tabs)
  /\ activeTabId (closeTab "c" three_tabs) = activeTabId three_tabs.
Proof.
  assert (H : NoDup (map id (tabs three_tabs))).
  { apply NoDup_ListNoDup. vm_compute. repeat constructor; cbn; intuition discriminate. }
  assert (Hc : In "c"%string (map id (tabs three_tabs))) by (vm_compute; tauto).
  assert (Hb : In (activeTabId three_tabs) (map id (tabs three_tabs)))
    by (vm_compute; tauto).
  assert (Hne : "c"%string <> activeTabId three_tabs) by (vm_compute; discriminate).
  destruct (closeTab_inactive_tab "c" three_tabs H Hc Hb Hne) as (H1 & _ & H2 & _).
  by split.
Defined.

(** ** createTab *)

(** X8: [createTab] appends one tab, unpinned and without icon, with the
    drawn id, the given path (the default new-tab path when none is given)
    and an explicit non-empty title as it is; it makes that tab the active
    one, gives it the default explorer state and an empty selection, leaves
    the tabs, explorer states and selections of all other ids as they are,
    and calls every store listener once with the new id. *)
Theorem createTab_contract
    (title0 path : option string) (uuid : string) (now : number) (st : TabManager) :
  let st' := createTab title0 path uuid now st in
  exists newTab,
    tabs st' = tabs st ++ [newTab]
    /\ id newTab = uuid
    /\ savedPath newTab = default (defaultNewTabPath st) path
    /\ (forall t, title0 = Some t -> t <> EmptyString -> title newTab = t)
    /\ icon newTab = None /\ isPinned newTab = false /\ lastActive newTab = now
    /\ activeTabId st' = uuid
    /\ getExplorerState uuid st' = DEFAULT_EXPLORER_STATE
    /\ getSelectionIds uuid st' = []
    /\ (forall other, other <> uuid ->
          getExplorerState other st' = getExplorerState other st
          /\ getSelectionIds other st' = getSelectionIds other st)
    /\ delivered st'
       = delivered st ++ map (fun l => (l, uuid)) (listeners (explorerStateStore st))
    /\ defaultNewTabPath st' = defaultNewTabPath st.
Proof.
  cbv zeta. eexists. unfold createTab. cbn. split; [reflexivity|]. cbn.
  split; [reflexivity|]. split; [reflexivity|]. split.
  { intros t -> Ht. unfold derivedTitle, JsString.truthy.
    apply String.eqb_neq in Ht. by rewrite Ht. }
  repeat split.
  - unfold getExplorerState, Store.getState. cbn. by rewrite lookup_insert_eq.
  - unfold getSelectionIds. cbn. by rewrite lookup_insert_eq.
  - unfold getExplorerState, Store.getState. cbn.
    by rewrite lookup_insert_ne by congruence.
  - unfold getSelectionIds. cbn. by rewrite lookup_insert_ne by congruence.
Qed.

(** ** createTab, then closeTab of the new tab *)

(** X9: creating a tab (with an id no tab has) and closing it at once
    gives back the tab list as it was, and makes the last tab of that list
    the active one, whichever tab was active before; the two stores are as
    before when they held nothing under the new id. *)
Theorem createTab_then_closeTab
    (title0 path : option string) (uuid : string) (now : number) (st : TabManager) :
  tabs st <> [] ->
  ~ In uuid (map id (tabs st)) ->
  let st2 := closeTab uuid (createTab title0 path uuid now st) in
  tabs st2 = tabs st
  /\ (exists t, last (tabs st) = Some t /\ activeTabId st2 = id t)
  /\ (states (explorerStateStore st) !! uuid = None ->
      states (explorerStateStore st2) = states (explorerStateStore st))
  /\ (selectionStates st !! uuid = None -> selectionStates st2 = selectionStates st)
  /\ defaultNewTabPath st2 = defaultNewTabPath st.
Proof.
  intros Hne Hfresh. cbv zeta.
  destruct (closeTab_parts uuid (createTab title0 path uuid now st))
    as (-> & -> & -> & -> & ->).
  pose proof (not_in_ids _ _ Hfresh) as Hall.
  destruct (last_cases (tabs st)) as [(ts & l & Ets)|E]; [|congruence].
  unfold createTab. cbn [tabs activeTabId explorerStateStore selectionStates
                           defaultNewTabPath Store.setState fst snd states id].
  rewrite Ets in *.
  rewrite (closeTab_tabs_after uuid ts l _ []); [|exact Hall|by apply has_id_true].
  cbn [fst snd List.filter]. rewrite app_nil_r. split; [reflexivity|].
  split; [exists l; split; [apply last_snoc|reflexivity]|].
  split; [|split; [|reflexivity]].
  - intros Hnone. by apply delete_insert_id.
  - intros Hnone. by apply delete_insert_id.
Qed.

Lemma createTab_then_closeTab_witness :
  tabs (closeTab "n" (createTab None None "n" (int 7) three_tabs)) = tabs three_tabs
  /\ activeTabId (closeTab "n" (createTab None None "n" (int 7) three_tabs)) = "c"%string.
Proof.
  assert (H1 : tabs three_tabs <> []) by discriminate.
  assert (H2 : ~ In "n"%string (map id (tabs three_tabs))).
  { vm_compute. intuition discriminate. }
  destruct (createTab_then_closeTab None None "n" (int 7) three_tabs H1 H2)
    as (Ht & (t & Hl & Ha) & _).
  split; [exact Ht|]. rewrite Ha. vm_compute in Hl. by injection Hl as <-.
Defined.

(* ====================================================================== *)
(** * Further properties of the explorer state store *)
(* ====================================================================== *)

Lemma filter_calls_absent (l : ExplorerStateListener) (changed : string)
    (ls : list ExplorerStateListener) :
  ~ In l ls ->
  List.filter (fun c : call => Nat.eqb (fst c) l) (map (fun l' => (l', changed)) ls) = [].
Proof.
  induction ls as [|b ls IH]; cbn; [reflexivity|]. intros Hl.
  destruct (Nat.eqb_spec b l) as [->|_]; [tauto|]. apply IH. tauto.
Qed.

Lemma subscribe_In (l l' : ExplorerStateListener) (s : ExplorerStateStore) :
  In l' (listeners (Store.subscribe l s)) <-> l' = l \/ In l' (listeners s).
Proof.
  unfold Store.subscribe. cbn.
  destruct (existsb (Nat.eqb l) (listeners s)) eqn:E.
  - apply existsb_exists in E as (x & Hx & Hxl). apply Nat.eqb_eq in Hxl. subst x.
    split; [tauto|]. by intros [->|?].
  - rewrite in_app_iff. cbn. intuition congruence.
Qed.

Lemma unsubscribe_In (l l' : ExplorerStateListener) (s : ExplorerStateStore) :
  In l' (listeners (Store.unsubscribe l s)) <-> l' <> l /\ In l' (listeners s).
Proof.
  unfold Store.unsubscribe. cbn. rewrite filter_In, negb_true_iff, Nat.eqb_neq.
  intuition congruence.
Qed.

(** X10: the life of a subscription, on a store with any history.  After
    [subscribe(l)], a [setState], [updateState] or [deleteState] calls [l]
    exactly once, also when [l] was subscribed before (subscribing twice is
    subscribing once); after the returned unsubscribe function has run, the
    same operations no longer call [l], and still call every other
    listener that was registered. *)
Theorem subscription_lifecycle
    (history : list store_call) (l : ExplorerStateListener)
    (m : mutation) (changed : string) :
  let s := store_after history in
  let calls_of s' := snd (store_step (mutate m changed) s') in
  let to l' calls := List.filter (fun c : call => Nat.eqb (fst c) l') calls in
  to l (calls_of (Store.subscribe l s)) = [(l, changed)]
  /\ Store.subscribe l (Store.subscribe l s) = Store.subscribe l s
  /\ to l (calls_of (Store.unsubscribe l (Store.subscribe l s))) = []
  /\ (forall l', l' <> l ->
        to l' (calls_of (Store.unsubscribe l s)) = to l' (calls_of s))
  /\ states (Store.unsubscribe l (Store.subscribe l s)) = states s.
Proof.
  cbv zeta. pose proof (store_after_NoDup history) as Hnd.
  set (s := store_after history) in *.
  assert (Hsub : NoDup (listeners (Store.subscribe l s))) by (by apply subscribe_NoDup).
  assert (Hin : In l (listeners (Store.subscribe l s))) by (apply subscribe_In; by left).
  split; [|split; [|split; [|split]]].
  - destruct (mutate_calls m changed (Store.subscribe l s)) as [-> _].
    pose proof (filter_broadcast l changed _ Hsub Hin) as Hlen.
    destruct (List.filter _ _) as [|c [|c' cs]] eqn:E; try discriminate Hlen.
    assert (Hc : In c (List.filter (fun c : call => Nat.eqb (fst c) l)
                         (map (fun l' => (l', changed)) (listeners (Store.subscribe l s)))))
      by (rewrite E; by left).
    apply filter_In in Hc as [Hc Hl]. apply in_map_iff in Hc as (x & <- & _).
    cbn in Hl. apply Nat.eqb_eq in Hl. by subst x.
  - unfold Store.subscribe at 1. cbn [states listeners].
    assert (E : existsb (Nat.eqb l) (listeners (Store.subscribe l s)) = true).
    { apply existsb_exists. exists l. split; [exact Hin|apply Nat.eqb_refl]. }
    rewrite E. by destruct (Store.subscribe l s).
  - destruct (mutate_calls m changed (Store.unsubscribe l (Store.subscribe l s))) as [-> _].
    apply filter_calls_absent. rewrite unsubscribe_In. tauto.
  - intros l' Hne.
    destruct (mutate_calls m changed (Store.unsubscribe l s)) as [-> _].
    destruct (mutate_calls m changed s) as [-> _].
    unfold Store.unsubscribe. cbn [listeners]. clear -Hne.
    induction (listeners s) as [|a ls IH]; cbn; [reflexivity|].
    destruct (Nat.eqb_spec l a) as [<-|Hla]; cbn.
    + destruct (Nat.eqb_spec l l'); [congruence|]. exact IH.
    + destruct (Nat.eqb_spec a l'); by rewrite IH.
  - reflexivity.
Qed.

(** X11: [loadFromRecord] replaces the whole table and broadcasts: on a
    store with any history every registered listener is called once with
    the empty string, so the listener of [useTabExplorerState(tabId)] runs
    React's callback once whatever its tab id; afterwards each id reads as
    its entry of the record, or as the default state when it has none. *)
Theorem loadFromRecord_broadcasts
    (history : list store_call) (record : gmap string TabExplorerState)
    (l : ExplorerStateListener) (bound tabId : string) :
  let s := store_after history in
  let s' := fst (Store.loadFromRecord record s) in
  let calls := snd (Store.loadFromRecord record s) in
  In l (listeners s) ->
  List.filter (fun c : call => Nat.eqb (fst c) l) calls = [(l, EmptyString)]
  /\ callback_invocations l bound calls = 1%nat
  /\ Store.getAllStates s' = record
  /\ Store.getState tabId s' = default DEFAULT_EXPLORER_STATE (record !! tabId)
  /\ listeners s' = listeners s.
Proof.
  cbv zeta. intros Hin. pose proof (store_after_NoDup history) as Hnd.
  unfold Store.loadFromRecord. cbn [fst snd listeners states].
  split; [|split; [|repeat split]].
  - pose proof (filter_broadcast l EmptyString _ Hnd Hin) as Hlen.
    destruct (List.filter _ _) as [|c [|c' cs]] eqn:E; try discriminate Hlen.
    assert (Hc : In c (List.filter (fun c : call => Nat.eqb (fst c) l)
                         (map (fun l' => (l', EmptyString))
                              (listeners (store_after history)))))
      by (rewrite E; by left).
    apply filter_In in Hc as [Hc Hl]. apply in_map_iff in Hc as (x & <- & _).
    cbn in Hl. apply Nat.eqb_eq in Hl. by subst x.
  - rewrite (callback_invocations_broadcast l bound EmptyString _ Hnd Hin).
    reflexivity.
Qed.

Lemma loadFromRecord_broadcasts_witness :
  callback_invocations 8%nat "tab-x"
    (snd (Store.loadFromRecord ∅ (store_after [Subscribe 7%nat; Subscribe 8%nat])))
  = 1%nat.
Proof.
  refine (proj1 (proj2 (loadFromRecord_broadcasts
            [Subscribe 7%nat; Subscribe 8%nat] ∅ 8%nat "tab-x" "tab-x" _))).
  vm_compute. tauto.
Defined.

(** X12: entries of the store are independent, and reads read what was
    written: after [setState], [updateState] or [deleteState] of one id,
    that id reads as the value set, as the prior value with the updates
    written over it, or as the default state; every other id reads as
    before, and the listeners are the same. *)
Theorem store_entries_independent
    (m : mutation) (changed other : string) (s : ExplorerStateStore) :
  let s' := fst (store_step (mutate m changed) s) in
  Store.getState changed s'
  = match m with
    | ByValue v => v
    | ByUpdates u => spread (Store.getState changed s) u
    | ByDelete => DEFAULT_EXPLORER_STATE
    end
  /\ (other <> changed -> Store.getState other s' = Store.getState other s)
  /\ listeners s' = listeners s.
Proof.
  cbv zeta. destruct m; cbn; unfold Store.getState; cbn.
  - rewrite lookup_insert_eq. repeat split.
    intros Hne. by rewrite lookup_insert_ne by congruence.
  - rewrite lookup_insert_eq. repeat split.
    intros Hne. by rewrite lookup_insert_ne by congruence.
  - rewrite lookup_delete_eq. repeat split.
    intros Hne. by rewrite lookup_delete_ne by congruence.
Qed.

(* ====================================================================== *)
(** * The snapshot written is the snapshot read *)
(* ====================================================================== *)

Lemma tab_of_json_of_tab (t : Tab) : Cast.tab_of (json_of_tab t) = Some t.
Proof. destruct t as [i ti [ic|] p la sp]; reflexivity. Qed.

Lemma mapM_encoded {A B : Type} (enc : A -> B) (dec : B -> option A) (xs : list A) :
  (forall a, dec (enc a) = Some a) -> mapM dec (map enc xs) = Some xs.
Proof.
  intros H. induction xs as [|a xs IH]; [reflexivity|].
  cbn. rewrite H. cbn. rewrite IH. reflexivity.
Qed.

Lemma viewMode_of_text (v : ViewMode) :
  Cast.viewMode_of (Some (JString (Encode.viewMode_text v))) = Some v.
Proof. by destruct v. Qed.

Lemma sortBy_of_text (v : SortBy) :
  Cast.sortBy_of (Some (JString (Encode.sortBy_text v))) = Some v.
Proof. by destruct v. Qed.

Lemma explorerState_of_encoded (e : TabExplorerState) :
  Cast.explorerState_of (Encode.of_explorerState e) = Some e.
Proof.
  destruct e as [vm sb gs gp ff cs st sl [k x y]].
  assert (Hcs : Cast.strings_of (Some (JArray (map JString cs))) = Some cs)
    by (apply (mapM_encoded JString (fun i => Cast.string_of (Some i))); reflexivity).
  unfold Cast.explorerState_of, Encode.of_explorerState.
  cbn [JsValue.get_opt Json.member String.eqb Ascii.eqb Bool.eqb viewMode sortBy gridSize
       gapSize foldersFirst columnStack scrollTop scrollLeft sizeViewTransform].
  rewrite viewMode_of_text, sortBy_of_text, Hcs. reflexivity.
Qed.

Lemma explorerStates_of_encoded (m : gmap string TabExplorerState) :
  Cast.explorerStates_of (Some (Encode.of_explorerStates m)) = Some (Some m).
Proof.
  unfold Cast.explorerStates_of, Encode.of_explorerStates.
  rewrite (mapM_encoded
             (fun kv : string * TabExplorerState =>
                (fst kv, Encode.of_explorerState (snd kv)))
             (fun kv : string * json =>
                st ← Cast.explorerState_of (snd kv); Some (fst kv, st))).
  - cbn. do 2 f_equal.
    rewrite <- (list_to_map_to_list m) at 2.
    apply list_to_map_proper.
    + rewrite fmap_reverse, reverse_Permutation. apply NoDup_fst_map_to_list.
    + apply reverse_Permutation.
  - intros [k e]. cbn [fst snd]. by rewrite explorerState_of_encoded.
Qed.

Lemma as_PersistedState_encoded (p : Persisted.t) :
  Cast.as_PersistedState (Encode.of_persisted p) = Some p.
Proof.
  destruct p as [ts a [m|] [d|]];
    unfold Cast.as_PersistedState, Encode.of_persisted;
    cbn -[Cast.explorerStates_of Encode.of_explorerStates mapM Cast.tab_of json_of_tab];
    rewrite (mapM_encoded json_of_tab Cast.tab_of) by apply tab_of_json_of_tab;
    cbn -[Cast.explorerStates_of Encode.of_explorerStates];
    rewrite ?explorerStates_of_encoded; reflexivity.
Qed.

Lemma stringify_object_nonempty (members : list (string * json)) :
  Json.stringify (JObject members) <> EmptyString.
Proof. cbn. discriminate. Qed.

(** X14: tabs survive a restart.  When the state has a tab list with the
    active tab in it (its id not empty), and the platform's [JSON.parse]
    reads the text of [JSON.stringify] back as the value written, then
    starting the provider on what [savePersistedState] stored gives the
    same tabs in the same order, the same active tab, the same default path
    and the same explorer state for every id, without throwing; selections
    are not restored (every id reads as the empty selection). *)
Theorem restart_restores_session
    (st : TabManager) (prior : option string) (uuid : string) (now : number)
    (store0 : ExplorerStateStore) :
  let written := Encode.of_persisted (snapshot st) in
  Json.parse (Json.stringify written) = Some written ->
  tabs st <> [] ->
  In (activeTabId st) (map id (tabs st)) ->
  activeTabId st <> EmptyString ->
  exists st',
    startup (ReadValue (savePersistedState (snapshot st) WriteDone prior))
            uuid now store0 = Some (Returned st')
    /\ tabs st' = tabs st
    /\ activeTabId st' = activeTabId st
    /\ defaultNewTabPath st' = defaultNewTabPath st
    /\ (forall tabId, getExplorerState tabId st' = getExplorerState tabId st)
    /\ (forall tabId, getSelectionIds tabId st' = [])
    /\ listeners (explorerStateStore st') = listeners store0.
Proof.
  cbv zeta. intros Hparse Hne Hactive Htruthy.
  assert (Hload : loadPersistedState
                    (ReadValue (savePersistedState (snapshot st) WriteDone prior))
                  = Some (Encode.of_persisted (snapshot st))).
  { apply loadPersistedState_accepts. eexists. split; [reflexivity|].
    split; [apply stringify_object_nonempty|]. split; [exact Hparse|].
    repeat split. }
  unfold startup. rewrite Hload, as_PersistedState_encoded.
  destruct (tabs st) as [|t ts] eqn:Ets; [congruence|].
  assert (Hexists : existsb (has_id (activeTabId st)) (t :: ts) = true).
  { apply existsb_exists. apply in_map_iff in Hactive as (x & Hid & Hx).
    exists x. split; [exact Hx|by apply has_id_true]. }
  unfold TabManagerProvider, initial_tabs, initial_activeTabId, initial_store, snapshot.
  cbn [Persisted.tabs Persisted.activeTabId Persisted.explorerStates
       Persisted.defaultNewTabPath].
  rewrite Ets. cbn [length]. 
  destruct (Z.ltb_spec 0 (Z.of_nat (S (length ts)))); [|lia].
  unfold JsString.truthy. apply String.eqb_neq in Htruthy. rewrite Htruthy, Hexists.
  cbn. eexists. split; [reflexivity|]. cbn. repeat split.
  intros tabId. unfold getSelectionIds. cbn.
  destruct (decide (tabId = id t)) as [->|Hn].
  - by rewrite lookup_singleton_eq.
  - by rewrite lookup_singleton_ne by congruence.
Qed.

Lemma restart_restores_session_witness :
  exists st',
    startup (ReadValue (savePersistedState (snapshot one_tab_in_use) WriteDone None))
            "fresh" (int 9) Store.new = Some (Returned st')
    /\ tabs st' = tabs one_tab_in_use
    /\ activeTabId st' = activeTabId one_tab_in_use
    /\ sortBy (getExplorerState "t1" st') = SortSize
    /\ getSelectionIds "t1" st' = [].
Proof.
  destruct (restart_restores_session one_tab_in_use None "fresh" (int 9) Store.new)
    as (st' & E & Ht & Ha & _ & He & Hs & _).
  - vm_compute. reflexivity.
  - discriminate.
  - vm_compute. tauto.
  - discriminate.
  - exists st'. rewrite He, Hs. repeat split; assumption.
Defined.

(* ====================================================================== *)
(** * Further properties of the title deriver *)
(* ====================================================================== *)

Lemma explorer_path_title_truthy (pathParam title0 : string) :
  explorer_path_title pathParam = Returned (Some title0) ->
  JsString.truthy title0 = true.
Proof.
  unfold explorer_path_title.
  destruct (Uri.decodeURIComponent pathParam) as [text|]; [|discriminate].
  destruct (Json.parse text) as [sdPath|]; [|discriminate].
  destruct (JsValue.truthy _); [|discriminate].
  destruct (JsValue.get_opt "path" _) as [[| | |fullPath| |]|]; try discriminate.
  destruct (last_item _) as [p|]; [|by intros [= <-]].
  destruct (JsString.truthy p) eqn:E; by intros [= <-].
Qed.

(** X15: a derived title is never the empty string, whatever the pathname
    and the query string are (a malformed or undecodable [path] parameter
    included). *)
Theorem deriveTitleFromPath_never_empty (pathname search : string) :
  JsString.truthy (deriveTitleFromPath pathname search) = true.
Proof.
  unfold deriveTitleFromPath.
  destruct (routeTitles_hit pathname) as [t|] eqn:Eh.
  - unfold routeTitles_hit in Eh.
    destruct (routeTitles_get routeTitles pathname) as [t'|]; [|discriminate].
    destruct (JsString.truthy t') eqn:Et; [|discriminate]. by injection Eh as <-.
  - destruct (JsString.startsWith "/tag/" pathname).
    + destruct (nth_error _ 2) as [tagId|]; [|reflexivity].
      by destruct (JsString.truthy tagId).
    + destruct (JsString.eq pathname "/explorer" && JsString.truthy search);
        [|reflexivity].
      destruct (Uri.get "view" _) as [v|].
      * destruct (String.eqb_spec v "device") as [->|Hv].
        -- reflexivity.
        -- assert (E : forall A (x y : A),
                     match v with "device"%string => x | _ => y end = y).
           { intros A x y. clear -Hv.
             repeat (destruct v as [|[[] [] [] [] [] [] [] []] v]; try reflexivity).
             congruence. }
           rewrite E.
           destruct (Uri.get "path" _) as [pp|]; [|reflexivity].
           destruct (JsString.truthy pp); [|reflexivity].
           destruct (explorer_path_title pp) as [[t|]|] eqn:Et; try reflexivity.
           by apply explorer_path_title_truthy in Et.
      * destruct (Uri.get "path" _) as [pp|]; [|reflexivity].
        destruct (JsString.truthy pp); [|reflexivity].
        destruct (explorer_path_title pp) as [[t|]|] eqn:Et; try reflexivity.
        by apply explorer_path_title_truthy in Et.
Qed.

(** ** Slices in UTF-16 code units *)

(** A string of at most [n] code units is its own slice. *)
Lemma slice_units_whole (s : string) : forall n pending,
  (JsString.length_from pending s <= n)%nat -> JsString.slice_units n pending s = s.
Proof.
  induction s as [|c s IH]; intros n pending H; [reflexivity|].
  cbn [JsString.slice_units JsString.length_from] in *.
  destruct pending as [|p].
  - destruct (JsString.is_pair c).
    + destruct n as [|[|n]]; try lia. f_equal. apply IH. lia.
    + destruct n as [|n]; try lia. f_equal. apply IH. lia.
  - f_equal. by apply IH.
Qed.

(** A slice of [n] code units has at most [n], also with text after it. *)
Lemma slice_units_length (t : string) (k : nat) :
  (forall pending, (JsString.length_from pending t <= k)%nat) ->
  forall s n pending,
    (JsString.length_from pending (JsString.slice_units n pending s +:+ t) <= n + k)%nat.
Proof.
  intros Ht. induction s as [|c s IH]; intros n pending.
  - cbn [JsString.slice_units]. change ("" +:+ t) with t. specialize (Ht pending). lia.
  - cbn [JsString.slice_units]. destruct pending as [|p].
    + destruct n as [|n].
      * change ("" +:+ t) with t. specialize (Ht 0%nat). lia.
      * destruct (JsString.is_pair c) eqn:Ec.
        -- destruct n as [|n].
           ++ unfold JsString.high_surrogate. cbv zeta.
              match goal with
              | |- context [String ?a (String ?x (String ?y EmptyString)) +:+ t] =>
                  change (String a (String x (String y EmptyString)) +:+ t)
                    with (String a (String x (String y t)))
              end.
              cbn [JsString.length_from].
              change (JsString.is_pair (ascii_of_N 237)) with false.
              change (JsString.utf8_tail (ascii_of_N 237)) with 2%nat.
              cbn [JsString.length_from]. specialize (Ht 0%nat). lia.
           ++ change (String c (JsString.slice_units n 3 s) +:+ t)
                with (String c (JsString.slice_units n 3 s +:+ t)).
              cbn [JsString.length_from]. rewrite Ec. specialize (IH n 3%nat). lia.
        -- change (String c (JsString.slice_units n (JsString.utf8_tail c) s) +:+ t)
             with (String c (JsString.slice_units n (JsString.utf8_tail c) s +:+ t)).
           cbn [JsString.length_from]. rewrite Ec.
           specialize (IH n (JsString.utf8_tail c)). lia.
    + change (String c (JsString.slice_units n p s) +:+ t)
        with (String c (JsString.slice_units n p s +:+ t)).
      cbn [JsString.length_from]. apply IH.
Qed.

Lemma dots_length (pending : nat) : (JsString.length_from pending "..." <= 3)%nat.
Proof. destruct pending as [|[|[|p]]]; cbv; lia. Qed.

(** On ASCII text a code unit is a byte. *)
Lemma slice0_ascii (s : string) : forall n,
  Forall (fun c => (N_of_ascii c < 128)%N) (JsString.chars s) ->
  JsString.slice0 n s = String.substring 0 n s.
Proof.
  unfold JsString.slice0, JsString.chars.
  induction s as [|c s IH]; intros n H; [by destruct n|].
  cbn [list_ascii_of_string] in H. apply Forall_cons in H as [Hc Hs].
  destruct n as [|n]; [reflexivity|].
  cbn [JsString.slice_units String.substring].
  assert (Ep : JsString.is_pair c = false)
    by (unfold JsString.is_pair; apply N.leb_gt; lia).
  assert (Et : JsString.utf8_tail c = 0%nat).
  { unfold JsString.utf8_tail. cbv zeta.
    destruct (N.ltb_spec (N_of_ascii c) 192); [reflexivity|lia]. }
  rewrite Ep, Et. f_equal. by apply IH.
Qed.

(** X16: every pathname under "/tag/" is titled by the tag id, the text
    between "/tag/" and the next slash: "Tag: ", the first eight UTF-16
    code units of the id, and "..."; "Tag" when the id is empty.  An id of
    eight code units or fewer is shown whole, and of an ASCII id the first
    eight characters are shown.  The query string plays no part, and the
    title has at most sixteen code units. *)
Theorem deriveTitleFromPath_tag (rest search : string) :
  let shown := deriveTitleFromPath ("/tag/" +:+ rest) search in
  shown = match JsString.split "/" rest with
          | tagId :: _ =>
              if JsString.truthy tagId
              then "Tag: " +:+ JsString.slice0 8 tagId +:+ "..."
              else "Tag"
          | [] => "Tag"
          end%string
  /\ (forall tagId more,
        JsString.split "/" rest = tagId :: more -> tagId <> EmptyString ->
        (JsString.length tagId <= 8)%nat ->
        shown = "Tag: " +:+ tagId +:+ "...")
  /\ (forall tagId more,
        JsString.split "/" rest = tagId :: more -> tagId <> EmptyString ->
        Forall (fun c => (N_of_ascii c < 128)%N) (JsString.chars tagId) ->
        shown = "Tag: " +:+ String.substring 0 8 tagId +:+ "...")
  /\ (JsString.length shown <= 16)%nat.
Proof.
  cbv zeta.
  assert (E : deriveTitleFromPath ("/tag/" +:+ rest) search
              = match JsString.split "/" rest with
                | tagId :: _ =>
                    if JsString.truthy tagId
                    then "Tag: " +:+ JsString.slice0 8 tagId +:+ "..."
                    else "Tag"
                | [] => "Tag"
                end%string).
  { change ("/tag/" +:+ rest)
      with (String "/" (String "t" (String "a" (String "g" (String "/" rest))))).
    unfold deriveTitleFromPath, routeTitles_hit. cbn.
    replace (String.prefix "" rest) with true by (by destruct rest).
    by destruct (JsString.split "/" rest) as [|tagId more]. }
  rewrite E. split; [reflexivity|]. split; [|split].
  - intros tagId more -> Hne Hlen.
    unfold JsString.truthy. apply String.eqb_neq in Hne. rewrite Hne. cbn [negb].
    unfold JsString.slice0. by rewrite slice_units_whole.
  - intros tagId more -> Hne Hascii.
    unfold JsString.truthy. apply String.eqb_neq in Hne. rewrite Hne. cbn [negb].
    by rewrite slice0_ascii.
  - destruct (JsString.split "/" rest) as [|tagId more]; [cbv; lia|].
    destruct (JsString.truthy tagId); [|cbv; lia].
    change ("Tag: " +:+ JsString.slice0 8 tagId +:+ "...")
      with (String "T" (String "a" (String "g" (String ":" (String " "
              (JsString.slice0 8 tagId +:+ "...")))))).
    unfold JsString.length. cbn [JsString.length_from].
    change (JsString.is_pair "T") with false. change (JsString.utf8_tail "T") with 0%nat.
    change (JsString.is_pair "a") with false. change (JsString.utf8_tail "a") with 0%nat.
    change (JsString.is_pair "g") with false. change (JsString.utf8_tail "g") with 0%nat.
    change (JsString.is_pair ":") with false. change (JsString.utf8_tail ":") with 0%nat.
    change (JsString.is_pair " ") with false. change (JsString.utf8_tail " ") with 0%nat.
    cbn [JsString.length_from].
    pose proof (slice_units_length "..." 3 dots_length tagId 8 0) as H.
    unfold JsString.slice0. lia.
Qed.

(* ====================================================================== *)
(** * Quick preview: navigation between files *)
(* ====================================================================== *)

Section Navigation.
Import QuickPreviewController.

Lemma is_file_true (fid : string) (f : File.t) : is_file fid f = true <-> File.id f = fid.
Proof. unfold is_file, JsString.eq. apply String.eqb_eq. Qed.

(** X17: the two navigation buttons are enabled exactly when their
    handlers select a file, and a handler only ever selects one of the
    files for navigation: [handleNext] and [handlePrevious] never read past
    either end of the list. *)
Theorem navigation_buttons_agree (files : list File.t) (fid : string) :
  (hasNext files fid = true <-> exists f, handleNext files fid = Some f)
  /\ (hasPrevious files fid = true <-> exists f, handlePrevious files fid = Some f)
  /\ (forall f, handleNext files fid = Some f -> In f files)
  /\ (forall f, handlePrevious files fid = Some f -> In f files).
Proof.
  pose proof (findIndex_bounds (is_file fid) files) as Hb.
  unfold handleNext, handlePrevious, hasNext, hasPrevious, currentIndex.
  set (i := findIndex (is_file fid) files) in *.
  split; [|split; [|split]].
  - destruct (Z.ltb_spec i (Z.of_nat (length files) - 1)) as [Hlt|Hge].
    + split; [intros _|reflexivity]. apply item_in_range. lia.
    + split; [discriminate|]. by intros [f Hf].
  - destruct (Z.ltb_spec 0 i) as [Hlt|Hge].
    + split; [intros _|reflexivity]. apply item_in_range. lia.
    + split; [discriminate|]. by intros [f Hf].
  - intros f. destruct (_ <? _); [apply item_In|discriminate].
  - intros f. destruct (_ <? _); [apply item_In|discriminate].
Qed.

(** X18: when the previewed file is in the files for navigation,
    [handleNext] selects the file right after its first occurrence and
    [handlePrevious] the file right before it; the Next button is disabled
    exactly on the last file, the Previous button exactly on the first, and
    the file shown is that occurrence whenever the selection holds no file
    of that id. *)
Theorem navigation_selects_neighbours
    (pre : list File.t) (f : File.t) (post : list File.t) (fid : string) :
  Forall (fun x => is_file fid x = false) pre ->
  File.id f = fid ->
  let files := pre ++ f :: post in
  handleNext files fid = head post
  /\ handlePrevious files fid = last pre
  /\ hasNext files fid = negb (bool_decide (post = []))
  /\ hasPrevious files fid = negb (bool_decide (pre = []))
  /\ (forall selectedFiles,
        Forall (fun x => is_file fid x = false) selectedFiles ->
        previewFile selectedFiles files fid = Some f).
Proof.
  intros Hpre Hf. cbv zeta. apply is_file_true in Hf.
  unfold handleNext, handlePrevious, hasNext, hasPrevious, currentIndex.
  rewrite (findIndex_found _ _ _ _ Hpre Hf), length_app. cbn [length].
  split; [|split; [|split; [|split]]].
  - destruct post as [|p post]; cbn [length head].
    + destruct (Z.ltb_spec (Z.of_nat (length pre)) (Z.of_nat (length pre + 1) - 1));
        [lia|reflexivity].
    + destruct (Z.ltb_spec (Z.of_nat (length pre))
                  (Z.of_nat (length pre + S (S (length post))) - 1)); [|lia].
      replace (Z.of_nat (length pre) + 1) with (Z.of_nat (length (pre ++ [f])))
        by (rewrite length_app; cbn; lia).
      replace (pre ++ f :: p :: post) with ((pre ++ [f]) ++ p :: post)
        by (by rewrite <- app_assoc).
      rewrite item_nat, nth_error_app2 by lia. by rewrite Nat.sub_diag.
  - destruct (last_cases pre) as [(pre' & p & ->)| ->].
    + rewrite last_snoc, length_app. cbn [length].
      destruct (Z.ltb_spec 0 (Z.of_nat (length pre' + 1))); [|lia].
      replace (Z.of_nat (length pre' + 1) - 1) with (Z.of_nat (length pre')) by lia.
      rewrite <- app_assoc. cbn [app].
      rewrite item_nat, nth_error_app2 by lia. by rewrite Nat.sub_diag.
    + reflexivity.
  - destruct post as [|p post]; cbn [length].
    + rewrite bool_decide_true by reflexivity. cbn. apply Z.ltb_ge. lia.
    + rewrite bool_decide_false by discriminate. cbn. apply Z.ltb_lt. lia.
  - destruct pre as [|p pre]; cbn [length].
    + by rewrite bool_decide_true by reflexivity.
    + rewrite bool_decide_false by discriminate. cbn. apply Z.ltb_lt. lia.
  - intros selectedFiles Hsel. unfold previewFile.
    replace (List.find (is_file fid) selectedFiles) with (@None File.t).
    + clear -Hpre Hf. induction Hpre as [|x pre Hx _ IH]; cbn.
      * by rewrite Hf.
      * by rewrite Hx.
    + clear -Hsel. induction Hsel as [|x l Hx _ IH]; cbn; [reflexivity|].
      by rewrite Hx.
Qed.

End Navigation.

Lemma navigation_selects_neighbours_witness :
  QuickPreviewController.handleNext
    ([file_named "f1"] ++ file_named "f2" :: [file_named "f3"]) "f2"
  = Some (file_named "f3")
  /\ QuickPreviewController.handlePrevious
       ([file_named "f1"] ++ file_named "f2" :: [file_named "f3"]) "f2"
     = Some (file_named "f1")
  /\ QuickPreviewController.previewFile [file_named "f9"]
       ([file_named "f1"] ++ file_named "f2" :: [file_named "f3"]) "f2"
     = Some (file_named "f2").
Proof.
  destruct (navigation_selects_neighbours
              [file_named "f1"] (file_named "f2") [file_named "f3"] "f2")
    as (Hn & Hp & _ & _ & Hshown).
  - repeat constructor.
  - reflexivity.
  - split; [exact Hn|]. split; [exact Hp|]. apply Hshown. repeat constructor.
Defined.

Section Preview.
Import QuickPreviewController.

(** X19: when the previewed file is not among the files for navigation
    (a file known only to the selection), the Previous button is disabled
    and does nothing, while the Next button is enabled as soon as there is
    any file, and selects the first one. *)
Theorem navigation_from_missing_file (files : list File.t) (fid : string) :
  Forall (fun x => is_file fid x = false) files ->
  hasPrevious files fid = false
  /\ handlePrevious files fid = None
  /\ hasNext files fid = negb (bool_decide (files = []))
  /\ handleNext files fid = head files.
Proof.
  intros Hall.
  unfold handleNext, handlePrevious, hasNext, hasPrevious, currentIndex.
  rewrite (findIndex_absent _ _ Hall).
  destruct files as [|f files]; cbn [length head]; [by repeat split|].
  rewrite bool_decide_false by discriminate.
  destruct (Z.ltb_spec (-1) (Z.of_nat (S (length files)) - 1)); [|lia].
  by repeat split.
Qed.

Lemma navigation_from_missing_file_witness :
  handleNext [file_named "f1"; file_named "f2"] "gone" = Some (file_named "f1")
  /\ hasPrevious [file_named "f1"; file_named "f2"] "gone" = false.
Proof.
  destruct (navigation_from_missing_file [file_named "f1"; file_named "f2"] "gone")
    as (Hp & _ & _ & Hn).
  - repeat constructor.
  - split; [exact Hn|exact Hp].
Defined.

(** X20: the file shown in the preview always has the previewed id and
    comes from the selection or from the current files; a file of the
    selection wins over one of the current files; and nothing is shown
    exactly when neither list holds a file of that id. *)
Theorem previewFile_lookup (selectedFiles currentFiles : list File.t) (fid : string) :
  (forall f, previewFile selectedFiles currentFiles fid = Some f ->
     File.id f = fid /\ (In f selectedFiles \/ In f currentFiles))
  /\ (forall f, List.find (is_file fid) selectedFiles = Some f ->
        previewFile selectedFiles currentFiles fid = Some f)
  /\ (previewFile selectedFiles currentFiles fid = None <->
      Forall (fun x => File.id x <> fid) (selectedFiles ++ currentFiles)).
Proof.
  unfold previewFile. split; [|split].
  - intros f. destruct (List.find _ selectedFiles) as [g|] eqn:Es.
    + intros [= <-]. apply find_some in Es as [Hin Hid].
      split; [by apply is_file_true|by left].
    + intros Ec. apply find_some in Ec as [Hin Hid].
      split; [by apply is_file_true|by right].
  - by intros f ->.
  - rewrite Forall_app, !List.Forall_forall.
    destruct (List.find _ selectedFiles) as [g|] eqn:Es.
    + split; [discriminate|]. intros [Hs _]. apply find_some in Es as [Hin Hid].
      apply is_file_true in Hid. by apply Hs in Hin.
    + split.
      * intros Ec. split; intros x Hx Hid.
        -- apply (find_none _ _ Es) in Hx. apply is_file_true in Hid. congruence.
        -- apply (find_none _ _ Ec) in Hx. apply is_file_true in Hid. congruence.
      * intros [_ Hc]. destruct (List.find _ currentFiles) as [g|] eqn:Ec; [|reflexivity].
        apply find_some in Ec as [Hin Hid]. apply is_file_true in Hid.
        by apply Hc in Hin.
Qed.

End Preview.

(* ====================================================================== *)
(** * Quick preview window: label and ephemeral file *)
(* ====================================================================== *)

Section WindowLabel.
Import QuickPreviewWindow.

Lemma strip_app (p1 p2 s : string) : strip (p1 +:+ p2) (p1 +:+ s) = strip p2 s.
Proof.
  induction p1 as [|c p1 IH]; [reflexivity|].
  change (String c p1 +:+ p2) with (String c (p1 +:+ p2)).
  change (String c p1 +:+ s) with (String c (p1 +:+ s)).
  cbn [strip]. by rewrite Ascii.eqb_refl.
Qed.

Lemma strip_self (p s : string) : strip p (p +:+ s) = Some s.
Proof.
  induction p as [|c p IH]; [by destruct s|].
  change (String c p +:+ s) with (String c (p +:+ s)).
  cbn [strip]. by rewrite Ascii.eqb_refl.
Qed.

Lemma strip_longer (p1 p2 s : string) :
  strip p1 s = None -> strip (p1 +:+ p2) s = None.
Proof.
  revert s. induction p1 as [|a p1 IH]; intros s; [discriminate|].
  change (String a p1 +:+ p2) with (String a (p1 +:+ p2)).
  destruct s as [|b s]; cbn [strip]; [reflexivity|].
  destruct (Ascii.eqb a b); [apply IH|reflexivity].
Qed.

Lemma strip_no_prefix (p s : string) : String.prefix p s = false -> strip p s = None.
Proof.
  revert s. induction p as [|a p IH]; intros [|b s]; cbn; try discriminate; auto.
  destruct (ascii_dec a b) as [->|Hne].
  - rewrite Ascii.eqb_refl. apply IH.
  - intros _. apply Ascii.eqb_neq in Hne. by rewrite Hne.
Qed.

(** X21: how the window label is read.  A label that does not start with
    "quick-preview-" does nothing.  "quick-preview-" followed by a
    non-empty id without line break sets the file id to that id, provided
    the id does not start with "path-" (or is "path-" itself).  A label
    "quick-preview-path-" followed by any non-empty text without line
    break never sets a file id: the text is decoded as an ephemeral path,
    or the failure is logged. *)
Theorem read_label_rules (label fileId : string) :
  (String.prefix "quick-preview-" label = false -> read_label label = Nothing)
  /\ (fileId <> EmptyString ->
      has_line_terminator (JsString.chars fileId) = false ->
      String.prefix "path-" fileId = false \/ fileId = "path-"%string ->
      read_label ("quick-preview-" +:+ fileId) = SetFileId fileId)
  /\ (fileId <> EmptyString ->
      has_line_terminator (JsString.chars fileId) = false ->
      sets_file_id (read_label ("quick-preview-path-" +:+ fileId)) = false
      /\ read_label ("quick-preview-path-" +:+ fileId) <> Nothing).
Proof.
  split; [|split].
  - intros Hp. unfold read_label, match_rest.
    pose proof (strip_no_prefix _ _ Hp) as Hs.
    change "quick-preview-path-"%string with ("quick-preview-" +:+ "path-")%string.
    by rewrite (strip_longer _ "path-" _ Hs), Hs.
  - intros Hne Hlt Hpath. unfold read_label, match_rest.
    change "quick-preview-path-"%string with ("quick-preview-" +:+ "path-")%string.
    rewrite strip_app, strip_self.
    unfold JsString.truthy. apply String.eqb_neq in Hne. rewrite Hne, Hlt. cbn [negb andb].
    destruct Hpath as [Hp | ->]; [by rewrite (strip_no_prefix _ _ Hp)|reflexivity].
  - intros Hne Hlt. unfold read_label, match_rest. rewrite strip_self.
    unfold JsString.truthy. apply String.eqb_neq in Hne. rewrite Hne, Hlt. cbn [negb andb].
    destruct (Uri.decodeURIComponent fileId) as [text|]; [|by split].
    destruct (Json.parse text); by split.
Qed.

Lemma read_label_rules_witness :
  read_label "main" = Nothing
  /\ read_label ("quick-preview-" +:+ "0f3a-77") = SetFileId "0f3a-77"
  /\ read_label ("quick-preview-" +:+ "path-") = SetFileId "path-"
  /\ sets_file_id (read_label ("quick-preview-path-" +:+ "%7B%7D")) = false.
Proof.
  split; [|split; [|split]].
  - by apply (proj1 (read_label_rules "main" "")).
  - apply (proj1 (proj2 (read_label_rules "" "0f3a-77")));
      [discriminate|reflexivity|by left].
  - apply (proj1 (proj2 (read_label_rules "" "path-")));
      [discriminate|reflexivity|by right].
  - apply (proj2 (proj2 (read_label_rules "" "%7B%7D"))); [discriminate|reflexivity].
Defined.

End WindowLabel.

Section EphemeralFileFacts.
Import QuickPreviewWindow.

(** The last piece of a split is the end of the string, and holds no
    separator. *)
Lemma split_any_last (seps : list ascii) (s : string) :
  exists before n,
    last (split_any seps s) = Some n
    /\ s = before +:+ n
    /\ free_of seps n
    /\ (split_any seps s = [n] -> before = EmptyString).
Proof.
  induction s as [|c s (before & n & Hlast & Hs & Hfree & Hone)].
  - exists EmptyString, EmptyString. repeat split; constructor.
  - cbn [split_any]. destruct (existsb (Ascii.eqb c) seps) eqn:Ec.
    + exists (String c before), n. split; [|split; [|split]].
      * destruct (split_any seps s) as [|w ws]; [discriminate|exact Hlast].
      * change (String c before +:+ n) with (String c (before +:+ n)). by rewrite <- Hs.
      * exact Hfree.
      * destruct (split_any seps s); [discriminate|discriminate].
    + destruct (split_any seps s) as [|w [|w' ws]] eqn:Esplit; [discriminate| |].
      * cbn in Hlast. injection Hlast as <-.
        rewrite (Hone eq_refl) in Hs. cbn in Hs. subst s.
        exists EmptyString, (String c w). repeat split.
        constructor; [exact Ec|exact Hfree].
      * exists (String c before), n. split; [exact Hlast|]. split; [|split].
        -- change (String c before +:+ n) with (String c (before +:+ n)).
           by rewrite <- Hs.
        -- exact Hfree.
        -- discriminate.
Qed.

Lemma split_any_free (seps : list ascii) (s : string) :
  free_of seps s -> split_any seps s = [s].
Proof.
  unfold free_of, JsString.chars. induction s as [|c s IH]; [reflexivity|].
  cbn [list_ascii_of_string split_any]. intros H. apply Forall_cons in H as [Hc Hs].
  by rewrite Hc, IH.
Qed.

(** The piece after the last separator is the last piece of the split. *)
Lemma split_any_after (seps : list ascii) (sep : ascii) (after : string) :
  existsb (Ascii.eqb sep) seps = true -> free_of seps after ->
  forall before,
    last (split_any seps (before +:+ String sep after)) = Some after.
Proof.
  intros Hsep Hfree before.
  assert (E : exists w ws,
             split_any seps (before +:+ String sep after) = w :: ws ++ [after]).
  { induction before as [|c before (w & ws & IH)].
    - change ("" +:+ String sep after) with (String sep after).
      cbn [split_any]. rewrite Hsep, (split_any_free _ _ Hfree).
      by exists EmptyString, [].
    - change (String c before +:+ String sep after)
        with (String c (before +:+ String sep after)).
      cbn [split_any]. rewrite IH. destruct (existsb (Ascii.eqb c) seps).
      + by exists EmptyString, (w :: ws).
      + by exists (String c w), ws. }
  destruct E as (w & ws & ->).
  change (w :: ws ++ [after]) with ((w :: ws) ++ [after]). apply last_snoc.
Qed.

Lemma includes_dot_after (stem e : string) : includes_dot (stem +:+ String "." e) = true.
Proof.
  unfold includes_dot, JsString.chars. induction stem as [|c stem IH]; [reflexivity|].
  change (String c stem +:+ String "." e) with (String c (stem +:+ String "." e)).
  cbn [list_ascii_of_string existsb]. rewrite IH. apply orb_true_r.
Qed.

Variable toLowerCase : string -> string.

(** X22: the file shown for an ephemeral path.  When the decoded path has
    a non-empty string at [Physical.path], the file has the id
    "ephemeral-" followed by the path, size 0, kind "File", and carries
    the decoded path.  Its name is the whole path when the path holds no
    slash or backslash, and otherwise the text after the last of them, or
    the whole path when nothing follows it; so the name is never empty and
    ends the path.  It has an extension exactly when the name holds a dot:
    the text after the last dot, in lower case.  Without a truthy
    [Physical.path] there is no file, and a [Physical.path] that is truthy
    and no string throws. *)
Theorem ephemeral_file_of_path (sd : json) (path : string) :
  (JsValue.get_opt "path" (JsValue.get_opt "Physical" (Some sd)) = Some (JString path) ->
   path <> EmptyString ->
   exists f,
     ephemeral_file toLowerCase (Some sd) = Returned (Some f)
     /\ File.id f = "ephemeral-" +:+ path
     /\ File.sd_path f = sd
     /\ File.size f = int 0 /\ File.kind f = "File"%string
     /\ File.name f <> EmptyString
     /\ (exists before, path = before +:+ File.name f)
     /\ (File.name f = path \/ free_of path_separators (File.name f))
     /\ (File.extension f = None <-> includes_dot (File.name f) = false)
     /\ (free_of path_separators path -> File.name f = path)
     /\ (forall before sep after,
           path = before +:+ String sep after ->
           sep = "/"%char \/ sep = "\"%char ->
           free_of path_separators after ->
           File.name f = if JsString.truthy after then after else path)
     /\ (forall stem e,
           File.name f = stem +:+ String "." e ->
           free_of ["."%char] e ->
           File.extension f = Some (toLowerCase e)))
  /\ (JsValue.truthy (JsValue.get_opt "path" (JsValue.get_opt "Physical" (Some sd))) = false ->
      ephemeral_file toLowerCase (Some sd) = Returned None)
  /\ ephemeral_file toLowerCase None = Returned None
  /\ (JsValue.truthy (JsValue.get_opt "path" (JsValue.get_opt "Physical" (Some sd))) = true ->
      (forall s, JsValue.get_opt "path" (JsValue.get_opt "Physical" (Some sd))
                 <> Some (JString s)) ->
      ephemeral_file toLowerCase (Some sd) = Thrown).
Proof.
  split; [|split; [|split]].
  - intros Hpath Hne. unfold ephemeral_file.
    assert (Hsd : JsValue.truthy (Some sd) = true).
    { destruct sd; try discriminate Hpath. reflexivity. }
    rewrite Hsd, Hpath. cbn [negb JsValue.truthy].
    assert (Ht : JsString.truthy path = true)
      by (unfold JsString.truthy; apply String.eqb_neq in Hne; by rewrite Hne).
    rewrite Ht. cbn [negb].
    destruct (split_any_last path_separators path)
      as (before & n & Hlast & Hs & Hfree & _).
    rewrite Hlast.
    eexists. split; [reflexivity|]. cbn [File.id File.sd_path File.size File.kind
                                         File.name File.extension].
    split; [reflexivity|]. split; [reflexivity|]. split; [reflexivity|].
    split; [reflexivity|].
    split; [|split; [|split; [|split; [|split; [|split]]]]].
    + destruct (JsString.truthy n) eqn:En; [|exact Hne].
      unfold JsString.truthy in En. apply negb_true_iff, String.eqb_neq in En. exact En.
    + destruct (JsString.truthy n); [by exists before|by exists EmptyString].
    + destruct (JsString.truthy n); [by right|by left].
    + split.
      * destruct (includes_dot _); [|reflexivity].
        destruct (split_any_last ["."%char]
                    (if JsString.truthy n then n else path)) as (b & e & -> & _).
        discriminate.
      * intros Hdot. by rewrite Hdot.
    + intros Hwhole. rewrite (split_any_free _ _ Hwhole) in Hlast.
      injection Hlast as <-. by destruct (JsString.truthy path).
    + intros before' sep after Hsplit Hsep Hafter.
      rewrite Hsplit, split_any_after in Hlast.
      * by injection Hlast as <-.
      * by destruct Hsep as [-> | ->].
      * exact Hafter.
    + intros stem e Hname Hfree_e. rewrite Hname.
      by rewrite includes_dot_after, split_any_after.
  - intros Hfalsy. unfold ephemeral_file. rewrite Hfalsy.
    by destruct (JsValue.truthy (Some sd)).
  - reflexivity.
  - intros Htruthy Hnot. unfold ephemeral_file. rewrite Htruthy.
    assert (Hsd : JsValue.truthy (Some sd) = true).
    { destruct sd; try discriminate Htruthy. reflexivity. }
    rewrite Hsd. cbn [negb].
    destruct (JsValue.get_opt "path" _) as [[| | |s| |]|]; try reflexivity.
    by destruct (Hnot s).
Qed.

End EphemeralFileFacts.

Lemma ephemeral_file_of_path_witness :
  exists f,
    QuickPreviewWindow.ephemeral_file (fun s => s) (Some documents_sdPath)
    = Returned (Some f)
    /\ File.id f = "ephemeral-/Users/me/Documents"%string
    /\ File.name f = "Documents"%string.
Proof.
  destruct (proj1 (ephemeral_file_of_path (fun s => s) documents_sdPath
                     "/Users/me/Documents") eq_refl)
    as (f & E & Hid & _ & _ & _ & _ & _ & _ & _ & _ & Hn & _).
  - discriminate.
  - exists f. split; [exact E|]. split; [exact Hid|].
    apply (Hn "/Users/me" "/"%char "Documents"%string).
    + reflexivity.
    + by left.
    + repeat constructor.
Defined.

(* ====================================================================== *)
(** * Settings window *)
(* ====================================================================== *)

(** ** Splitting at a character *)

Lemma split_free (sep : ascii) (s : string) :
  QuickPreviewWindow.free_of [sep] s -> JsString.split sep s = [s].
Proof.
  unfold QuickPreviewWindow.free_of. induction s as [|c s IH]; cbn; [reflexivity|].
  intros H. apply Forall_cons in H as [Hc Hs]. cbn in Hc. rewrite orb_false_r in Hc.
  rewrite Hc, IH by exact Hs. reflexivity.
Qed.

Lemma split_at_first (sep : ascii) (a rest : string) :
  QuickPreviewWindow.free_of [sep] a ->
  JsString.split sep (a +:+ String sep rest) = a :: JsString.split sep rest.
Proof.
  unfold QuickPreviewWindow.free_of. induction a as [|c a IH]; intros H.
  - change ("" +:+ String sep rest) with (String sep rest). cbn.
    by rewrite Ascii.eqb_refl.
  - change (String c a +:+ String sep rest) with (String c (a +:+ String sep rest)).
    cbn in H. apply Forall_cons in H as [Hc Ha]. cbn in Hc. rewrite orb_false_r in Hc.
    cbn [JsString.split]. rewrite Hc, IH by exact Ha. reflexivity.
Qed.

(** The pieces between the slashes are what [split] gives back. *)
Lemma split_concat (sep : ascii) (segments : list string) :
  Forall (QuickPreviewWindow.free_of [sep]) segments -> segments <> [] ->
  JsString.split sep (String.concat (String sep EmptyString) segments) = segments.
Proof.
  induction 1 as [|x rest Hx Hrest IH]; [congruence|]. intros _.
  destruct rest as [|y rest]; [by apply split_free|].
  change (String.concat (String sep EmptyString) (x :: y :: rest))
    with (x +:+ String sep (String.concat (String sep EmptyString) (y :: rest))).
  rewrite split_at_first by exact Hx. by rewrite IH.
Qed.

(** X23: every section of the settings sidebar opens a page of its own,
    and any other page name shows the General page; exactly the button of
    the current page is drawn with a background.  The window starts on
    the page named by the second non-empty segment of its pathname,
    whatever follows that segment ("/settings/about" starts on "about"),
    and on "general" when the pathname has fewer than two non-empty
    segments; the starting page is never the empty name.  A pathname is
    given by its [segments], the pieces between its slashes. *)
Theorem settings_pages (name pathname first second current section : string) :
  NoDup (map (fun s => Settings.SettingsContent (fst s)) Settings.sections)
  /\ length Settings.sections = 8%nat
  /\ String.prefix "bg-" (Settings.button_class current section)
     = String.eqb current section
  /\ (~ In name (map fst Settings.sections) ->
      Settings.SettingsContent name = Settings.GeneralSettings)
  /\ JsString.truthy (Settings.initialPage pathname) = true
  /\ (forall segments,
        Forall (QuickPreviewWindow.free_of ["/"%char]) segments ->
        Settings.initialPage (String.concat "/" segments)
        = default "general"%string
            (nth_error (List.filter JsString.truthy segments) 1))
  /\ (QuickPreviewWindow.free_of ["/"%char] first -> first <> EmptyString ->
      Settings.initialPage ("/" +:+ first) = "general"%string
      /\ (QuickPreviewWindow.free_of ["/"%char] second -> second <> EmptyString ->
          Settings.initialPage ("/" +:+ first +:+ "/" +:+ second) = second)).
Proof.
  split; [|split; [reflexivity|split; [|split; [|split; [|split]]]]].
  - apply NoDup_ListNoDup. cbn. repeat constructor; cbn; intuition discriminate.
  - unfold Settings.button_class.
    by destruct (String.eqb current section), (String.eqb current "about").
  - intros Hnot. unfold Settings.SettingsContent.
    repeat match goal with
           | |- context [String.eqb name ?k] =>
               destruct (String.eqb_spec name k) as [->|_];
               [exfalso; apply Hnot; cbn; tauto|]
           end.
    reflexivity.
  - unfold Settings.initialPage. destruct (nth_error _ 1) as [p|]; [|reflexivity].
    by destruct (JsString.truthy p) eqn:E.
  - intros segments Hfree. destruct segments as [|x rest]; [reflexivity|].
    unfold Settings.initialPage. rewrite split_concat by (exact Hfree || discriminate).
    destruct (nth_error _ 1) as [p|] eqn:Ep; [|reflexivity].
    apply nth_error_In, filter_In in Ep as [_ Hp]. by rewrite Hp.
  - intros Hf Hne.
    assert (Ht : JsString.truthy first = true)
      by (unfold JsString.truthy; apply String.eqb_neq in Hne; by rewrite Hne).
    split.
    + unfold Settings.initialPage.
      change ("/" +:+ first) with ("" +:+ String "/" first).
      rewrite split_at_first by constructor. rewrite split_free by exact Hf.
      cbn. by rewrite Ht.
    + intros Hs Hne2.
      assert (Ht2 : JsString.truthy second = true)
        by (unfold JsString.truthy; apply String.eqb_neq in Hne2; by rewrite Hne2).
      unfold Settings.initialPage.
      change ("/" +:+ first +:+ "/" +:+ second)
        with ("" +:+ String "/" (first +:+ String "/" second)).
      rewrite split_at_first by constructor.
      rewrite split_at_first by exact Hf. rewrite split_free by exact Hs.
      cbn [List.filter]. rewrite Ht, Ht2. cbn. by rewrite Ht2.
Qed.

Lemma settings_pages_witness :
  Settings.initialPage ("/" +:+ "settings") = "general"%string
  /\ Settings.initialPage ("/" +:+ "settings" +:+ "/" +:+ "about") = "about"%string
  /\ Settings.initialPage "/settings/library/extra" = "library"%string
  /\ Settings.SettingsContent "nowhere" = Settings.GeneralSettings.
Proof.
  pose proof (settings_pages "nowhere" "" "settings" "about" "" "")
    as (_ & _ & _ & Hn & _ & Hsegments & Hp).
  destruct Hp as [H1 H2]; [repeat constructor|discriminate|].
  split; [exact H1|]. split; [|split].
  - apply H2; [repeat constructor|discriminate].
  - apply (Hsegments [""; "settings"; "library"; "extra"]%string).
    repeat constructor.
  - apply Hn. cbn. intuition discriminate.
Defined.

(* ====================================================================== *)
(** * createTab: the title of a path with a query string *)
(* ====================================================================== *)

(** X24: [createTab] without title derives the title from the path up to
    its first question mark and from the query string up to the second
    one (with the question mark put back, or the empty query string when
    nothing follows the mark); whatever follows a second question mark
    plays no part in the title.  The tab keeps the whole path as its saved
    path. *)
Theorem createTab_title_from_path
    (pathname query more uuid : string) (now : number) (st : TabManager) :
  QuickPreviewWindow.free_of ["?"%char] pathname ->
  QuickPreviewWindow.free_of ["?"%char] query ->
  let expected :=
    deriveTitleFromPath pathname (if JsString.truthy query then "?" +:+ query else "") in
  derivedTitle None pathname = deriveTitleFromPath pathname ""
  /\ derivedTitle None (pathname +:+ "?" +:+ query) = expected
  /\ derivedTitle None (pathname +:+ "?" +:+ query +:+ "?" +:+ more) = expected
  /\ exists t,
       last (tabs (createTab None (Some (pathname +:+ "?" +:+ query +:+ "?" +:+ more))
                             uuid now st)) = Some t
       /\ title t = expected
       /\ savedPath t = pathname +:+ "?" +:+ query +:+ "?" +:+ more.
Proof.
  intros Hp Hq. cbv zeta.
  assert (H1 : derivedTitle None (pathname +:+ "?" +:+ query)
               = deriveTitleFromPath pathname
                   (if JsString.truthy query then "?" +:+ query else "")).
  { unfold derivedTitle.
    change (pathname +:+ "?" +:+ query) with (pathname +:+ String "?" query).
    rewrite split_at_first by exact Hp. rewrite split_free by exact Hq. reflexivity. }
  assert (H2 : derivedTitle None (pathname +:+ "?" +:+ query +:+ "?" +:+ more)
               = deriveTitleFromPath pathname
                   (if JsString.truthy query then "?" +:+ query else "")).
  { unfold derivedTitle.
    change (pathname +:+ "?" +:+ query +:+ "?" +:+ more)
      with (pathname +:+ String "?" (query +:+ String "?" more)).
    rewrite split_at_first by exact Hp. rewrite split_at_first by exact Hq.
    reflexivity. }
  split; [|split; [exact H1|split; [exact H2|]]].
  - unfold derivedTitle. rewrite split_free by exact Hp. reflexivity.
  - unfold createTab. cbn [tabs Store.setState]. rewrite last_snoc.
    eexists. split; [reflexivity|]. split; [exact H2|reflexivity].
Qed.

Lemma createTab_title_from_path_witness :
  derivedTitle None ("/explorer" +:+ "?" +:+ "view=device") = "This Device"%string
  /\ derivedTitle None ("/explorer" +:+ "?" +:+ "view=device" +:+ "?" +:+ "x")
     = "This Device"%string.
Proof.
  destruct (createTab_title_from_path "/explorer" "view=device" "x" "u" (int 0) one_tab)
    as (_ & H1 & H2 & _).
  - repeat constructor.
  - repeat constructor.
  - split; [rewrite H1|rewrite H2]; vm_compute; reflexivity.
Defined.

(* ====================================================================== *)
(** * An active tab id that names no tab *)
(* ====================================================================== *)

(** X25: when the active tab id names no tab of the list (as after
    [switchTab] with an unknown id), [nextTab] activates the first tab,
    and [previousTab] the tab before the last one (the only tab when there
    is one tab); neither throws on a non-empty list. *)
Theorem navigation_from_unknown_active (now : number) (st : TabManager) (t : Tab)
    (ts : list Tab) :
  tabs st = t :: ts ->
  ~ In (activeTabId st) (map id (tabs st)) ->
  nextTab now st = Returned (switchTab (id t) now st)
  /\ activeTabId (switchTab (id t) now st) = id t
  /\ exists t',
       item (tabs st) (Z.max 0 (Z.of_nat (length (tabs st)) - 2)) = Some t'
       /\ previousTab now st = Returned (switchTab (id t') now st).
Proof.
  intros Ets Hnot. pose proof (not_in_ids _ _ Hnot) as Hall.
  unfold nextTab, previousTab, tab_count, js_rem, switch_to_index.
  rewrite (findIndex_absent _ _ Hall), Ets. cbn [length].
  destruct (Z.eqb_spec (Z.of_nat (S (length ts))) 0); [lia|].
  split; [|split].
  - rewrite Z.rem_0_l by lia. reflexivity.
  - apply switchTab_active.
  - destruct ts as [|t2 ts].
    + exists t. split; [reflexivity|]. reflexivity.
    + cbn [length].
      replace (-1 - 1 + Z.of_nat (S (S (length ts)))) with (Z.of_nat (length ts)) by lia.
      rewrite Z.rem_small by lia.
      replace (Z.max 0 (Z.of_nat (S (S (length ts))) - 2)) with (Z.of_nat (length ts))
        by lia.
      destruct (item_in_range (t :: t2 :: ts) (Z.of_nat (length ts))) as [t' Ht'];
        [cbn [length]; lia|].
      exists t'. split; [exact Ht'|]. by rewrite Ht'.
Qed.

Lemma navigation_from_unknown_active_witness :
  nextTab (int 3) (switchTab "ghost" (int 2) three_tabs)
  = Returned (switchTab "a" (int 3) (switchTab "ghost" (int 2) three_tabs)).
Proof.
  refine (proj1 (navigation_from_unknown_active (int 3)
                   (switchTab "ghost" (int 2) three_tabs)
                   (tab_named "a") [tab_named "b"; tab_named "c"] eq_refl _)).
  vm_compute. intuition discriminate.
Defined.

(* ====================================================================== *)
(** * Window controls *)
(* ====================================================================== *)

(** X26: one click on the maximize button.  The handler never throws.
    When the toggle fails, the window and the button's state stay as they
    were and the window is not queried.  When the toggle succeeds, or the
    platform has none, and the platform cannot be queried, the button
    falls back to "Maximize" whatever it showed before; when the query
    fails, the button keeps its state; when the query answers, the button
    shows the answer, and "Maximize" on an empty answer.  On a platform
    that toggles and answers truthfully, the button shows "Restore" after
    the click exactly when the window is then maximized, whatever it
    showed before. *)
Theorem handleMaximize_tracks_window
    (platform : WindowControls.Platform) (window isMaximized : bool) :
  let after := WindowControls.handleMaximize platform window isMaximized in
  (forall toggle, WindowControls.toggleMaximizeWindow platform = Some toggle ->
     toggle window = Thrown -> after = (window, isMaximized))
  /\ (forall window',
        (WindowControls.toggleMaximizeWindow platform = None /\ window' = window)
        \/ (exists toggle, WindowControls.toggleMaximizeWindow platform = Some toggle
                           /\ toggle window = Returned window') ->
        (WindowControls.isWindowMaximized platform = None -> after = (window', false))
        /\ (forall query, WindowControls.isWindowMaximized platform = Some query ->
              query window' = Thrown -> after = (window', isMaximized))
        /\ (forall query maximized,
              WindowControls.isWindowMaximized platform = Some query ->
              query window' = Returned maximized ->
              after = (window', default false maximized)
              /\ WindowControls.maximize_label (snd after)
                 = match maximized with
                   | Some true => "Restore"%string
                   | _ => "Maximize"%string
                   end))
  /\ (WindowControls.honest platform ->
      after = (negb window, negb window)
      /\ WindowControls.maximize_label (snd after)
         = if fst after then "Restore"%string else "Maximize"%string).
Proof.
  cbv zeta. unfold WindowControls.handleMaximize. split; [|split].
  - intros toggle -> ->. reflexivity.
  - intros window' Htoggled.
    assert (E : match WindowControls.toggleMaximizeWindow platform with
                | Some toggle => toggle window
                | None => Returned window
                end = Returned window').
    { destruct Htoggled as [[-> ->] | (toggle & -> & ->)]; reflexivity. }
    rewrite E. split; [|split].
    + by intros ->.
    + by intros query -> ->.
    + intros query maximized -> ->. split; [reflexivity|].
      by destruct maximized as [[|]|].
  - intros [-> ->]. cbn. split; [reflexivity|]. reflexivity.
Qed.
